(** * A pager interface for raw Mach devices (devio pager): model and properties

    The development embeds the pager callbacks [pager_read_page],
    [pager_write_page], [pager_unlock_page], [pager_report_extent] and the
    lifecycle functions [init_dev_paging], [dev_stop_paging] and
    [dev_get_memory_object] of the devio translator.

    The C functions work on a [struct dev] reached through a pointer and call
    into the kernel device interface, libports and libpager.  They are
    written here in a small state monad over a [state] that holds the device
    descriptor (with the lock of its [io_state]), the port/pager heap and the
    trace of calls made to the collaborators; what a collaborator answers is
    taken from a [Collaborators] environment.  A call ends by returning, by
    waiting on the descriptor's lock, or by a divide error. *)

From Stdlib Require Import ZArith Lia.
From Stdlib.Strings Require Import Byte.
From stdpp Require Import base option list gmap.

Local Open Scope Z_scope.

(** ** Machine integers

    [vm_offset_t], [vm_size_t] and [vm_address_t] are the unsigned machine
    word of the i386 Mach ABI, [int] is the signed 32-bit integer.  Values are
    kept in [Z]; the conversions below are the C conversions. *)

Module Word.

Definition bits : Z := 32.
Definition modulus : Z := Eval cbv in 2 ^ bits.
Definition int_max : Z := Eval cbv in 2 ^ (bits - 1).

(** Conversion to the unsigned word (arithmetic wraps modulo [modulus]). *)
Definition to_uint (z : Z) : Z := z mod modulus.

(** Conversion to [int] (two's complement). *)
Definition to_int (z : Z) : Z := (z + int_max) mod modulus - int_max.

End Word.

(** ** Error codes and Mach constants *)

Definition error_t : Type := Z.

(** [_HURD_ERRNO (n)] of the C library. *)
Definition hurd_errno (n : Z) : error_t := Z.lor 1073741824 n.

Definition EIO : error_t := Eval cbv in hurd_errno 5.
Definition ENODEV : error_t := Eval cbv in hurd_errno 19.
Definition ENOSPC : error_t := Eval cbv in hurd_errno 28.
Definition EROFS : error_t := Eval cbv in hurd_errno 30.
Definition EDQUOT : error_t := Eval cbv in hurd_errno 69.

Definition MACH_PORT_NULL : Z := 0.
Definition MACH_MSG_TYPE_MAKE_SEND : Z := 20.
Definition MEMORY_OBJECT_COPY_DELAY : Z := 2.

(** The error vocabulary the pager library accepts from [pager_read_page] and
    [pager_write_page] ("The only permissable error returns are EIO, EDQUOT,
    and ENOSPC"). *)
Definition permitted_error (e : error_t) : Prop :=
  e = EIO \/ e = EDQUOT \/ e = ENOSPC.

(** ** Data *)

(** [struct pager *] and [struct port_bucket *] are heap addresses. *)
Definition pager_ptr : Type := positive.
Definition bucket_ptr : Type := positive.

(** [struct dev]: the fields the pager code uses.  [NULL] is [None].
    [io_state] is the lock of [dev->io_state], the argument of
    [io_state_lock] and [io_state_unlock]: [true] while the lock is held. *)
Record dev : Type := mk_dev {
  port : Z;
  flags : Z;
  pager : option pager_ptr;
  pager_port_bucket : option bucket_ptr;
  size : Z;
  dev_block_size : Z;
  io_state : bool
}.

(** What libpager keeps for a pager: its attributes, the reference count of
    its port, the name of its receive right and whether send rights for it
    have been handed out. *)
Record pager_info : Type := mk_pager {
  may_cache : Z;
  copy_strategy : Z;
  refcnt : Z;
  port_right : Z;
  has_send_rights : bool
}.

(** The heap of libports/libpager: the pagers, and the ports of every
    bucket. *)
Record ports : Type := mk_ports {
  pagers : gmap positive pager_info;
  buckets : gmap positive (list pager_ptr)
}.

(** The calls that act on a collaborator, with their arguments.  Calls that
    only read ([ports_count_bucket]) are not recorded. *)
Inductive event : Type :=
  | Ev_device_read (dport mode recnum bytes_wanted : Z)
  | Ev_device_write (dport mode recnum data bytes : Z)
  | Ev_vm_deallocate (address bytes : Z)
  | Ev_io_state_lock
  | Ev_io_state_unlock
  | Ev_ports_create_bucket (b : bucket_ptr)
  | Ev_cthread_fork (b : option bucket_ptr)
  | Ev_pager_create (b : option bucket_ptr) (cache copy : Z)
                    (result : option pager_ptr)
  | Ev_ports_port_ref (p : pager_ptr)
  | Ev_ports_port_deref (p : pager_ptr)
  | Ev_pager_get_port (p : pager_ptr)
  | Ev_mach_port_insert_right (name poly polytype : Z)
  | Ev_pager_change_attributes (p : pager_ptr) (cache copy wait : Z)
  | Ev_pager_shutdown (p : pager_ptr)
  | Ev_sleep (seconds : Z).

Record state : Type := mk_state {
  st_dev : dev;
  st_ports : ports;
  st_trace : list event
}.

(** Reply of [device_read]: the return code, the out-of-line region the
    kernel allocated for the data, and the number of bytes read. *)
Record read_reply : Type := mk_read_reply {
  rd_err : Z;
  rd_region : list byte;
  rd_count : Z
}.

(** Reply of [device_write]: the return code and the bytes written. *)
Record write_reply : Type := mk_write_reply {
  wr_err : Z;
  wr_count : Z
}.

(** The environment: constants of headers that are not part of the modelled
    file, and the answers of the kernel and of the libraries where the code
    cannot determine them.  Answers may depend on the calls made so far. *)
Class Collaborators : Type := {
  vm_page_size : Z;
  DEV_READONLY : Z;
  DEV_SERIAL : Z;
  device_read_reply : list event -> Z -> Z -> Z -> Z -> read_reply;
  device_write_reply : list event -> Z -> Z -> Z -> Z -> Z -> write_reply;
  pager_create_fails : list event -> bool;
  new_port_name : list event -> Z;
  insert_right_reply : list event -> Z -> Z -> Z -> Z;
  grace_period : list event -> ports -> ports
}.

(** ** The state monad *)

(** How a call ends.  [Done a]: it returns [a].  [Blocked]: it waits in
    [io_state_lock] for a lock that is held; the functions modelled here run
    on one thread, nothing releases the lock while the caller waits, and the
    call does not return.  [Trapped]: the thread is stopped by the divide
    error of an integer division by zero.  The state that comes with the
    result is the one reached when the call ended. *)
Inductive result (A : Type) : Type :=
  | Done (a : A)
  | Blocked
  | Trapped.

Arguments Done {A} a.
Arguments Blocked {A}.
Arguments Trapped {A}.

Definition M (A : Type) : Type := state -> result A * state.

Definition ret {A} (a : A) : M A := fun s => (Done a, s).

Definition bind {A B} (c : M A) (k : A -> M B) : M B :=
  fun s =>
    match c s with
    | (Done a, s') => k a s'
    | (Blocked, s') => (Blocked, s')
    | (Trapped, s') => (Trapped, s')
    end.

(** The caller waits and does not go on. *)
Definition block {A} : M A := fun s => (Blocked, s).

(** The caller is stopped by a divide error. *)
Definition trap {A} : M A := fun s => (Trapped, s).

(** The value of an expression that is undefined where it is [None]. *)
Definition eval {A} (v : option A) : M A :=
  match v with
  | Some a => ret a
  | None => trap
  end.

Declare Scope pager_scope.
Delimit Scope pager_scope with pager.
Notation "x <- c ;; k" := (bind c (fun x => k))
  (at level 100, c at next level, right associativity) : pager_scope.
Notation "c ;; k" := (bind c (fun _ => k))
  (at level 100, right associativity) : pager_scope.

Definition get_dev : M dev := fun s => (Done (st_dev s), s).
Definition get_ports : M ports := fun s => (Done (st_ports s), s).
Definition get_trace : M (list event) := fun s => (Done (st_trace s), s).

Definition put_ports (h : ports) : M unit :=
  fun s => (Done tt, mk_state (st_dev s) h (st_trace s)).

Definition emit (e : event) : M unit :=
  fun s => (Done tt, mk_state (st_dev s) (st_ports s) (st_trace s ++ [e])).

(** [dev->pager = v] *)
Definition set_pager (v : option pager_ptr) : M unit :=
  fun s =>
    let d := st_dev s in
    (Done tt, mk_state (mk_dev (port d) (flags d) v (pager_port_bucket d)
                               (size d) (dev_block_size d) (io_state d))
                       (st_ports s) (st_trace s)).

(** [dev->pager_port_bucket = v] *)
Definition set_pager_port_bucket (v : option bucket_ptr) : M unit :=
  fun s =>
    let d := st_dev s in
    (Done tt, mk_state (mk_dev (port d) (flags d) (pager d) v
                               (size d) (dev_block_size d) (io_state d))
                       (st_ports s) (st_trace s)).

(** The descriptor with its lock taken ([true]) or released ([false]). *)
Definition with_lock (v : bool) (d : dev) : dev :=
  mk_dev (port d) (flags d) (pager d) (pager_port_bucket d)
         (size d) (dev_block_size d) v.

Definition set_io_state (v : bool) : M unit :=
  fun s => (Done tt, mk_state (with_lock v (st_dev s)) (st_ports s) (st_trace s)).

(** ** The kernel device interface and memory *)

Section Model.

Context `{C : Collaborators}.

Local Open Scope pager_scope.

Definition device_read (dport mode recnum bytes_wanted : Z) : M read_reply :=
  t <- get_trace ;;
  emit (Ev_device_read dport mode recnum bytes_wanted) ;;
  ret (device_read_reply t dport mode recnum bytes_wanted).

Definition device_write (dport mode recnum data bytes : Z) : M write_reply :=
  t <- get_trace ;;
  emit (Ev_device_write dport mode recnum data bytes) ;;
  ret (device_write_reply t dport mode recnum data bytes).

Definition vm_deallocate (address bytes : Z) : M unit :=
  emit (Ev_vm_deallocate address bytes).

(** [bzero (mem + off, len)] on the region [mem]. *)
Definition bzero (mem : list byte) (off len : Z) : list byte :=
  take (Z.to_nat off) mem ++ replicate (Z.to_nat len) x00
    ++ drop (Z.to_nat off + Z.to_nat len) mem.

(** The page the memory manager finds at [*buf]. *)
Definition page_at (region : list byte) : list byte :=
  take (Z.to_nat vm_page_size) region.

(** ** Pager library callbacks *)

(** The number of bytes to transfer for the page at [page]: a partial page
    where the page would run off the end of the device.  [page] is a
    [vm_offset_t], [want] an [int]; the sum is computed in the unsigned
    word. *)
Definition transfer_size (d : dev) (page : Z) : Z :=
  let want := Word.to_int vm_page_size in
  if Word.to_uint (page + Word.to_uint want) >? size d
  then Word.to_int (Word.to_uint (size d - page))
  else want.

(** The block index handed to the device, [page / dev->dev_block_size], an
    unsigned division.  It has no value for a zero block size: the division
    raises a divide error. *)
Definition block_index (d : dev) (page : Z) : option Z :=
  let block_size := Word.to_uint (dev_block_size d) in
  if block_size =? 0 then None else Some (page / block_size).

Definition pager_read_page (page : Z) : M (error_t * list byte * Z) :=
  d <- get_dev ;;
  let want := transfer_size d page in
  recnum <- eval (block_index d page) ;;
  r <- device_read (port d) 0 recnum want ;;
  let err := rd_err r in
  let read := rd_count r in
  let buf :=
    if (err =? 0) && (Word.to_uint want <? vm_page_size)
    then bzero (rd_region r) want (Word.to_uint (vm_page_size - want))
    else rd_region r in
  let writelock := Z.land (flags d) DEV_READONLY in
  if negb (err =? 0) || (read <? want)
  then ret (EIO, buf, writelock)
  else ret (0, buf, writelock).

Definition pager_write_page (page buf : Z) : M error_t :=
  d <- get_dev ;;
  if negb (Z.land (flags d) DEV_READONLY =? 0)
  then ret EROFS
  else
    let want := transfer_size d page in
    recnum <- eval (block_index d page) ;;
    r <- device_write (port d) 0 recnum buf want ;;
    let err := wr_err r in
    let written := wr_count r in
    vm_deallocate buf vm_page_size ;;
    if negb (err =? 0) || (written <? want)
    then ret EIO
    else ret 0.

Definition pager_unlock_page (address : Z) : M error_t :=
  d <- get_dev ;;
  if negb (Z.land (flags d) DEV_READONLY =? 0)
  then ret EROFS
  else ret 0.

(** Returns [(error, *offset, *size)]. *)
Definition pager_report_extent : M (error_t * Z * Z) :=
  d <- get_dev ;;
  ret (0, 0, size d).

(** ** libports, libpager and the other collaborators *)

(** Modelled from the spec: [dev_is] of dev.h, which is not part of the
    modelled file; the device-class test ("the device's type does not support
    paging"), read off the descriptor's flags like the read-only test of the
    callbacks above. *)
Definition dev_is (d : dev) (bits : Z) : bool :=
  negb (Z.land (flags d) bits =? 0).

(** Modelled from the spec: [io_state_lock] of iostate.h, the acquisition of
    the descriptor's "mutual-exclusion lock".  The call is recorded in the
    trace.  It takes the lock if the lock is free; if the lock is held,
    whoever holds it, the caller waits. *)
Definition io_state_lock : M unit :=
  emit Ev_io_state_lock ;;
  d <- get_dev ;;
  if io_state d then block else set_io_state true.

(** Modelled from the spec: [io_state_unlock] of iostate.h, the release of
    the descriptor's lock, recorded in the trace. *)
Definition io_state_unlock : M unit :=
  emit Ev_io_state_unlock ;;
  set_io_state false.

(** The live ports of a bucket. *)
Definition bucket_ports (h : ports) (b : option bucket_ptr) : list pager_ptr :=
  match b with
  | Some b' => default [] (buckets h !! b')
  | None => []
  end.

(** The name of the receive right of a pager's port. *)
Definition port_of (h : ports) (p : pager_ptr) : Z :=
  from_option port_right MACH_PORT_NULL (pagers h !! p).

(** Modelled from the spec: [ports_create_bucket] of libports; a new, empty
    Request Group. *)
Definition ports_create_bucket : M (option bucket_ptr) :=
  h <- get_ports ;;
  let b := fresh (dom (buckets h)) in
  put_ports (mk_ports (pagers h) (<[b := []]> (buckets h))) ;;
  emit (Ev_ports_create_bucket b) ;;
  ret (Some b).

(** Modelled from the spec: [cthread_detach (cthread_fork (...))]; the
    detached worker thread that serves the bucket.  Its dispatch loop
    ([service_paging_requests]) runs concurrently and is not modelled. *)
Definition cthread_fork_detached (b : option bucket_ptr) : M unit :=
  emit (Ev_cthread_fork b).

(** Modelled from the spec: [ports_count_bucket] of libports; "counting live
    endpoints". *)
Definition ports_count_bucket (b : option bucket_ptr) : M Z :=
  h <- get_ports ;;
  ret (Z.of_nat (length (bucket_ports h b))).

Fixpoint iterate_ports (f : pager_ptr -> M error_t) (l : list pager_ptr)
  : M error_t :=
  match l with
  | [] => ret 0
  | p :: l' =>
      e <- f p ;;
      e' <- iterate_ports f l' ;;
      ret (if e =? 0 then e' else e)
  end.

(** Modelled from the spec: [ports_bucket_iterate] of libports; "iterating
    them to apply a function", over the ports live when the call is made. *)
Definition ports_bucket_iterate (b : option bucket_ptr)
    (f : pager_ptr -> M error_t) : M error_t :=
  h <- get_ports ;;
  iterate_ports f (bucket_ports h b).

Definition set_attributes (cache copy : Z) (i : pager_info) : pager_info :=
  mk_pager cache copy (refcnt i) (port_right i) (has_send_rights i).

Definition add_refs (n : Z) (i : pager_info) : pager_info :=
  mk_pager (may_cache i) (copy_strategy i) (refcnt i + n) (port_right i)
           (has_send_rights i).

(** Modelled from the spec: [pager_change_attributes] of libpager; "change
    caching policy" of a Backing-Object's endpoint. *)
Definition pager_change_attributes (p : pager_ptr) (cache copy wait : Z)
  : M unit :=
  h <- get_ports ;;
  put_ports (mk_ports (alter (set_attributes cache copy) p (pagers h))
                      (buckets h)) ;;
  emit (Ev_pager_change_attributes p cache copy wait).

(** Modelled from the spec: [pager_create] of libpager; a new Backing-Object
    with one reference, whose port joins the bucket.  It may fail and return
    [NULL]. *)
Definition pager_create (b : option bucket_ptr) (cache copy : Z)
  : M (option pager_ptr) :=
  t <- get_trace ;;
  h <- get_ports ;;
  if pager_create_fails t
  then emit (Ev_pager_create b cache copy None) ;; ret None
  else
    let p := fresh (dom (pagers h)) in
    let info := mk_pager cache copy 1 (new_port_name t) false in
    let bs := match b with
              | Some b' => alter (fun l => l ++ [p]) b' (buckets h)
              | None => buckets h
              end in
    put_ports (mk_ports (<[p := info]> (pagers h)) bs) ;;
    emit (Ev_pager_create b cache copy (Some p)) ;;
    ret (Some p).

(** Modelled from the spec: [ports_port_ref] of libports; "take an additional
    reference". *)
Definition ports_port_ref (p : pager_ptr) : M unit :=
  h <- get_ports ;;
  put_ports (mk_ports (alter (add_refs 1) p (pagers h)) (buckets h)) ;;
  emit (Ev_ports_port_ref p).

(** Modelled from the spec: [ports_port_deref] of libports; "dropping" a
    reference. *)
Definition ports_port_deref (p : pager_ptr) : M unit :=
  h <- get_ports ;;
  put_ports (mk_ports (alter (add_refs (-1)) p (pagers h)) (buckets h)) ;;
  emit (Ev_ports_port_deref p).

Definition give_send_rights (i : pager_info) : pager_info :=
  if has_send_rights i then i
  else mk_pager (may_cache i) (copy_strategy i) (refcnt i + 1)
                (port_right i) true.

(** Modelled from the spec: [pager_get_port] of libpager; "the
    externally-visible handle for the object", which "retains the needed
    reference". *)
Definition pager_get_port (p : pager_ptr) : M Z :=
  h <- get_ports ;;
  put_ports (mk_ports (alter give_send_rights p (pagers h)) (buckets h)) ;;
  emit (Ev_pager_get_port p) ;;
  ret (port_of h p).

(** [mach_port_insert_right] of the kernel. *)
Definition mach_port_insert_right (name poly polytype : Z) : M error_t :=
  t <- get_trace ;;
  emit (Ev_mach_port_insert_right name poly polytype) ;;
  ret (insert_right_reply t name poly polytype).

(** Modelled from the spec: [pager_shutdown] of libpager; the "synchronous
    shutdown call to the Backing-Object". *)
Definition pager_shutdown (p : pager_ptr) : M unit :=
  emit (Ev_pager_shutdown p).

(** [sleep]: while the caller sleeps the kernel and the worker thread act on
    the ports. *)
Definition sleep (seconds : Z) : M unit :=
  t <- get_trace ;;
  h <- get_ports ;;
  put_ports (grace_period t h) ;;
  emit (Ev_sleep seconds).

(** ** Paging lifecycle *)

Definition init_dev_paging : M unit :=
  b <- ports_create_bucket ;;
  set_pager_port_bucket b ;;
  d <- get_dev ;;
  cthread_fork_detached (pager_port_bucket d).

Definition block_cache (p : pager_ptr) : M error_t :=
  pager_change_attributes p 0 MEMORY_OBJECT_COPY_DELAY 1 ;;
  ret 0.

Definition enable_cache (p : pager_ptr) : M error_t :=
  pager_change_attributes p 1 MEMORY_OBJECT_COPY_DELAY 0 ;;
  ret 0.

Definition when (b : bool) (c : M unit) : M unit :=
  if b then c else ret tt.

(** Lines 167 to 216 of [dev_stop_paging]: all of it but the second
    [io_state_lock] and the [return].  The value is the local [success]. *)
Definition stop_paging_attempt (nosync : Z) : M Z :=
  io_state_lock ;;
  d <- get_dev ;;
  success <-
    match pager d with
    | Some pg =>
        num_pagers <- ports_count_bucket (pager_port_bucket d) ;;
        success <-
          (if (num_pagers >? 0) && (nosync =? 0)
           then
             ports_bucket_iterate (pager_port_bucket d) block_cache ;;
             sleep 1 ;;
             num_pagers <- ports_count_bucket (pager_port_bucket d) ;;
             if num_pagers >? 0
             then
               ports_bucket_iterate (pager_port_bucket d) enable_cache ;;
               ret 0
             else ret 1
           else ret 1) ;;
        when (negb (success =? 0) && (nosync =? 0)) (pager_shutdown pg) ;;
        ret success
    | None => ret 1
    end ;;
  when (negb (success =? 0)) (set_pager None) ;;
  ret success.

(** Line 218 calls [io_state_lock] a second time; the function has no
    [io_state_unlock]. *)
Definition dev_stop_paging (nosync : Z) : M Z :=
  success <- stop_paging_attempt nosync ;;
  io_state_lock ;;
  ret success.

(** Returns [(error, *memobj)]; [*memobj] is [None] where the function
    returns without storing to it. *)
Definition dev_get_memory_object : M (error_t * option Z) :=
  d <- get_dev ;;
  if dev_is d DEV_SERIAL
  then ret (ENODEV, None)
  else
    io_state_lock ;;
    when (bool_decide (pager_port_bucket d = None)) init_dev_paging ;;
    d <- get_dev ;;
    match pager d with
    | None =>
        p <- pager_create (pager_port_bucket d) 1 MEMORY_OBJECT_COPY_DELAY ;;
        set_pager p
    | Some p => ports_port_ref p
    end ;;
    io_state_unlock ;;
    d <- get_dev ;;
    match pager d with
    | None => ret (ENODEV, None)
    | Some p =>
        memobj <- pager_get_port p ;;
        ports_port_deref p ;;
        if negb (memobj =? MACH_PORT_NULL)
        then
          e <- mach_port_insert_right memobj memobj MACH_MSG_TYPE_MAKE_SEND ;;
          ret (e, Some memobj)
        else ret (0, Some memobj)
    end.

End Model.

Arguments transfer_size : simpl never.
Arguments block_index : simpl never.
Arguments port_of : simpl never.

(** ** Concrete collaborators and states

    A device with 4096-byte pages, 512-byte blocks and 5000 bytes of storage:
    one full page and a partial tail of 904 bytes.  The lock of every sample
    device is free. *)

Definition sample_answers (rd_code wr_code : Z) (create_fails : bool)
    (grace : ports -> ports) : Collaborators := {|
  vm_page_size := 4096;
  DEV_READONLY := 2;
  DEV_SERIAL := 8;
  device_read_reply := fun _ _ _ _ want =>
    mk_read_reply rd_code (replicate 4096 "a"%byte) want;
  device_write_reply := fun _ _ _ _ _ bytes => mk_write_reply wr_code bytes;
  pager_create_fails := fun _ => create_fails;
  new_port_name := fun _ => 77;
  insert_right_reply := fun _ _ _ _ => 0;
  grace_period := fun _ => grace
|}.

(** Every call succeeds; no endpoint goes away during the grace period. *)
Definition healthy : Collaborators := sample_answers 0 0 false id.

(** The device rejects every transfer with D_IO_ERROR, but reports the full
    count. *)
Definition rejecting : Collaborators := sample_answers 2500 2500 false id.

(** Every endpoint goes away during the grace period. *)
Definition idle_clients : Collaborators :=
  sample_answers 0 0 false (fun h => mk_ports (pagers h) (const [] <$> buckets h)).

(** [pager_create] always fails. *)
Definition out_of_pagers : Collaborators := sample_answers 0 0 true id.

(** The first endpoint of every bucket goes away during the grace period,
    the others stay. *)
Definition first_leaves : Collaborators :=
  sample_answers 0 0 false (fun h => mk_ports (pagers h) (drop 1 <$> buckets h)).

Definition no_ports : ports := mk_ports ∅ ∅.

Definition disk (fl : Z) : dev := mk_dev 11 fl None None 5000 512 false.

Definition start (d : dev) : state := mk_state d no_ports [].

(** A disk whose last page ends at the top of the address space. *)
Definition top_disk : dev := mk_dev 11 0 None None 4294967295 512 false.

(** A mapped disk: one pager, live in the one bucket, caching enabled. *)
Definition mapped_ports : ports :=
  mk_ports {[ 1%positive := mk_pager 1 MEMORY_OBJECT_COPY_DELAY 1 77 true ]}
           {[ 1%positive := [1%positive] ]}.

Definition mapped_disk : dev :=
  mk_dev 11 0 (Some 1%positive) (Some 1%positive) 5000 512 false.

Definition mapped : state := mk_state mapped_disk mapped_ports [].

(** A disk with two live endpoints in its bucket, caching enabled on both;
    the descriptor's pager is the second. *)
Definition shared_ports : ports :=
  mk_ports {[ 1%positive := mk_pager 1 MEMORY_OBJECT_COPY_DELAY 1 77 true;
              2%positive := mk_pager 1 MEMORY_OBJECT_COPY_DELAY 1 78 true ]}
           {[ 1%positive := [1%positive; 2%positive] ]}.

Definition shared_disk : dev :=
  mk_dev 11 0 (Some 2%positive) (Some 1%positive) 5000 512 false.

Definition shared : state := mk_state shared_disk shared_ports [].

(** A writable disk whose block size is zero. *)
Definition blockless_disk : dev := mk_dev 11 0 None None 5000 0 false.

(** The mapped disk while its lock is held. *)
Definition mapped_locked : state :=
  mk_state (with_lock true mapped_disk) mapped_ports [].

(** A mapped disk whose pager has no live endpoint left. *)
Definition quiet : state :=
  mk_state mapped_disk
           (mk_ports {[ 1%positive := mk_pager 1 MEMORY_OBJECT_COPY_DELAY 1 77 true ]}
                     {[ 1%positive := [] ]})
           [].

(** ** [diskfs_S_io_write]: the file-write path of libdiskfs

    The function works on the [struct peropen] and the [struct node] reached
    through [cred]; the model keeps the fields it reads and writes.  [off_t]
    is the 32-bit [long] of the i386 ABI, [mach_msg_type_number_t] the
    unsigned word, so [off + datalen] is computed and compared in the
    unsigned word. *)

Module IoWrite.

Definition EOPNOTSUPP : error_t := Eval cbv in hurd_errno 45.
Definition EBADF : error_t := Eval cbv in hurd_errno 9.

Definition S_IFMT : Z := 61440.
Definition S_IFDIR : Z := 16384.

(** [S_ISDIR (mode)] *)
Definition S_ISDIR (mode : Z) : bool := Z.land mode S_IFMT =? S_IFDIR.

Record peropen : Type := mk_peropen {
  filepointer : Z;
  openstat : Z
}.

Record node : Type := mk_node {
  st_mode : Z;
  st_size : Z;
  dn_set_ctime : Z;
  allocsize : Z
}.

(** Calls to the rest of libdiskfs, to the filesystem and to cthreads. *)
Inductive call : Type :=
  | mutex_lock
  | mutex_unlock
  | ioserver_get_conch
  | diskfs_grow (new_end : Z)
  | diskfs_node_update (wait : Z)
  | rdwr_internal (data : list byte) (off amt dir notime : Z)
  | diskfs_file_update (wait : Z).

Record fs : Type := mk_fs {
  po : peropen;
  np : node;
  calls : list call
}.

(** Constants of fcntl.h, the global [diskfs_synchronous], and what the
    filesystem answers: [diskfs_grow] returns an error code and leaves the
    node with some [allocsize]; [_diskfs_rdwr_internal] returns an error
    code. *)
Class Filesystem : Type := {
  O_WRITE : Z;
  O_APPEND : Z;
  O_FSYNC : Z;
  diskfs_synchronous : Z;
  grow_reply : list call -> node -> Z -> Z * Z;
  rdwr_reply : list call -> node -> list byte -> Z -> Z -> Z
}.

(** How the function ends: it returns an error code, with [*amt] where it
    was stored, or the assertion fails. *)
Inductive outcome : Type :=
  | Returns (err : error_t) (amt : option Z)
  | Assertion_failed.

Definition record (c : call) (s : fs) : fs :=
  mk_fs (po s) (np s) (calls s ++ [c]).

Definition set_filepointer (v : Z) (s : fs) : fs :=
  mk_fs (mk_peropen v (openstat (po s))) (np s) (calls s).

Definition set_allocsize (v : Z) (s : fs) : fs :=
  mk_fs (po s)
        (mk_node (st_mode (np s)) (st_size (np s)) (dn_set_ctime (np s)) v)
        (calls s).

(** [np->dn_stat.st_size = v; np->dn_set_ctime = 1;] *)
Definition extend_size (v : Z) (s : fs) : fs :=
  mk_fs (po s) (mk_node (st_mode (np s)) v 1 (allocsize (np s))) (calls s).

Section Write.

Context `{F : Filesystem}.

(** [if (diskfs_synchronous) diskfs_node_update (np, 1);] *)
Definition update_if_synchronous (s : fs) : fs :=
  if negb (diskfs_synchronous =? 0) then record (diskfs_node_update 1) s else s.

(** [off + datalen > bound], with [off] an [int], [datalen] unsigned and
    [bound] an [off_t]. *)
Definition beyond (off datalen bound : Z) : bool :=
  Word.to_uint (off + datalen) >? Word.to_uint bound.

(** The [while] loop that grows the file; [None] when the fuel runs out. *)
Fixpoint grow_loop (fuel : nat) (off datalen : Z) (s : fs)
  : option (error_t * fs) :=
  if beyond off datalen (allocsize (np s))
  then
    match fuel with
    | O => None
    | S fuel' =>
        let new_end := Word.to_int (Word.to_uint (off + datalen)) in
        let '(err, alloc) := grow_reply (calls s) (np s) new_end in
        let s1 := set_allocsize alloc (record (diskfs_grow new_end) s) in
        let s2 := update_if_synchronous s1 in
        if negb (err =? 0) then Some (err, s2)
        else grow_loop fuel' off datalen s2
    end
  else Some (0, s).

Definition diskfs_S_io_write (fuel : nat) (cred : option Z)
    (data : list byte) (datalen offset : Z) (s : fs)
  : option (outcome * fs) :=
  let off := Word.to_int offset in
  match cred with
  | None => Some (Returns EOPNOTSUPP None, s)
  | Some _ =>
      if Z.land (openstat (po s)) O_WRITE =? 0
      then Some (Returns EBADF None, s)
      else
        let s := record mutex_lock s in
        if S_ISDIR (st_mode (np s))
        then Some (Assertion_failed, s)
        else
          let s := record ioserver_get_conch s in
          let s :=
            if off =? -1
            then if negb (Z.land (openstat (po s)) O_APPEND =? 0)
                 then set_filepointer (st_size (np s)) s
                 else s
            else s in
          let off := if off =? -1 then Word.to_int (filepointer (po s)) else off in
          match grow_loop fuel off datalen s with
          | None => None
          | Some (err, s) =>
              if negb (err =? 0)
              then Some (Returns err None, record mutex_unlock s)
              else
                let s :=
                  if beyond off datalen (st_size (np s))
                  then update_if_synchronous
                         (extend_size (Word.to_int (Word.to_uint (off + datalen))) s)
                  else s in
                let amt := datalen in
                let err := rdwr_reply (calls s) (np s) data off datalen in
                let s := record (rdwr_internal data off datalen 1 0) s in
                let s :=
                  if (err =? 0) && (offset =? -1)
                  then set_filepointer
                         (Word.to_int (filepointer (po s) + amt)) s
                  else s in
                let s :=
                  if (err =? 0)
                     && (negb (Z.land (openstat (po s)) O_FSYNC =? 0)
                         || negb (diskfs_synchronous =? 0))
                  then record (diskfs_file_update 1) s
                  else s in
                Some (Returns err (Some amt), record mutex_unlock s)
          end
  end.

(** The offset the write starts at: the file pointer (moved to the end of
    the file first under O_APPEND) when [offset] is -1, else [offset]. *)
Definition start_offset (offset : Z) (s : fs) : Z :=
  if offset =? -1
  then if negb (Z.land (openstat (po s)) O_APPEND =? 0)
       then st_size (np s)
       else filepointer (po s)
  else offset.

(** A write whose offsets stay inside the positive range of [off_t]. *)
Record in_range (offset datalen : Z) (s : fs) : Prop := {
  ir_offset : offset = -1 \/ 0 <= offset;
  ir_datalen : 0 <= datalen;
  ir_start : 0 <= start_offset offset s;
  ir_end : start_offset offset s + datalen < Word.int_max;
  ir_size : 0 <= st_size (np s) < Word.int_max;
  ir_alloc : 0 <= allocsize (np s) < Word.int_max
}.

(** A filesystem whose [diskfs_grow], when it reports success, has made the
    allocation at least as large as asked (and representable). *)
Definition grows : Prop :=
  forall t n new_end,
    (grow_reply t n new_end).1 = 0 ->
    new_end <= (grow_reply t n new_end).2 < Word.int_max.

(** An open file that passes the guards: open for writing, not a
    directory. *)
Definition writable_file (s : fs) : Prop :=
  Z.land (openstat (po s)) O_WRITE <> 0 /\ S_ISDIR (st_mode (np s)) = false.

(** The write as it goes when no offset wraps and one [diskfs_grow]
    suffices: the same steps on unbounded integers, without the loop.  It is
    compared with [diskfs_S_io_write] in [io_write_in_range]. *)
Definition ideal_write (data : list byte) (datalen offset : Z) (s : fs)
  : outcome * fs :=
  let off := start_offset offset s in
  let s := record ioserver_get_conch (record mutex_lock s) in
  let s :=
    if (offset =? -1) && negb (Z.land (openstat (po s)) O_APPEND =? 0)
    then set_filepointer (st_size (np s)) s
    else s in
  let grown :=
    if off + datalen >? allocsize (np s)
    then
      let r := grow_reply (calls s) (np s) (off + datalen) in
      (r.1, update_if_synchronous
              (set_allocsize r.2 (record (diskfs_grow (off + datalen)) s)))
    else (0, s) in
  let s := grown.2 in
  if negb (grown.1 =? 0)
  then (Returns grown.1 None, record mutex_unlock s)
  else
    let s :=
      if off + datalen >? st_size (np s)
      then update_if_synchronous (extend_size (off + datalen) s)
      else s in
    let err := rdwr_reply (calls s) (np s) data off datalen in
    let s := record (rdwr_internal data off datalen 1 0) s in
    let s :=
      if (err =? 0) && (offset =? -1)
      then set_filepointer (filepointer (po s) + datalen) s
      else s in
    let s :=
      if (err =? 0)
         && (negb (Z.land (openstat (po s)) O_FSYNC =? 0)
             || negb (diskfs_synchronous =? 0))
      then record (diskfs_file_update 1) s
      else s in
    (Returns err (Some datalen), record mutex_unlock s).

(** The pieces of a write in range, named. *)

(** The calls [if (diskfs_synchronous) diskfs_node_update (np, 1);] makes. *)
Definition sync_calls : list call :=
  if negb (diskfs_synchronous =? 0) then [diskfs_node_update 1] else [].

(** Where the write ends. *)
Definition end_offset (offset datalen : Z) (s : fs) : Z :=
  start_offset offset s + datalen.

(** The file pointer once the write is positioned. *)
Definition positioned_pointer (offset : Z) (s : fs) : Z :=
  if offset =? -1 then start_offset offset s else filepointer (po s).

Definition needs_grow (offset datalen : Z) (s : fs) : bool :=
  end_offset offset datalen s >? allocsize (np s).

(** What [diskfs_grow] answers when it is called. *)
Definition grow_answer (offset datalen : Z) (s : fs) : Z * Z :=
  grow_reply (calls s ++ [mutex_lock; ioserver_get_conch]) (np s)
             (end_offset offset datalen s).

Definition grow_error (offset datalen : Z) (s : fs) : error_t :=
  if needs_grow offset datalen s then (grow_answer offset datalen s).1 else 0.

Definition grow_calls (offset datalen : Z) (s : fs) : list call :=
  if needs_grow offset datalen s
  then diskfs_grow (end_offset offset datalen s) :: sync_calls
  else [].

Definition allocsize_after_grow (offset datalen : Z) (s : fs) : Z :=
  if needs_grow offset datalen s
  then (grow_answer offset datalen s).2
  else allocsize (np s).

Definition extends (offset datalen : Z) (s : fs) : bool :=
  end_offset offset datalen s >? st_size (np s).

(** The node and the calls made when [_diskfs_rdwr_internal] is called. *)
Definition node_at_write (offset datalen : Z) (s : fs) : node :=
  mk_node (st_mode (np s))
          (if extends offset datalen s then end_offset offset datalen s
           else st_size (np s))
          (if extends offset datalen s then 1 else dn_set_ctime (np s))
          (allocsize_after_grow offset datalen s).

Definition calls_at_write (offset datalen : Z) (s : fs) : list call :=
  calls s ++ [mutex_lock; ioserver_get_conch] ++ grow_calls offset datalen s
    ++ (if extends offset datalen s then sync_calls else []).

(** What [_diskfs_rdwr_internal] answers. *)
Definition write_error (data : list byte) (offset datalen : Z) (s : fs)
  : error_t :=
  rdwr_reply (calls_at_write offset datalen s) (node_at_write offset datalen s)
             data (start_offset offset s) datalen.

(** [(cred->po->openstat & O_FSYNC) || diskfs_synchronous] *)
Definition wants_sync (s : fs) : bool :=
  negb (Z.land (openstat (po s)) O_FSYNC =? 0) || negb (diskfs_synchronous =? 0).

(** The setting of the properties below: a filesystem that grows, a
    writable file, a write in range. *)
Record good_write (offset datalen : Z) (s : fs) : Prop := {
  gw_grows : grows;
  gw_file : writable_file s;
  gw_range : in_range offset datalen s
}.

(** The calls made between two states. *)
Definition calls_since (s s' : fs) : list call :=
  drop (length (calls s)) (calls s').

Definition is_lock_call (c : call) : bool :=
  match c with mutex_lock | mutex_unlock => true | _ => false end.

Definition is_grow (c : call) : bool :=
  match c with diskfs_grow _ => true | _ => false end.

Definition is_rdwr (c : call) : bool :=
  match c with rdwr_internal _ _ _ _ _ => true | _ => false end.

Definition is_file_update (c : call) : bool :=
  match c with diskfs_file_update _ => true | _ => false end.

End Write.

(** A filesystem that grows files to the size asked while it is
    representable, in the modes given. *)
Definition sample_filesystem (sync grow_code rdwr_code : Z) : Filesystem := {|
  O_WRITE := 2;
  O_APPEND := 256;
  O_FSYNC := 1024;
  diskfs_synchronous := sync;
  grow_reply := fun _ n new_end =>
    if (grow_code =? 0) && (new_end <? Word.int_max)
    then (0, new_end)
    else (if grow_code =? 0 then ENOSPC else grow_code, allocsize n);
  rdwr_reply := fun _ _ _ _ _ => rdwr_code
|}.

(** A regular file of 100 bytes with 512 bytes allocated, open for reading
    and writing with the flags [extra], file pointer at 10. *)
Definition sample_file (extra : Z) : fs :=
  mk_fs (mk_peropen 10 (Z.lor 3 extra)) (mk_node 33188 100 0 512) [].

(** A directory, open for writing. *)
Definition sample_directory : fs :=
  mk_fs (mk_peropen 0 3) (mk_node 16877 512 0 512) [].

End IoWrite.

(** ** [netfs_S_file_set_translator]: setting a translator in libnetfs

    The function validates the request, takes the node's lock and then runs
    four blocks in turn: the check and removal of an active translator, the
    exclusive check for a passive one, the installation of the active
    translator, and the installation of the passive one, where the
    short-circuited translators (symlink, device nodes, fifo, socket) are
    turned into plain nodes.  [goto out], [return] and a failing [assert]
    leave the blocks early; the model keeps them apart in [flow]. *)

Module SetTranslator.

Definition EOPNOTSUPP : error_t := Eval cbv in hurd_errno 45.
Definition EINVAL : error_t := Eval cbv in hurd_errno 22.
Definition EBUSY : error_t := Eval cbv in hurd_errno 16.

Definition MIG_SERVER_DIED : Z := -308.
Definition MACH_SEND_INVALID_DEST : Z := 268435459.

Definition S_IFMT : Z := 61440.
Definition S_IFIFO : Z := 4096.
Definition S_IFCHR : Z := 8192.
Definition S_IFBLK : Z := 24576.
Definition S_IFLNK : Z := 40960.
Definition S_IFSOCK : Z := 49152.

(** The translator names of <hurd/paths.h>. *)
Definition _HURD : list byte := ["/"; "h"; "u"; "r"; "d"; "/"]%byte.
Definition _HURD_SYMLINK : list byte :=
  _HURD ++ ["s"; "y"; "m"; "l"; "i"; "n"; "k"]%byte.
Definition _HURD_CHRDEV : list byte :=
  _HURD ++ ["c"; "h"; "r"; "d"; "e"; "v"]%byte.
Definition _HURD_BLKDEV : list byte :=
  _HURD ++ ["b"; "l"; "k"; "d"; "e"; "v"]%byte.
Definition _HURD_FIFO : list byte := _HURD ++ ["f"; "i"; "f"; "o"]%byte.
Definition _HURD_IFSOCK : list byte :=
  _HURD ++ ["i"; "f"; "s"; "o"; "c"; "k"]%byte.

(** C strings inside a buffer. *)
Fixpoint strlen (buf : list byte) : nat :=
  match buf with
  | [] => 0
  | b :: rest => if Byte.eqb b x00 then 0 else S (strlen rest)
  end.

(** The string that starts at index [i] of [buf]. *)
Definition string_at (buf : list byte) (i : nat) : list byte :=
  take (strlen (drop i buf)) (drop i buf).

Fixpoint same_bytes (a b : list byte) : bool :=
  match a, b with
  | [], [] => true
  | x :: a', y :: b' => Byte.eqb x y && same_bytes a' b'
  | _, _ => false
  end.

(** [!strcmp (passive, name)] *)
Definition is_translator (buf name : list byte) : bool :=
  same_bytes (string_at buf 0) name.

(** The fields of [struct node] the function reads. *)
Record node : Type := mk_node {
  st_uid : Z;
  st_mode : Z;
  istranslated : Z
}.

Inductive call : Type :=
  | mutex_lock
  | mutex_unlock
  | netfs_interpret_credential (cred : Z)
  | netfs_validate_stat (cred : Z)
  | fshelp_fetch_control
  | fsys_goaway (control flags : Z)
  | fshelp_set_active (active excl : Z)
  | netfs_attempt_mkdev (cred mode major minor : Z)
  | netfs_attempt_mksymlink (cred : Z) (target : list byte)
  | netfs_attempt_chmod (cred mode : Z)
  | netfs_set_translator (cred : Z) (passive : option (list byte))
                         (passivelen : Z).

Record fs : Type := mk_fs {
  np : node;
  calls : list call
}.

(** The flag bits of <hurd/hurd_types.h> and the answers of the filesystem
    and of the libraries.  [netfs_validate_stat] may refresh the node. *)
Class Netfs : Type := {
  FS_TRANS_FORCE : Z;
  FS_TRANS_EXCL : Z;
  FS_TRANS_SET : Z;
  uids_of : Z -> list Z;
  validate_stat_reply : list call -> node -> Z * node;
  fetch_control_reply : list call -> Z * Z;
  goaway_reply : list call -> Z -> Z -> Z;
  set_active_reply : list call -> Z -> Z -> Z;
  mkdev_reply : list call -> Z -> Z -> Z -> Z;
  mksymlink_reply : list call -> list byte -> Z;
  chmod_reply : list call -> Z -> Z;
  set_translator_reply : list call -> option (list byte) -> Z;
  strtol : list byte -> Z
}.

(** How control leaves a block: it falls through, jumps to [out], returns,
    fails an assertion, or reads through an invalid pointer. *)
Inductive flow (A : Type) : Type :=
  | Next (a : A)
  | Goto_out (err : error_t)
  | Return (err : error_t)
  | Assert_fails
  | Undefined.

Arguments Next {A} a.
Arguments Goto_out {A} err.
Arguments Return {A} err.
Arguments Assert_fails {A}.
Arguments Undefined {A}.

Definition T (A : Type) : Type := fs -> flow A * fs.

Definition next {A} (a : A) : T A := fun s => (Next a, s).
Definition goto_out {A} (err : error_t) : T A := fun s => (Goto_out err, s).
Definition return_ {A} (err : error_t) : T A := fun s => (Return err, s).
Definition assert_fails {A} : T A := fun s => (Assert_fails, s).

Definition then_ {A B} (c : T A) (k : A -> T B) : T B :=
  fun s =>
    match c s with
    | (Next a, s') => k a s'
    | (Goto_out e, s') => (Goto_out e, s')
    | (Return e, s') => (Return e, s')
    | (Assert_fails, s') => (Assert_fails, s')
    | (Undefined, s') => (Undefined, s')
    end.

Declare Scope netfs_scope.
Delimit Scope netfs_scope with netfs.
Notation "x <- c ;; k" := (then_ c (fun x => k))
  (at level 100, c at next level, right associativity) : netfs_scope.
Notation "c ;; k" := (then_ c (fun _ => k))
  (at level 100, right associativity) : netfs_scope.

Definition perform (c : call) : T unit :=
  fun s => (Next tt, mk_fs (np s) (calls s ++ [c])).

Definition get_node : T node := fun s => (Next (np s), s).
Definition get_calls : T (list call) := fun s => (Next (calls s), s).

(** How the function ends. *)
Inductive outcome : Type :=
  | Returns (err : error_t)
  | Assertion_failed
  | Invalid_read.

(** The end of the function: a body that falls through or jumps to [out]
    releases the lock and returns [err]. *)
Definition finish (r : flow error_t * fs) : outcome * fs :=
  match r with
  | (Next err, s) => (Returns err, mk_fs (np s) (calls s ++ [mutex_unlock]))
  | (Goto_out err, s) => (Returns err, mk_fs (np s) (calls s ++ [mutex_unlock]))
  | (Return err, s) => (Returns err, s)
  | (Assert_fails, s) => (Assertion_failed, s)
  | (Undefined, s) => (Invalid_read, s)
  end.

Section Translator.

Context `{N : Netfs}.

Local Open Scope netfs_scope.

Definition validate_stat (cred : Z) : T error_t :=
  fun s =>
    let r := validate_stat_reply (calls s) (np s) in
    (Next r.1, mk_fs r.2 (calls s ++ [netfs_validate_stat cred])).

Definition fetch_control : T (error_t * Z) :=
  t <- get_calls ;;
  perform fshelp_fetch_control ;;
  next (fetch_control_reply t).

Definition goaway (control flags : Z) : T error_t :=
  t <- get_calls ;;
  perform (fsys_goaway control flags) ;;
  next (goaway_reply t control flags).

Definition set_active (active excl : Z) : T error_t :=
  t <- get_calls ;;
  perform (fshelp_set_active active excl) ;;
  next (set_active_reply t active excl).

Definition attempt_mkdev (cred mode major minor : Z) : T error_t :=
  t <- get_calls ;;
  perform (netfs_attempt_mkdev cred mode major minor) ;;
  next (mkdev_reply t mode major minor).

Definition attempt_mksymlink (cred : Z) (target : list byte) : T error_t :=
  t <- get_calls ;;
  perform (netfs_attempt_mksymlink cred target) ;;
  next (mksymlink_reply t target).

Definition attempt_chmod (cred mode : Z) : T error_t :=
  t <- get_calls ;;
  perform (netfs_attempt_chmod cred mode) ;;
  next (chmod_reply t mode).

Definition set_translator (cred : Z) (passive : option (list byte))
    (passivelen : Z) : T error_t :=
  t <- get_calls ;;
  perform (netfs_set_translator cred passive passivelen) ;;
  next (set_translator_reply t passive).

(** The [for] loop over the user's uids: the index at which it stops. *)
Fixpoint owner_index (uids : list Z) (owner : Z) (i : Z) : Z :=
  match uids with
  | [] => i
  | u :: rest =>
      if (u =? 0) || (u =? owner) then i
      else owner_index rest owner (i + 1)
  end.

(** First block: the active translator.  The user must be root or the owner;
    a running translator is told to go away unless FS_TRANS_EXCL is set. *)
Definition active_block (cred active_flags killtrans_flags : Z) : T unit :=
  if Z.land active_flags FS_TRANS_SET =? 0
  then next tt
  else
    perform (netfs_interpret_credential cred) ;;
    err <- validate_stat cred ;;
    if negb (err =? 0) then goto_out err
    else
      n <- get_node ;;
      let uids := uids_of cred in
      let nuids := Z.of_nat (length uids) in
      let i := owner_index uids (st_uid n) 0 in
      if i =? nuids
      then perform mutex_unlock ;; return_ EBUSY
      else
        r <- fetch_control ;;
        let err := r.1 in
        let control := r.2 in
        if negb (err =? 0) then goto_out err
        else if negb (control =? MACH_PORT_NULL)
                && (Z.land active_flags FS_TRANS_EXCL =? 0)
        then
          perform mutex_unlock ;;
          err <- goaway control killtrans_flags ;;
          if negb (err =? 0) && negb (err =? MIG_SERVER_DIED)
             && negb (err =? MACH_SEND_INVALID_DEST)
          then return_ err
          else perform mutex_lock
        else next tt.

(** Second block: with FS_TRANS_EXCL a passive translator is only set on a
    node that has none. *)
Definition exclusive_block (cred passive_flags : Z) : T unit :=
  if negb (Z.land passive_flags FS_TRANS_SET =? 0)
     && negb (Z.land passive_flags FS_TRANS_EXCL =? 0)
  then
    err <- validate_stat cred ;;
    n <- get_node ;;
    let err :=
      if (err =? 0) && negb (istranslated n =? 0) then EBUSY else err in
    if negb (err =? 0) then goto_out err else next tt
  else next tt.

(** Third block: install the active translator. *)
Definition install_active_block (active_flags active : Z) : T unit :=
  if negb (Z.land active_flags FS_TRANS_SET =? 0)
  then
    err <- set_active active (Z.land active_flags FS_TRANS_EXCL) ;;
    if negb (err =? 0) then goto_out err else next tt
  else next tt.

(** The mode of a short-circuited translator, 0 for any other. *)
Definition short_circuit_mode (buf : list byte) : Z :=
  if is_translator buf _HURD_SYMLINK then S_IFLNK
  else if is_translator buf _HURD_CHRDEV then S_IFCHR
  else if is_translator buf _HURD_BLKDEV then S_IFBLK
  else if is_translator buf _HURD_FIFO then S_IFIFO
  else if is_translator buf _HURD_IFSOCK then S_IFSOCK
  else 0.

(** [fallback:] and [case 0:] *)
Definition fallback (cred : Z) (passive : option (list byte))
    (passivelen : Z) : T error_t :=
  set_translator cred passive passivelen.

(** [if (err == EOPNOTSUPP) goto fallback; break;] *)
Definition or_fallback (cred : Z) (passive : option (list byte))
    (passivelen : Z) (err : error_t) : T error_t :=
  if err =? EOPNOTSUPP then fallback cred passive passivelen else next err.

(** The [switch] on the short-circuit mode; [buf] is the passive buffer. *)
Definition short_circuit (cred : Z) (buf : list byte) (newmode : Z)
  : T error_t :=
  let passive := Some buf in
  let passivelen := Z.of_nat (length buf) in
  if (newmode =? S_IFBLK) || (newmode =? S_IFCHR)
  then
    let arg := (strlen buf + 1)%nat in
    if negb (arg <=? length buf)%nat then assert_fails
    else if (arg =? length buf)%nat
    then perform mutex_unlock ;; return_ EINVAL
    else
      let major := Word.to_int (strtol (string_at buf arg)) in
      let arg := (arg + strlen (drop arg buf) + 1)%nat in
      if negb (arg <? length buf)%nat then assert_fails
      else if (arg =? length buf)%nat
      then perform mutex_unlock ;; return_ EINVAL
      else
        let minor := Word.to_int (strtol (string_at buf arg)) in
        err <- attempt_mkdev cred newmode major minor ;;
        or_fallback cred passive passivelen err
  else if newmode =? S_IFLNK
  then
    let arg := (strlen buf + 1)%nat in
    if negb (arg <=? length buf)%nat then assert_fails
    else if (arg =? length buf)%nat
    then perform mutex_unlock ;; return_ EINVAL
    else
      err <- attempt_mksymlink cred (string_at buf arg) ;;
      or_fallback cred passive passivelen err
  else if newmode =? 0
  then fallback cred passive passivelen
  else
    err <- validate_stat cred ;;
    n <- get_node ;;
    err <- (if err =? 0
            then attempt_chmod cred
                   (Z.lor (Z.land (st_mode n) (Z.lnot S_IFMT)) newmode)
            else next err) ;;
    or_fallback cred passive passivelen err.

(** Fourth block: install the passive translator.  [strcmp] on a null
    [passive] reads through an invalid pointer. *)
Definition passive_block (cred passive_flags : Z)
    (passive : option (list byte)) (passivelen : Z) : T error_t :=
  if negb (Z.land passive_flags FS_TRANS_SET =? 0)
  then
    if negb (Z.land passive_flags FS_TRANS_FORCE =? 0)
    then fallback cred passive passivelen
    else
      match passive with
      | None => fun s => (Undefined, s)
      | Some buf => short_circuit cred buf (short_circuit_mode buf)
      end
  else next 0.

(** [user] is the credential of the caller, [None] for a null [user];
    [passive] is the buffer of [passivelen] bytes, [None] for a null
    pointer. *)
Definition netfs_S_file_set_translator (user : option Z)
    (passive_flags active_flags killtrans_flags : Z)
    (passive : option (list byte)) (active : Z) (s : fs) : outcome * fs :=
  let passivelen := from_option (fun buf => Z.of_nat (length buf)) 0 passive in
  match user with
  | None => (Returns EOPNOTSUPP, s)
  | Some cred =>
      if (Z.land passive_flags FS_TRANS_SET =? 0)
         && (Z.land active_flags FS_TRANS_SET =? 0)
      then (Returns 0, s)
      else
        match passive with
        | Some [] => (Invalid_read, s)
        | Some buf =>
            if negb (Byte.eqb (List.last buf x00) x00)
            then (Returns EINVAL, s)
            else
              finish
                ((perform mutex_lock ;;
                  active_block cred active_flags killtrans_flags ;;
                  exclusive_block cred passive_flags ;;
                  install_active_block active_flags active ;;
                  passive_block cred passive_flags passive passivelen) s)
        | None =>
            finish
              ((perform mutex_lock ;;
                active_block cred active_flags killtrans_flags ;;
                exclusive_block cred passive_flags ;;
                install_active_block active_flags active ;;
                passive_block cred passive_flags passive passivelen) s)
        end
  end.

(** The passive buffer passes the check at the head of the function: it is
    null, or it is not empty and ends in a NUL. *)
Definition terminated (passive : option (list byte)) : Prop :=
  match passive with
  | None => True
  | Some buf => buf <> [] /\ List.last buf x00 = x00
  end.

(** Some translator is to be set. *)
Definition requested (passive_flags active_flags : Z) : Prop :=
  Z.land passive_flags FS_TRANS_SET <> 0 \/ Z.land active_flags FS_TRANS_SET <> 0.

End Translator.

(** The lock: how many more [mutex_lock] than [mutex_unlock] calls a history
    holds. *)
Definition lock_delta (c : call) : Z :=
  match c with
  | mutex_lock => 1
  | mutex_unlock => -1
  | _ => 0
  end.

Definition held (l : list call) : Z :=
  foldr (fun c n => lock_delta c + n) 0 l.

(** A block that changes the lock count by [dn] when it falls through, by
    [dg] when it jumps to [out] or stops, and by [dr] when it returns. *)
Definition moves {A} (dn dg dr : Z) (c : T A) : Prop :=
  forall s,
    match c s with
    | (Next _, s') => held (calls s') = held (calls s) + dn
    | (Return _, s') => held (calls s') = held (calls s) + dr
    | (_, s') => held (calls s') = held (calls s) + dg
    end.

(** A filesystem without short circuits: every attempt answers EOPNOTSUPP;
    the other calls answer the codes given.  The caller has uids 0 and 100, or
    only 100 when [root] is false; the node belongs to uid [owner]. *)
Definition sample_netfs (root : bool) (goaway_code set_code : Z) : Netfs := {|
  FS_TRANS_FORCE := 1;
  FS_TRANS_EXCL := 2;
  FS_TRANS_SET := 4;
  uids_of := fun _ => if root then [0; 100] else [100];
  validate_stat_reply := fun _ n => (0, n);
  fetch_control_reply := fun _ => (0, 55);
  goaway_reply := fun _ _ _ => goaway_code;
  set_active_reply := fun _ _ _ => 0;
  mkdev_reply := fun _ _ _ _ => EOPNOTSUPP;
  mksymlink_reply := fun _ _ => EOPNOTSUPP;
  chmod_reply := fun _ _ => EOPNOTSUPP;
  set_translator_reply := fun _ _ => set_code;
  strtol := fun _ => 7
|}.

(** A filesystem whose [netfs_attempt_mksymlink] answers [link_code] and
    whose [netfs_set_translator] answers [set_code]; the caller is root. *)
Definition linking_netfs (link_code set_code : Z) : Netfs := {|
  FS_TRANS_FORCE := 1;
  FS_TRANS_EXCL := 2;
  FS_TRANS_SET := 4;
  uids_of := fun _ => [0];
  validate_stat_reply := fun _ n => (0, n);
  fetch_control_reply := fun _ => (0, 55);
  goaway_reply := fun _ _ _ => 0;
  set_active_reply := fun _ _ _ => 0;
  mkdev_reply := fun _ _ _ _ => 0;
  mksymlink_reply := fun _ _ => link_code;
  chmod_reply := fun _ _ => 0;
  set_translator_reply := fun _ _ => set_code;
  strtol := fun _ => 7
|}.

(** A regular file of uid 200 without a translator. *)
Definition sample_node : fs := mk_fs (mk_node 200 33188 0) [].

(** "/hurd/symlink\0target\0" *)
Definition symlink_request : list byte :=
  _HURD_SYMLINK ++ [x00; "t"; "a"; "r"; "g"; "e"; "t"; x00]%byte.

(** "/hurd/chrdev\0" "5\0": a character device with a major number only. *)
Definition chrdev_major_only : list byte :=
  _HURD_CHRDEV ++ [x00; "5"; x00]%byte.

(** "/hurd/chrdev\0": no arguments. *)
Definition chrdev_bare : list byte := _HURD_CHRDEV ++ [x00]%byte.

(** "/hurd/chrdev\0" "5\0" "7\0": both numbers. *)
Definition chrdev_full : list byte :=
  _HURD_CHRDEV ++ [x00; "5"; x00; "7"; x00]%byte.

End SetTranslator.

(** ** Properties of the callbacks *)

(** Side conditions on a page request: the page size is a positive [int],
    the block size is a positive [int], the page starts inside the device,
    and the page does not end at the top of the address space (where
    [page + want] wraps to zero). *)
Record valid_request `{Collaborators} (d : dev) (page : Z) : Prop := {
  vr_page_size : 0 < vm_page_size < Word.int_max;
  vr_block_size : 0 < dev_block_size d < Word.int_max;
  vr_page : 0 <= page < size d;
  vr_size : size d < Word.modulus;
  vr_no_wrap : page + vm_page_size < Word.modulus
}.

(** The device allocates the region of a successful read in whole pages and
    the bytes it reports lie inside the region. *)
Definition allocated_in_pages `{Collaborators} (r : read_reply) : Prop :=
  rd_err r = 0 ->
  rd_count r <= Z.of_nat (length (rd_region r))
  /\ Z.of_nat (length (rd_region r)) mod vm_page_size = 0.

Definition read_only `{Collaborators} (d : dev) : Prop :=
  Z.land (flags d) DEV_READONLY <> 0.

(** The descriptor with its pager reference cleared. *)
Definition without_pager (d : dev) : dev :=
  mk_dev (port d) (flags d) None (pager_port_bucket d) (size d)
         (dev_block_size d) (io_state d).

(** The state in which a call waits in [io_state_lock]: the call is
    recorded, nothing else has changed. *)
Definition waiting (st : state) : state :=
  mk_state (st_dev st) (st_ports st) (st_trace st ++ [Ev_io_state_lock]).

(** The live endpoints of the device's Request Group. *)
Definition live_endpoints (st : state) : list pager_ptr :=
  bucket_ports (st_ports st) (pager_port_bucket (st_dev st)).

(** The heap after [pager_change_attributes] on every port of [l], and the
    calls this makes. *)
Definition change_all (cache copy : Z) (l : list pager_ptr) (h : ports) : ports :=
  mk_ports (foldl (fun m p => alter (set_attributes cache copy) p m) (pagers h) l)
           (buckets h).

Definition change_events (cache copy wait : Z) (l : list pager_ptr) : list event :=
  map (fun p => Ev_pager_change_attributes p cache copy wait) l.

(** The heap [dev_stop_paging] finds when it counts the endpoints again:
    caching was turned off on every endpoint live at the start, then the
    grace period went by. *)
Definition after_grace `{Collaborators} (st : state) : ports :=
  let l0 := live_endpoints st in
  grace_period
    ((st_trace st ++ [Ev_io_state_lock])
       ++ change_events 0 MEMORY_OBJECT_COPY_DELAY 1 l0)
    (change_all 0 MEMORY_OBJECT_COPY_DELAY l0 (st_ports st)).

(** The endpoints live when [dev_stop_paging] counts them again. *)
Definition remaining_endpoints `{Collaborators} (st : state) : list pager_ptr :=
  bucket_ports (after_grace st) (pager_port_bucket (st_dev st)).

(** The calls made between two states. *)
Definition events_since (st st' : state) : list event :=
  drop (length (st_trace st)) (st_trace st').

Definition is_pager_shutdown (e : event) : bool :=
  match e with Ev_pager_shutdown _ => true | _ => false end.

Definition is_pager_create (e : event) : bool :=
  match e with Ev_pager_create _ _ _ _ => true | _ => false end.

Definition is_create_bucket (e : event) : bool :=
  match e with Ev_ports_create_bucket _ => true | _ => false end.

Definition is_cthread_fork (e : event) : bool :=
  match e with Ev_cthread_fork _ => true | _ => false end.

Definition is_change_attributes (e : event) : bool :=
  match e with Ev_pager_change_attributes _ _ _ _ => true | _ => false end.

Definition count_events (f : event -> bool) (l : list event) : nat :=
  length (filter (fun e => f e = true) l).

(** ** The remaining callbacks and event classes *)

(** [pager_clear_user_data]: called when a pager is deallocated; the body is
    empty. *)
Definition pager_clear_user_data : M unit := ret tt.

(** [pager_dropweak]: the body is empty. *)
Definition pager_dropweak : M unit := ret tt.

Definition is_io_state_lock (e : event) : bool :=
  match e with Ev_io_state_lock => true | _ => false end.

Definition is_io_state_unlock (e : event) : bool :=
  match e with Ev_io_state_unlock => true | _ => false end.

Definition is_vm_deallocate (e : event) : bool :=
  match e with Ev_vm_deallocate _ _ => true | _ => false end.

Definition is_device_write (e : event) : bool :=
  match e with Ev_device_write _ _ _ _ _ => true | _ => false end.

Definition is_device_read (e : event) : bool :=
  match e with Ev_device_read _ _ _ _ => true | _ => false end.

Definition is_port_ref (e : event) : bool :=
  match e with Ev_ports_port_ref _ => true | _ => false end.

Definition is_port_deref (e : event) : bool :=
  match e with Ev_ports_port_deref _ => true | _ => false end.

Definition is_pager_created (e : event) : bool :=
  match e with Ev_pager_create _ _ _ (Some _) => true | _ => false end.

Definition is_insert_right (e : event) : bool :=
  match e with Ev_mach_port_insert_right _ _ _ => true | _ => false end.

(** The five runs of [dev_stop_paging] up to line 216 when it is entered
    with the lock free: the value of [success] and the state in which line
    218 is reached.  The lock is held in all of them. *)
Inductive stop_paging_run `{Collaborators} (st : state) (nosync : Z)
  : Z * state -> Prop :=
  | run_nosync :
      nosync <> 0 ->
      stop_paging_run st nosync
        (1, mk_state (with_lock true (without_pager (st_dev st))) (st_ports st)
              (st_trace st ++ [Ev_io_state_lock]))
  | run_no_pager :
      nosync = 0 -> pager (st_dev st) = None ->
      stop_paging_run st nosync
        (1, mk_state (with_lock true (without_pager (st_dev st))) (st_ports st)
              (st_trace st ++ [Ev_io_state_lock]))
  | run_quiet (pg : pager_ptr) :
      nosync = 0 -> pager (st_dev st) = Some pg -> live_endpoints st = [] ->
      stop_paging_run st nosync
        (1, mk_state (with_lock true (without_pager (st_dev st))) (st_ports st)
              (st_trace st ++ [Ev_io_state_lock; Ev_pager_shutdown pg]))
  | run_idle (pg : pager_ptr) :
      nosync = 0 -> pager (st_dev st) = Some pg -> live_endpoints st <> [] ->
      remaining_endpoints st = [] ->
      stop_paging_run st nosync
        (1, mk_state (with_lock true (without_pager (st_dev st))) (after_grace st)
              (st_trace st ++ [Ev_io_state_lock]
                 ++ change_events 0 MEMORY_OBJECT_COPY_DELAY 1 (live_endpoints st)
                 ++ [Ev_sleep 1; Ev_pager_shutdown pg]))
  | run_busy (pg : pager_ptr) :
      nosync = 0 -> pager (st_dev st) = Some pg -> live_endpoints st <> [] ->
      remaining_endpoints st <> [] ->
      stop_paging_run st nosync
        (0, mk_state (with_lock true (st_dev st))
              (change_all 1 MEMORY_OBJECT_COPY_DELAY (remaining_endpoints st)
                          (after_grace st))
              (st_trace st ++ [Ev_io_state_lock]
                 ++ change_events 0 MEMORY_OBJECT_COPY_DELAY 1 (live_endpoints st)
                 ++ [Ev_sleep 1]
                 ++ change_events 1 MEMORY_OBJECT_COPY_DELAY 0
                      (remaining_endpoints st))).

(** Side conditions on a page request at the top of the address space: the
    block size is a positive [int], the page starts inside the device and
    [page + vm_page_size] does not fit the machine word. *)
Record top_request `{Collaborators} (d : dev) (page : Z) : Prop := {
  tr_page_size : 0 < vm_page_size < Word.int_max;
  tr_block_size : 0 < dev_block_size d < Word.int_max;
  tr_page : 0 <= page < size d;
  tr_size : size d < Word.modulus;
  tr_wrap : Word.modulus <= page + vm_page_size
}.

Section Callbacks.

Context `{C : Collaborators}.

Ltac run :=
  unfold pager_read_page, pager_write_page, pager_unlock_page,
    pager_report_extent, device_read, device_write, vm_deallocate,
    eval, bind, ret, trap, get_dev, get_trace, emit; simpl.

Lemma to_uint_small z : 0 <= z < Word.modulus -> Word.to_uint z = z.
Proof. intros. unfold Word.to_uint. apply Z.mod_small. assumption. Qed.

Lemma to_int_small z : 0 <= z < Word.int_max -> Word.to_int z = z.
Proof.
  intros. unfold Word.to_int. rewrite Z.mod_small; unfold Word.int_max, Word.modulus in *; lia.
Qed.

Lemma transfer_size_min d page :
  valid_request d page ->
  transfer_size d page = Z.min vm_page_size (size d - page).
Proof.
  intros [Hp Hb Hpg Hs Hw]. unfold transfer_size.
  assert (Hm : Word.int_max < Word.modulus) by reflexivity.
  rewrite (to_int_small vm_page_size) by lia.
  rewrite (to_uint_small vm_page_size) by lia.
  rewrite (to_uint_small (page + vm_page_size)) by lia.
  destruct (Z.gtb_spec (page + vm_page_size) (size d)) as [Hgt | Hle].
  - rewrite to_uint_small by lia. rewrite to_int_small by lia. lia.
  - lia.
Qed.

(** The division has a value exactly when the block size is not zero. *)
Lemma block_index_some d page :
  Word.to_uint (dev_block_size d) <> 0 ->
  block_index d page = Some (page / Word.to_uint (dev_block_size d)).
Proof.
  intros Hb. unfold block_index.
  destruct (Z.eqb_spec (Word.to_uint (dev_block_size d)) 0); [contradiction | reflexivity].
Qed.

Lemma block_index_none d page :
  Word.to_uint (dev_block_size d) = 0 -> block_index d page = None.
Proof. intros Hb. unfold block_index. rewrite Hb. reflexivity. Qed.

Lemma block_index_positive d page :
  0 < dev_block_size d < Word.int_max ->
  block_index d page = Some (page / dev_block_size d).
Proof.
  intros Hb.
  assert (Hm : Word.int_max < Word.modulus) by reflexivity.
  rewrite block_index_some; rewrite to_uint_small by lia; [reflexivity | lia].
Qed.

Lemma block_index_div d page :
  valid_request d page -> block_index d page = Some (page / dev_block_size d).
Proof. intros [Hp Hb Hpg Hs Hw]. apply block_index_positive. exact Hb. Qed.

Lemma page_at_bzero (region : list byte) (n : Z) :
  0 <= n <= vm_page_size ->
  vm_page_size <= Z.of_nat (length region) ->
  page_at (bzero region n (vm_page_size - n))
  = take (Z.to_nat n) region ++ replicate (Z.to_nat (vm_page_size - n)) x00.
Proof.
  intros Hn Hlen. unfold page_at, bzero.
  rewrite app_assoc. apply take_app_length'.
  rewrite length_app, length_replicate, length_take_le by lia. lia.
Qed.

Lemma pager_write_page_readonly st page buf :
  read_only (st_dev st) -> pager_write_page page buf st = (Done EROFS, st).
Proof.
  unfold read_only. intros Hro. run.
  destruct (Z.eqb_spec (Z.land (flags (st_dev st)) DEV_READONLY) 0); [contradiction | reflexivity].
Qed.

Lemma pager_write_page_run st page buf blk :
  ~ read_only (st_dev st) ->
  block_index (st_dev st) page = Some blk ->
  let d := st_dev st in
  let want := transfer_size d page in
  let reply := device_write_reply (st_trace st) (port d) 0 blk buf want in
  pager_write_page page buf st
  = (Done (if negb (wr_err reply =? 0) || (wr_count reply <? want) then EIO else 0),
     mk_state d (st_ports st)
       ((st_trace st ++ [Ev_device_write (port d) 0 blk buf want])
          ++ [Ev_vm_deallocate buf vm_page_size])).
Proof.
  unfold read_only. intros Hrw Hblk. run.
  destruct (Z.eqb_spec (Z.land (flags (st_dev st)) DEV_READONLY) 0) as [_ | Hne];
    [| exfalso; apply Hrw; exact Hne].
  simpl. rewrite Hblk. simpl.
  destruct (negb _ || _); reflexivity.
Qed.

(** On a writable device with a zero block size the division stops the call
    before the device is called. *)
Lemma pager_write_page_trap st page buf :
  ~ read_only (st_dev st) ->
  block_index (st_dev st) page = None ->
  pager_write_page page buf st = (Trapped, st).
Proof.
  unfold read_only. intros Hrw Hblk. run.
  destruct (Z.eqb_spec (Z.land (flags (st_dev st)) DEV_READONLY) 0) as [_ | Hne];
    [| exfalso; apply Hrw; exact Hne].
  simpl. rewrite Hblk. reflexivity.
Qed.

Lemma pager_read_page_run st page blk :
  block_index (st_dev st) page = Some blk ->
  let d := st_dev st in
  let want := transfer_size d page in
  let reply := device_read_reply (st_trace st) (port d) 0 blk want in
  pager_read_page page st
  = (Done (if negb (rd_err reply =? 0) || (rd_count reply <? want) then EIO else 0,
           if (rd_err reply =? 0) && (Word.to_uint want <? vm_page_size)
           then bzero (rd_region reply) want (Word.to_uint (vm_page_size - want))
           else rd_region reply,
           Z.land (flags d) DEV_READONLY),
     mk_state d (st_ports st)
       (st_trace st ++ [Ev_device_read (port d) 0 blk want])).
Proof.
  intros Hblk. run. rewrite Hblk. simpl. destruct (negb _ || _); reflexivity.
Qed.

Lemma pager_read_page_trap st page :
  block_index (st_dev st) page = None ->
  pager_read_page page st = (Trapped, st).
Proof. intros Hblk. run. rewrite Hblk. reflexivity. Qed.

(** C3 (as amended): on a writable device, for a page that starts inside the
    device and does not end at the top of the address space, [pager_write_page]
    issues exactly one device write, of [min (vm_page_size, size - page)]
    bytes at block [page / dev_block_size], then releases the buffer, and it
    returns EIO if and only if the device returned an error or reported
    fewer bytes written than requested; otherwise it returns 0. *)
Theorem pager_write_page_writable (st : state) (page buf : Z) :
  let d := st_dev st in
  let n := Z.min vm_page_size (size d - page) in
  let blk := page / dev_block_size d in
  let reply := device_write_reply (st_trace st) (port d) 0 blk buf n in
  ~ read_only d ->
  valid_request d page ->
  st_trace (pager_write_page page buf st).2
    = st_trace st ++ [Ev_device_write (port d) 0 blk buf n;
                      Ev_vm_deallocate buf vm_page_size]
  /\ ((pager_write_page page buf st).1 = Done EIO
      <-> wr_err reply <> 0 \/ wr_count reply < n)
  /\ ((pager_write_page page buf st).1 = Done 0
      <-> wr_err reply = 0 /\ n <= wr_count reply).
Proof.
  intros d n blk reply Hrw Hv.
  rewrite (pager_write_page_run st page buf _ Hrw (block_index_div _ _ Hv)). simpl.
  rewrite (transfer_size_min (st_dev st) page Hv).
  fold d. fold n. fold blk. fold reply.
  split; [rewrite <- app_assoc; reflexivity |].
  destruct (Z.eqb_spec (wr_err reply) 0) as [He | He];
    destruct (Z.ltb_spec (wr_count reply) n) as [Hl | Hl]; simpl;
    (split; split; intros H; try discriminate H; try reflexivity; try lia).
Qed.

(** A successful read away from the top of the address space.  For a page
    that starts inside the device and does not end at the top of the address
    space, a successful [pager_read_page] has asked the device for [min
    (vm_page_size, size - page)] bytes at block [page / dev_block_size]; the
    page at [*buf] is a full page whose first [min (vm_page_size, size -
    page)] bytes are the bytes the device returned and whose remaining bytes
    are zero; and [*writelock] is the device's read-only flag. *)
Lemma pager_read_page_success (st : state) (page : Z)
    (buf : list byte) (writelock : Z) (st' : state) :
  let d := st_dev st in
  let n := Z.min vm_page_size (size d - page) in
  let blk := page / dev_block_size d in
  let reply := device_read_reply (st_trace st) (port d) 0 blk n in
  valid_request d page ->
  allocated_in_pages reply ->
  pager_read_page page st = (Done (0, buf, writelock), st') ->
  st_trace st' = st_trace st ++ [Ev_device_read (port d) 0 blk n]
  /\ n <= rd_count reply
  /\ Z.of_nat (length (page_at buf)) = vm_page_size
  /\ take (Z.to_nat n) (page_at buf) = take (Z.to_nat n) (rd_region reply)
  /\ (forall i : nat, n <= Z.of_nat i < vm_page_size ->
        page_at buf !! i = Some x00)
  /\ writelock = Z.land (flags d) DEV_READONLY.
Proof.
  intros d n blk reply Hv Halloc.
  rewrite (pager_read_page_run st page _ (block_index_div _ _ Hv)). simpl.
  rewrite (transfer_size_min (st_dev st) page Hv).
  fold d. fold n. fold blk. fold reply.
  pose proof Hv as [Hp Hb Hpg Hs Hw].
  assert (Hm : Word.int_max < Word.modulus) by reflexivity.
  assert (Hn : 0 < n <= vm_page_size) by (unfold n; fold d in Hpg; lia).
  destruct (Z.eqb_spec (rd_err reply) 0) as [He | He]; simpl; [| discriminate].
  destruct (Z.ltb_spec (rd_count reply) n) as [Hl | Hl]; [discriminate |].
  intros Heq. injection Heq as Hbuf Hwl Hst. subst st' writelock.
  destruct (Halloc He) as [Hcount Hmod].
  assert (Hlen : vm_page_size <= Z.of_nat (length (rd_region reply))).
  { apply Z.mod_divide in Hmod; [| lia]. destruct Hmod as [k Hk].
    assert (0 < k * vm_page_size) by lia.
    assert (0 < k) by nia. nia. }
  split; [reflexivity |]. split; [exact Hl |].
  rewrite (to_uint_small n) in Hbuf by lia.
  destruct (Z.ltb_spec n vm_page_size) as [Hlt | Hge].
  - rewrite to_uint_small in Hbuf by lia. subst buf.
    rewrite page_at_bzero by lia.
    repeat split.
    + rewrite length_app, length_replicate, length_take_le by lia. lia.
    + rewrite take_app_length'; [reflexivity |].
      rewrite length_take_le by lia. reflexivity.
    + intros i Hi. rewrite lookup_app_r; rewrite length_take_le by lia; [| lia].
      apply lookup_replicate_2. lia.
  - subst buf. assert (n = vm_page_size) as Hnp by lia.
    repeat split.
    + unfold page_at. rewrite length_take_le by lia. lia.
    + unfold page_at. rewrite Hnp, take_take. f_equal. lia.
    + intros i Hi. lia.
Qed.

(** C7: whatever error code the device returns from a read or a write, the
    error surfaced by [pager_read_page] or [pager_write_page] is EIO, one of
    the three permitted kinds (EIO, EDQUOT, ENOSPC); every error
    [pager_read_page] returns is permitted, and the only other error
    [pager_write_page] returns is EROFS, raised for a read-only device before
    any device call.  Both functions return whenever the device is called;
    where the block size is zero the division stops them before the call, and
    no value crosses the boundary. *)
Theorem page_io_error_vocabulary (st : state) (page buf : Z) :
  let d := st_dev st in
  let want := transfer_size d page in
  match block_index d page with
  | Some blk =>
      (exists (rerr : error_t) (rbuf : list byte) (writelock : Z),
         (pager_read_page page st).1 = Done (rerr, rbuf, writelock)
         /\ (rd_err (device_read_reply (st_trace st) (port d) 0 blk want) <> 0 ->
             rerr = EIO /\ permitted_error rerr)
         /\ (rerr = 0 \/ permitted_error rerr))
      /\ (~ read_only d ->
          exists werr : error_t,
            (pager_write_page page buf st).1 = Done werr
            /\ (wr_err (device_write_reply (st_trace st) (port d) 0 blk buf want)
                  <> 0 ->
                werr = EIO /\ permitted_error werr)
            /\ (werr = 0 \/ permitted_error werr))
  | None =>
      (pager_read_page page st).1 = Trapped
      /\ (~ read_only d -> (pager_write_page page buf st).1 = Trapped)
  end
  /\ (read_only d ->
      (pager_write_page page buf st).1 = Done EROFS
      /\ st_trace (pager_write_page page buf st).2 = st_trace st).
Proof.
  intros d want. unfold permitted_error.
  split.
  - destruct (block_index d page) as [blk |] eqn:Hblk.
    + split.
      * rewrite (pager_read_page_run st page blk Hblk). cbn [fst]. fold d want.
        eexists; eexists; eexists. split; [reflexivity |]. split.
        -- intros He.
           destruct (Z.eqb_spec (rd_err (device_read_reply (st_trace st) (port d) 0 blk want)) 0);
             [contradiction |]. simpl. auto.
        -- destruct (negb _ || _); auto.
      * intros Hrw. rewrite (pager_write_page_run st page buf blk Hrw Hblk).
        cbn [fst]. fold d want.
        eexists. split; [reflexivity |]. split.
        -- intros He.
           destruct (Z.eqb_spec (wr_err (device_write_reply (st_trace st) (port d) 0 blk buf want)) 0);
             [contradiction |]. simpl. auto.
        -- destruct (negb _ || _); auto.
    + split.
      * rewrite (pager_read_page_trap st page Hblk). reflexivity.
      * intros Hrw. rewrite (pager_write_page_trap st page buf Hrw Hblk). reflexivity.
  - intros Hro. rewrite (pager_write_page_readonly st page buf Hro). auto.
Qed.

(** C10: [pager_read_page], [pager_write_page], [pager_unlock_page] and
    [pager_report_extent] leave the device descriptor as they found it, on
    every path: port, flags, pager, port bucket, size and block size are
    unchanged (and so are the lock and the heap of ports and pagers). *)
Theorem page_callbacks_preserve_dev (st : state) (page buf address : Z) :
  (st_dev (pager_read_page page st).2 = st_dev st
   /\ st_ports (pager_read_page page st).2 = st_ports st)
  /\ (st_dev (pager_write_page page buf st).2 = st_dev st
      /\ st_ports (pager_write_page page buf st).2 = st_ports st)
  /\ (st_dev (pager_unlock_page address st).2 = st_dev st
      /\ st_ports (pager_unlock_page address st).2 = st_ports st)
  /\ (st_dev (pager_report_extent st).2 = st_dev st
      /\ st_ports (pager_report_extent st).2 = st_ports st).
Proof.
  split; [| split; [| split]].
  - destruct (block_index (st_dev st) page) as [blk |] eqn:Hblk.
    + rewrite (pager_read_page_run st page blk Hblk). split; reflexivity.
    + rewrite (pager_read_page_trap st page Hblk). split; reflexivity.
  - run. destruct (negb (Z.land _ _ =? 0)); simpl; [split; reflexivity |].
    destruct (block_index (st_dev st) page); simpl; [| split; reflexivity].
    destruct (negb _ || _); split; reflexivity.
  - run. destruct (negb _); split; reflexivity.
  - run. split; reflexivity.
Qed.

End Callbacks.

(** ** Properties of the paging lifecycle *)

Section Lifecycle.

Context `{C : Collaborators}.

Ltac run :=
  unfold dev_stop_paging, stop_paging_attempt, dev_get_memory_object,
    init_dev_paging, when,
    ports_count_bucket, ports_bucket_iterate, sleep, pager_shutdown,
    pager_create, ports_port_ref, ports_port_deref, pager_get_port,
    mach_port_insert_right, ports_create_bucket, cthread_fork_detached,
    io_state_lock, io_state_unlock, set_io_state, set_pager,
    set_pager_port_bucket, block,
    bind, ret, get_dev, get_ports, get_trace, put_ports, emit; simpl.

Lemma iterate_change_attributes (cache copy wait : Z) (l : list pager_ptr) :
  forall st : state,
    iterate_ports
      (fun p => bind (pager_change_attributes p cache copy wait) (fun _ => ret 0))
      l st
    = (Done 0, mk_state (st_dev st) (change_all cache copy l (st_ports st))
                        (st_trace st ++ change_events cache copy wait l)).
Proof.
  induction l as [| p l IH]; intros st.
  - unfold change_all, change_events, ret. simpl. rewrite app_nil_r.
    destruct st as [d [ps bs] t]. reflexivity.
  - simpl. unfold bind at 1. unfold bind at 1.
    unfold pager_change_attributes at 1. unfold bind, get_ports, put_ports, emit, ret.
    simpl. unfold bind in IH. rewrite IH. simpl.
    unfold change_all, change_events. simpl. rewrite <- app_assoc. reflexivity.
Qed.

Lemma change_all_lookup (cache copy : Z) (l : list pager_ptr) (p : pager_ptr) :
  forall h : ports,
    pagers (change_all cache copy l h) !! p
    = if decide (p ∈ l) then set_attributes cache copy <$> pagers h !! p
      else pagers h !! p.
Proof.
  unfold change_all. simpl. induction l as [| q l IH]; intros h.
  - simpl. destruct (decide (p ∈ [])) as [Hin | _]; [| reflexivity].
    apply elem_of_nil in Hin. contradiction.
  - simpl. specialize (IH (mk_ports (alter (set_attributes cache copy) q (pagers h)) (buckets h))).
    simpl in IH. rewrite IH. rewrite lookup_alter.
    destruct (decide (p ∈ l)) as [Hl | Hl];
      destruct (decide (q = p)) as [-> | Hq];
      destruct (decide (_ ∈ _ :: l)) as [Hc | Hc];
      try reflexivity.
    + destruct (pagers h !! p); reflexivity.
    + exfalso. apply Hc. apply elem_of_cons. auto.
    + exfalso. apply Hc. apply elem_of_cons. auto.
    + exfalso. apply Hc. apply elem_of_cons. auto.
    + apply elem_of_cons in Hc as [-> | Hc]; contradiction.
Qed.

Lemma iterate_block_cache l st :
  iterate_ports block_cache l st
  = (Done 0, mk_state (st_dev st)
                 (change_all 0 MEMORY_OBJECT_COPY_DELAY l (st_ports st))
                 (st_trace st ++ change_events 0 MEMORY_OBJECT_COPY_DELAY 1 l)).
Proof. apply iterate_change_attributes. Qed.

Lemma iterate_enable_cache l st :
  iterate_ports enable_cache l st
  = (Done 0, mk_state (st_dev st)
                 (change_all 1 MEMORY_OBJECT_COPY_DELAY l (st_ports st))
                 (st_trace st ++ change_events 1 MEMORY_OBJECT_COPY_DELAY 0 l)).
Proof. apply iterate_change_attributes. Qed.

Lemma count_positive {A} (l : list A) :
  l <> [] -> (Z.of_nat (length l) >? 0) = true.
Proof. destruct l; [congruence | reflexivity]. Qed.

Lemma events_since_app st st' evs :
  st_trace st' = st_trace st ++ evs -> events_since st st' = evs.
Proof. unfold events_since. intros ->. apply drop_app_length. Qed.

Lemma count_events_app f l1 l2 :
  count_events f (l1 ++ l2) = (count_events f l1 + count_events f l2)%nat.
Proof. unfold count_events. rewrite filter_app, length_app. reflexivity. Qed.

Lemma count_events_change f cache copy wait l :
  (forall p, f (Ev_pager_change_attributes p cache copy wait) = false) ->
  count_events f (change_events cache copy wait l) = 0%nat.
Proof.
  intros Hf. unfold count_events, change_events.
  induction l as [| p l IH]; [reflexivity |].
  simpl. rewrite filter_cons_False; [exact IH |].
  rewrite Hf. discriminate.
Qed.

(** *** The lock *)

Lemma io_state_lock_free (st : state) :
  io_state (st_dev st) = false ->
  io_state_lock st
  = (Done tt, mk_state (with_lock true (st_dev st)) (st_ports st)
                (st_trace st ++ [Ev_io_state_lock])).
Proof. intros Hfree. run. rewrite Hfree. reflexivity. Qed.

Lemma io_state_lock_held (st : state) :
  io_state (st_dev st) = true -> io_state_lock st = (Blocked, waiting st).
Proof. intros Hheld. run. rewrite Hheld. reflexivity. Qed.

(** *** The runs of [dev_stop_paging] *)

(** Entered with the lock held, the function waits at line 169. *)
Lemma stop_paging_attempt_held (st : state) (nosync : Z) :
  io_state (st_dev st) = true ->
  stop_paging_attempt nosync st = (Blocked, waiting st).
Proof.
  intros Hheld. unfold stop_paging_attempt. unfold bind at 1.
  rewrite (io_state_lock_held st Hheld). reflexivity.
Qed.

Lemma dev_stop_paging_held (st : state) (nosync : Z) :
  io_state (st_dev st) = true ->
  dev_stop_paging nosync st = (Blocked, waiting st).
Proof.
  intros Hheld. unfold dev_stop_paging. unfold bind at 1.
  rewrite (stop_paging_attempt_held st nosync Hheld). reflexivity.
Qed.

(** When line 218 is reached with the lock held, the function waits
    there. *)
Lemma dev_stop_paging_relock (st st1 : state) (nosync success : Z) :
  stop_paging_attempt nosync st = (Done success, st1) ->
  io_state (st_dev st1) = true ->
  dev_stop_paging nosync st = (Blocked, waiting st1).
Proof.
  intros Hrun Hheld. unfold dev_stop_paging. unfold bind at 1.
  rewrite Hrun. unfold bind at 1.
  rewrite (io_state_lock_held st1 Hheld). reflexivity.
Qed.

Lemma stop_paging_attempt_nosync (st : state) (nosync : Z) :
  nosync <> 0 ->
  io_state (st_dev st) = false ->
  stop_paging_attempt nosync st
  = (Done 1, mk_state (with_lock true (without_pager (st_dev st))) (st_ports st)
               (st_trace st ++ [Ev_io_state_lock])).
Proof.
  intros Hn Hfree.
  destruct nosync as [| n | n]; [contradiction | |];
    run; rewrite Hfree; simpl; destruct (pager (st_dev st)); simpl;
    rewrite ?andb_false_r; simpl; reflexivity.
Qed.

Lemma stop_paging_attempt_no_pager (st : state) (nosync : Z) :
  pager (st_dev st) = None ->
  io_state (st_dev st) = false ->
  stop_paging_attempt nosync st
  = (Done 1, mk_state (with_lock true (without_pager (st_dev st))) (st_ports st)
               (st_trace st ++ [Ev_io_state_lock])).
Proof.
  intros Hpg Hfree. run. rewrite Hfree. simpl. rewrite Hpg. simpl.
  reflexivity.
Qed.

Lemma stop_paging_attempt_quiet (st : state) (pg : pager_ptr) :
  pager (st_dev st) = Some pg ->
  live_endpoints st = [] ->
  io_state (st_dev st) = false ->
  stop_paging_attempt 0 st
  = (Done 1, mk_state (with_lock true (without_pager (st_dev st))) (st_ports st)
               (st_trace st ++ [Ev_io_state_lock; Ev_pager_shutdown pg])).
Proof.
  unfold live_endpoints. intros Hpg Hlive Hfree. run.
  rewrite Hfree. simpl. rewrite Hpg. simpl. rewrite Hlive. simpl.
  repeat rewrite <- app_assoc. reflexivity.
Qed.

(** When endpoints are live at the start and all of them have gone by the end
    of the grace period, [dev_stop_paging] goes on to shut the pager down. *)
Lemma stop_paging_attempt_idle (st : state) (pg : pager_ptr) :
  pager (st_dev st) = Some pg ->
  live_endpoints st <> [] ->
  remaining_endpoints st = [] ->
  io_state (st_dev st) = false ->
  stop_paging_attempt 0 st
  = (Done 1, mk_state (with_lock true (without_pager (st_dev st))) (after_grace st)
               (st_trace st ++ [Ev_io_state_lock]
                  ++ change_events 0 MEMORY_OBJECT_COPY_DELAY 1 (live_endpoints st)
                  ++ [Ev_sleep 1; Ev_pager_shutdown pg])).
Proof.
  unfold remaining_endpoints, after_grace, live_endpoints.
  intros Hpg Hlive Hrem Hfree. run.
  rewrite Hfree. simpl. rewrite Hpg. simpl. rewrite (count_positive _ Hlive). simpl.
  rewrite iterate_block_cache. simpl.
  rewrite Hrem. simpl.
  repeat rewrite <- app_assoc. reflexivity.
Qed.

(** The run when endpoints are still live after the grace period. *)
Lemma stop_paging_attempt_busy (st : state) (pg : pager_ptr) :
  pager (st_dev st) = Some pg ->
  live_endpoints st <> [] ->
  remaining_endpoints st <> [] ->
  io_state (st_dev st) = false ->
  stop_paging_attempt 0 st
  = (Done 0, mk_state (with_lock true (st_dev st))
               (change_all 1 MEMORY_OBJECT_COPY_DELAY (remaining_endpoints st)
                           (after_grace st))
               (st_trace st ++ [Ev_io_state_lock]
                  ++ change_events 0 MEMORY_OBJECT_COPY_DELAY 1 (live_endpoints st)
                  ++ [Ev_sleep 1]
                  ++ change_events 1 MEMORY_OBJECT_COPY_DELAY 0
                       (remaining_endpoints st))).
Proof.
  unfold remaining_endpoints, after_grace, live_endpoints.
  intros Hpg Hlive Hrem Hfree. run.
  rewrite Hfree. simpl. rewrite Hpg. simpl. rewrite (count_positive _ Hlive). simpl.
  rewrite iterate_block_cache. simpl.
  rewrite (count_positive _ Hrem).
  rewrite iterate_enable_cache. simpl.
  repeat rewrite <- app_assoc. reflexivity.
Qed.

Lemma stop_paging_run_locked (st st1 : state) (nosync success : Z) :
  stop_paging_run st nosync (success, st1) -> io_state (st_dev st1) = true.
Proof. intros Hrun. inversion Hrun; reflexivity. Qed.

(** Entered with the lock free, [dev_stop_paging] reaches line 218 in one of
    the five runs, with the lock held, and waits there. *)
Lemma dev_stop_paging_runs (st : state) (nosync : Z) :
  io_state (st_dev st) = false ->
  exists (success : Z) (st1 : state),
    stop_paging_run st nosync (success, st1)
    /\ stop_paging_attempt nosync st = (Done success, st1)
    /\ dev_stop_paging nosync st = (Blocked, waiting st1).
Proof.
  intros Hfree.
  assert (Hattempt : exists (success : Z) (st1 : state),
             stop_paging_run st nosync (success, st1)
             /\ stop_paging_attempt nosync st = (Done success, st1)).
  { destruct (Z.eq_dec nosync 0) as [Hz | Hnz].
    - destruct (pager (st_dev st)) as [pg |] eqn:Hpg.
      + destruct (decide (live_endpoints st = [])) as [Hlive | Hlive].
        * subst nosync. eexists; eexists. split; [apply (run_quiet st 0 pg); auto |].
          apply stop_paging_attempt_quiet; assumption.
        * destruct (decide (remaining_endpoints st = [])) as [Hrem | Hrem]; subst nosync.
          -- eexists; eexists. split; [apply (run_idle st 0 pg); auto |].
             apply stop_paging_attempt_idle; assumption.
          -- eexists; eexists. split; [apply (run_busy st 0 pg); auto |].
             apply (stop_paging_attempt_busy st pg); assumption.
      + eexists; eexists. split; [apply run_no_pager; assumption |].
        apply stop_paging_attempt_no_pager; assumption.
    - eexists; eexists. split; [apply run_nosync; assumption |].
      apply stop_paging_attempt_nosync; assumption. }
  destruct Hattempt as (success & st1 & Hrun & Heq).
  exists success, st1. split; [exact Hrun |]. split; [exact Heq |].
  apply (dev_stop_paging_relock st st1 nosync success Heq).
  apply (stop_paging_run_locked st st1 nosync success Hrun).
Qed.

(** C2 (as amended): with [nosync] set, [dev_stop_paging] calls neither
    [pager_shutdown] nor [pager_change_attributes] and leaves the ports and
    pagers as they are, on every state; and once it has the descriptor's
    lock (it is entered with the lock free), it reaches line 218 with
    [success] set and with the descriptor's pager reference cleared whatever
    the number of live endpoints it counted, the only calls it records being
    the two on the descriptor's lock. *)
Theorem dev_stop_paging_nosync (st : state) (nosync : Z) :
  nosync <> 0 ->
  count_events is_pager_shutdown
    (events_since st (dev_stop_paging nosync st).2) = 0%nat
  /\ count_events is_change_attributes
       (events_since st (dev_stop_paging nosync st).2) = 0%nat
  /\ st_ports (dev_stop_paging nosync st).2 = st_ports st
  /\ (io_state (st_dev st) = false ->
      (stop_paging_attempt nosync st).1 = Done 1
      /\ pager (st_dev (dev_stop_paging nosync st).2) = None
      /\ st_dev (dev_stop_paging nosync st).2
         = with_lock true (without_pager (st_dev st))
      /\ st_trace (dev_stop_paging nosync st).2
         = st_trace st ++ [Ev_io_state_lock; Ev_io_state_lock]).
Proof.
  intros Hn. destruct (io_state (st_dev st)) eqn:Hlock.
  - rewrite (dev_stop_paging_held st nosync Hlock). unfold waiting.
    cbn [snd st_ports].
    erewrite events_since_app by (cbn [st_trace]; reflexivity).
    split; [reflexivity |]. split; [reflexivity |].
    split; [reflexivity | intros H; discriminate H].
  - pose proof (stop_paging_attempt_nosync st nosync Hn Hlock) as Hattempt.
    rewrite (dev_stop_paging_relock _ _ _ _ Hattempt eq_refl), Hattempt.
    unfold waiting. cbn [fst snd st_dev st_ports st_trace].
    erewrite events_since_app by (cbn [st_trace]; rewrite <- app_assoc; reflexivity).
    split; [reflexivity |]. split; [reflexivity |]. split; [reflexivity |].
    intros _. split; [reflexivity |]. split; [reflexivity |].
    split; [reflexivity |]. rewrite <- app_assoc. reflexivity.
Qed.

(** C6: when the device has a pager and its bucket has no live port,
    [dev_stop_paging] without [nosync], entered with the lock free, shuts the
    pager down and clears the descriptor's pager reference with [success]
    set, but it does not return success: at line 218 it takes the lock it
    holds since line 169 a second time and waits there. *)
Theorem dev_stop_paging_no_endpoints (st : state) (pg : pager_ptr) :
  io_state (st_dev st) = false ->
  pager (st_dev st) = Some pg ->
  live_endpoints st = [] ->
  (dev_stop_paging 0 st).1 = Blocked
  /\ (stop_paging_attempt 0 st).1 = Done 1
  /\ pager (st_dev (dev_stop_paging 0 st).2) = None
  /\ st_dev (dev_stop_paging 0 st).2 = with_lock true (without_pager (st_dev st))
  /\ st_trace (dev_stop_paging 0 st).2
     = st_trace st ++ [Ev_io_state_lock; Ev_pager_shutdown pg; Ev_io_state_lock].
Proof.
  intros Hfree Hpg Hlive.
  pose proof (stop_paging_attempt_quiet st pg Hpg Hlive Hfree) as Hattempt.
  rewrite (dev_stop_paging_relock _ _ _ _ Hattempt eq_refl), Hattempt.
  unfold waiting. cbn [fst snd st_dev st_ports st_trace].
  repeat split. rewrite <- app_assoc. reflexivity.
Qed.

(** C5: when the device has a pager, endpoints are live at the start and at
    least one is still live when they are counted again after the grace
    period, [dev_stop_paging] without [nosync], entered with the lock free,
    clears [success], leaves the descriptor's non-null pager reference as it
    is, does not call [pager_shutdown], and has turned caching back on
    (may_cache = 1, copy strategy MEMORY_OBJECT_COPY_DELAY) on every endpoint
    still in the bucket.  It does not return failure: at line 218 it takes the
    lock it holds a second time and waits there.  And an endpoint that is no
    longer in the bucket, among them every endpoint it had switched that left
    the bucket during the grace period, is left as the grace period left
    it. *)
Theorem dev_stop_paging_busy (st : state) (pg : pager_ptr) :
  io_state (st_dev st) = false ->
  pager (st_dev st) = Some pg ->
  live_endpoints st <> [] ->
  remaining_endpoints st <> [] ->
  (dev_stop_paging 0 st).1 = Blocked
  /\ (stop_paging_attempt 0 st).1 = Done 0
  /\ st_dev (dev_stop_paging 0 st).2 = with_lock true (st_dev st)
  /\ pager (st_dev (dev_stop_paging 0 st).2) = Some pg
  /\ live_endpoints (dev_stop_paging 0 st).2 = remaining_endpoints st
  /\ (forall p i,
        p ∈ remaining_endpoints st ->
        pagers (after_grace st) !! p = Some i ->
        pagers (st_ports (dev_stop_paging 0 st).2) !! p
        = Some (mk_pager 1 MEMORY_OBJECT_COPY_DELAY (refcnt i) (port_right i)
                         (has_send_rights i)))
  /\ (forall p,
        p ∉ remaining_endpoints st ->
        pagers (st_ports (dev_stop_paging 0 st).2) !! p
        = pagers (after_grace st) !! p)
  /\ count_events is_pager_shutdown
       (events_since st (dev_stop_paging 0 st).2) = 0%nat.
Proof.
  intros Hfree Hpg Hlive Hrem.
  pose proof (stop_paging_attempt_busy st pg Hpg Hlive Hrem Hfree) as Hattempt.
  rewrite (dev_stop_paging_relock _ _ _ _ Hattempt eq_refl), Hattempt.
  unfold waiting. cbn [fst snd st_dev st_ports st_trace].
  split; [reflexivity |]. split; [reflexivity |]. split; [reflexivity |].
  split; [exact Hpg |]. split; [reflexivity |]. split; [| split].
  - intros p i Hin Hi. rewrite change_all_lookup.
    destruct (decide (p ∈ remaining_endpoints st)); [| contradiction].
    rewrite Hi. reflexivity.
  - intros p Hout. rewrite change_all_lookup.
    destruct (decide (p ∈ remaining_endpoints st)); [contradiction | reflexivity].
  - erewrite events_since_app by (cbn [st_trace]; rewrite <- app_assoc; reflexivity).
    repeat rewrite count_events_app.
    repeat rewrite count_events_change by reflexivity. reflexivity.
Qed.

(** C8: on a serial device [dev_get_memory_object] returns ENODEV without
    storing a handle and leaves the whole state as it was: the descriptor
    keeps its pager and bucket fields, the heap of ports is untouched and no
    call is made, so neither a pager nor a bucket (with its thread) is
    created. *)
Theorem dev_get_memory_object_serial (st : state) :
  dev_is (st_dev st) DEV_SERIAL = true ->
  (dev_get_memory_object st).1 = Done (ENODEV, None)
  /\ (dev_get_memory_object st).2 = st
  /\ count_events is_pager_create
       (events_since st (dev_get_memory_object st).2) = 0%nat
  /\ count_events is_create_bucket
       (events_since st (dev_get_memory_object st).2) = 0%nat
  /\ count_events is_cthread_fork
       (events_since st (dev_get_memory_object st).2) = 0%nat.
Proof.
  intros Hserial.
  assert (Hrun : dev_get_memory_object st = (Done (ENODEV, None), st)).
  { run. rewrite Hserial. reflexivity. }
  rewrite Hrun. simpl.
  rewrite (events_since_app st st []) by (symmetry; apply app_nil_r).
  repeat split.
Qed.

Lemma port_of_alter (f : pager_info -> pager_info) h bs q p :
  (forall i, port_right (f i) = port_right i) ->
  port_of (mk_ports (alter f q (pagers h)) bs) p = port_of h p.
Proof.
  intros Hf. unfold port_of. simpl. rewrite lookup_alter.
  case_decide as Hq; [subst q | reflexivity].
  destruct (pagers h !! p); simpl; [apply Hf | reflexivity].
Qed.

Lemma port_of_alter' (f : pager_info -> pager_info) m bs q p :
  (forall i, port_right (f i) = port_right i) ->
  port_of (mk_ports (alter f q m) bs) p = port_of (mk_ports m bs) p.
Proof. intros Hf. apply (port_of_alter f (mk_ports m bs)). exact Hf. Qed.

Lemma add_refs_port n i : port_right (add_refs n i) = port_right i.
Proof. reflexivity. Qed.

Lemma give_send_rights_port i : port_right (give_send_rights i) = port_right i.
Proof. unfold give_send_rights. destruct (has_send_rights i); reflexivity. Qed.

(** Entered with the lock held, on a device that is not serial, the
    function waits at line 233. *)
Lemma dev_get_memory_object_held (st : state) :
  dev_is (st_dev st) DEV_SERIAL = false ->
  io_state (st_dev st) = true ->
  dev_get_memory_object st = (Blocked, waiting st).
Proof. intros Hserial Hheld. run. rewrite Hserial, Hheld. reflexivity. Qed.

(** One call on a device that already has its bucket and its pager: no
    bucket and no pager is created, the existing pager gets one more
    reference. *)
Lemma dev_get_memory_object_existing (st : state) (p : pager_ptr) (b : bucket_ptr) :
  dev_is (st_dev st) DEV_SERIAL = false ->
  io_state (st_dev st) = false ->
  pager (st_dev st) = Some p ->
  pager_port_bucket (st_dev st) = Some b ->
  let name := port_of (st_ports st) p in
  exists (h : ports) (tail : list event),
    dev_get_memory_object st
    = (Done (if negb (name =? MACH_PORT_NULL)
             then insert_right_reply
                    (st_trace st ++ [Ev_io_state_lock; Ev_ports_port_ref p;
                                     Ev_io_state_unlock; Ev_pager_get_port p;
                                     Ev_ports_port_deref p])
                    name name MACH_MSG_TYPE_MAKE_SEND
             else 0, Some name),
       mk_state (st_dev st) h
         (st_trace st ++ [Ev_io_state_lock; Ev_ports_port_ref p;
                          Ev_io_state_unlock; Ev_pager_get_port p;
                          Ev_ports_port_deref p] ++ tail))
    /\ port_of h p = name
    /\ count_events is_pager_create tail = 0%nat
    /\ count_events is_create_bucket tail = 0%nat.
Proof.
  destruct st as [[pt fl pg bk sz bs lk] h t]. simpl.
  intros Hserial -> -> ->. run. rewrite Hserial. simpl.
  rewrite (port_of_alter (add_refs 1)) by apply add_refs_port.
  set (name := port_of h p).
  destruct (negb (name =? MACH_PORT_NULL)); simpl;
    eexists; eexists; (split; [repeat rewrite <- app_assoc; simpl; reflexivity |]).
  - split; [| split; reflexivity].
    rewrite (port_of_alter' (add_refs (-1))) by apply add_refs_port.
    rewrite (port_of_alter' give_send_rights) by apply give_send_rights_port.
    rewrite (port_of_alter' (add_refs 1)) by apply add_refs_port.
    destruct h; reflexivity.
  - split; [| split; reflexivity].
    rewrite (port_of_alter' (add_refs (-1))) by apply add_refs_port.
    rewrite (port_of_alter' give_send_rights) by apply give_send_rights_port.
    rewrite (port_of_alter' (add_refs 1)) by apply add_refs_port.
    destruct h; reflexivity.
Qed.

(** What a successful call establishes, from any state of a pageable
    device: the lock was free, and is free again. *)
Lemma dev_get_memory_object_success (st : state) (handle : option Z) :
  dev_is (st_dev st) DEV_SERIAL = false ->
  (dev_get_memory_object st).1 = Done (0, handle) ->
  exists (p : pager_ptr) (b : bucket_ptr) (evs : list event),
    pager (st_dev (dev_get_memory_object st).2) = Some p
    /\ pager_port_bucket (st_dev (dev_get_memory_object st).2) = Some b
    /\ flags (st_dev (dev_get_memory_object st).2) = flags (st_dev st)
    /\ io_state (st_dev (dev_get_memory_object st).2) = false
    /\ handle = Some (port_of (st_ports (dev_get_memory_object st).2) p)
    /\ st_trace (dev_get_memory_object st).2 = st_trace st ++ evs
    /\ (count_events is_create_bucket evs <= 1)%nat
    /\ (pager (st_dev st) = None ->
        filter (fun e => is_pager_create e = true) evs
        = [Ev_pager_create (Some b) 1 MEMORY_OBJECT_COPY_DELAY (Some p)])
    /\ (forall q, pager (st_dev st) = Some q ->
        q = p /\ count_events is_pager_create evs = 0%nat).
Proof.
  destruct st as [[pt fl pg bk sz bs lk] h t]. simpl.
  intros Hserial. run. rewrite Hserial.
  destruct lk; simpl; [intros Hsucc; discriminate Hsucc |].
  destruct bk as [b |]; destruct pg as [p |]; simpl.
  all: try (destruct (pager_create_fails _) eqn:Hcreate; simpl;
            [intros Hsucc; discriminate Hsucc |]).
  all: match goal with
       | |- context [negb (?n =? MACH_PORT_NULL)] =>
           destruct (negb (n =? MACH_PORT_NULL)) eqn:Hname
       end; simpl; intros Hsucc.
  all: first [injection Hsucc as _ <- | injection Hsucc as <-].
  all: eexists; eexists; eexists.
  all: (split; [reflexivity |]); (split; [reflexivity |]); (split; [reflexivity |]).
  all: (split; [reflexivity |]).
  all: split;
    [ rewrite (port_of_alter' (add_refs (-1))) by apply add_refs_port;
      rewrite (port_of_alter' give_send_rights) by apply give_send_rights_port;
      reflexivity |].
  all: (split; [repeat rewrite <- app_assoc; simpl; reflexivity |]).
  all: split; [unfold count_events; simpl; lia |].
  all: split; [intros Hnone; try discriminate Hnone; reflexivity |].
  all: intros q Hq; try discriminate Hq; injection Hq as ->; split; reflexivity.
Qed.

(** C9: on a pageable device, when a call to [dev_get_memory_object]
    succeeds and a second call follows it, the second call returns too, both
    calls leave the descriptor pointing at one and the same pager and both
    store the same handle, the name of that pager's port.  If the device had
    no pager, the first call made exactly one [pager_create], which returned
    this pager; the second call makes no [pager_create] and no
    [ports_create_bucket], it takes a reference on the existing pager with
    [ports_port_ref]; and over the two calls at most one bucket is
    created. *)
Theorem dev_get_memory_object_twice (st : state) (handle : option Z) :
  let r1 := dev_get_memory_object st in
  let r2 := dev_get_memory_object r1.2 in
  dev_is (st_dev st) DEV_SERIAL = false ->
  r1.1 = Done (0, handle) ->
  exists (p : pager_ptr) (b : bucket_ptr) (e2 : error_t),
    pager (st_dev r1.2) = Some p
    /\ pager (st_dev r2.2) = Some p
    /\ pager_port_bucket (st_dev r1.2) = Some b
    /\ pager_port_bucket (st_dev r2.2) = Some b
    /\ r2.1 = Done (e2, handle)
    /\ handle = Some (port_of (st_ports r2.2) p)
    /\ (pager (st_dev st) = None ->
        filter (fun e => is_pager_create e = true) (events_since st r1.2)
        = [Ev_pager_create (Some b) 1 MEMORY_OBJECT_COPY_DELAY (Some p)])
    /\ count_events is_pager_create (events_since r1.2 r2.2) = 0%nat
    /\ Ev_ports_port_ref p ∈ events_since r1.2 r2.2
    /\ count_events is_create_bucket (events_since r1.2 r2.2) = 0%nat
    /\ (count_events is_create_bucket (events_since st r2.2) <= 1)%nat.
Proof.
  intros r1 r2 Hserial Hsucc.
  destruct (dev_get_memory_object_success st handle Hserial Hsucc)
    as (p & b & evs & Hp & Hb & Hfl & Hfree & Hname & Htr & Hbk & Hnew & _).
  fold r1 in Hp, Hb, Hfl, Hfree, Hname, Htr.
  assert (Hserial1 : dev_is (st_dev r1.2) DEV_SERIAL = false).
  { unfold dev_is in *. rewrite Hfl. exact Hserial. }
  destruct (dev_get_memory_object_existing r1.2 p b Hserial1 Hfree Hp Hb)
    as (h & tail & Hrun & Hport & Hnc & Hnb).
  fold r2 in Hrun.
  exists p, b. eexists. rewrite Hrun. cbn [fst snd st_dev st_ports st_trace].
  rewrite Hport.
  assert (Hev1 : events_since st r1.2 = evs) by (apply events_since_app; exact Htr).
  assert (Hev2 : events_since r1.2
                   (mk_state (st_dev r1.2) h
                      (st_trace r1.2
                         ++ [Ev_io_state_lock; Ev_ports_port_ref p;
                             Ev_io_state_unlock; Ev_pager_get_port p;
                             Ev_ports_port_deref p] ++ tail))
                 = [Ev_io_state_lock; Ev_ports_port_ref p;
                    Ev_io_state_unlock; Ev_pager_get_port p;
                    Ev_ports_port_deref p] ++ tail)
    by (apply events_since_app; reflexivity).
  assert (Hev12 : events_since st
                   (mk_state (st_dev r1.2) h
                      (st_trace r1.2
                         ++ [Ev_io_state_lock; Ev_ports_port_ref p;
                             Ev_io_state_unlock; Ev_pager_get_port p;
                             Ev_ports_port_deref p] ++ tail))
                 = evs ++ [Ev_io_state_lock; Ev_ports_port_ref p;
                           Ev_io_state_unlock; Ev_pager_get_port p;
                           Ev_ports_port_deref p] ++ tail).
  { apply events_since_app. cbn [st_trace]. rewrite Htr, <- app_assoc. reflexivity. }
  rewrite Hev1, Hev2, Hev12.
  split; [exact Hp |]. split; [exact Hp |]. split; [exact Hb |]. split; [exact Hb |].
  split; [rewrite Hname; reflexivity |]. split; [exact Hname |].
  split; [exact Hnew |]. split; [exact Hnc |]. split; [| split].
  - apply elem_of_app. left. apply elem_of_cons. right. apply elem_of_cons. left. reflexivity.
  - exact Hnb.
  - rewrite !count_events_app. rewrite Hnb.
    change (count_events is_create_bucket
              [Ev_io_state_lock; Ev_ports_port_ref p; Ev_io_state_unlock;
               Ev_pager_get_port p; Ev_ports_port_deref p]) with 0%nat.
    lia.
Qed.

End Lifecycle.

(** ** The properties on concrete devices *)

(** C1: on a read-only disk [pager_write_page] returns EROFS through its
    early [return] and makes no call at all: no [device_write], but no
    [vm_deallocate] of the page buffer either, although the function's
    comment (and its other branch) say the buffer is deallocated. *)
Theorem pager_write_page_readonly_keeps_buffer :
  (@pager_write_page healthy 0 8192 (start (disk 2))).1 = Done EROFS
  /\ st_trace (@pager_write_page healthy 0 8192 (start (disk 2))).2 = []
  /\ Ev_vm_deallocate 8192 4096
       ∉ st_trace (@pager_write_page healthy 0 8192 (start (disk 2))).2.
Proof.
  split; [reflexivity |]. split; [reflexivity |].
  change (st_trace (@pager_write_page healthy 0 8192 (start (disk 2))).2)
    with (@nil event).
  apply not_elem_of_nil.
Qed.

(** The same write on the writable disk does release the buffer. *)
Example pager_write_page_writable_releases_buffer :
  @pager_write_page healthy 0 8192 (start (disk 0))
  = (Done 0, mk_state (disk 0) no_ports
               [Ev_device_write 11 0 0 8192 4096; Ev_vm_deallocate 8192 4096]).
Proof. reflexivity. Qed.

(** At the top of the address space [page + want] wraps to zero and the
    transfer is not cut down to the 4095 bytes the device still has; this is
    the case [vr_no_wrap] leaves out. *)
Example transfer_size_wraps_at_top :
  @transfer_size healthy top_disk 4294963200 = 4096
  /\ Z.min 4096 (size top_disk - 4294963200) = 4095.
Proof. split; reflexivity. Qed.


(** C2, as stated, fails: with [nosync] set and one live endpoint,
    [dev_stop_paging] neither clears [success] nor returns failure. *)
Lemma dev_stop_paging_nosync_ignores_live_endpoints :
  ~ (live_endpoints mapped <> [] ->
     (@stop_paging_attempt healthy 1 mapped).1 = Done 0
     \/ (@dev_stop_paging healthy 1 mapped).1 = Done 0).
Proof.
  intros H.
  assert (Hlive : live_endpoints mapped <> []) by (vm_compute; discriminate).
  destruct (H Hlive) as [Hfail | Hfail]; vm_compute in Hfail; discriminate Hfail.
Qed.

Lemma dev_stop_paging_nosync_witness :
  1 <> 0
  /\ io_state (st_dev mapped) = false
  /\ live_endpoints mapped = [1%positive]
  /\ (@stop_paging_attempt healthy 1 mapped).1 = Done 1
  /\ pager (st_dev (@dev_stop_paging healthy 1 mapped).2) = None
  /\ st_trace (@dev_stop_paging healthy 1 mapped).2
     = [Ev_io_state_lock; Ev_io_state_lock].
Proof.
  assert (Hn : 1 <> 0) by discriminate.
  split; [exact Hn |]. split; [reflexivity |]. split; [reflexivity |].
  destruct (@dev_stop_paging_nosync healthy mapped 1 Hn)
    as (_ & _ & _ & Hfree).
  destruct (Hfree eq_refl) as (H1 & H2 & _ & H4).
  split; [exact H1 |]. split; [exact H2 | exact H4].
Defined.

(** C3, as stated, fails: when the device rejects the write it need not
    report a short count, and [pager_write_page] returns EIO all the same. *)
Lemma pager_write_page_eio_without_short_count :
  ~ ((@pager_write_page rejecting 0 8192 (start (disk 0))).1 = Done EIO
     <-> wr_count (@device_write_reply rejecting [] 11 0 0 8192 4096) < 4096).
Proof.
  intros [H _].
  assert (Hlt : wr_count (@device_write_reply rejecting [] 11 0 0 8192 4096) < 4096)
    by (apply H; reflexivity).
  vm_compute in Hlt. discriminate Hlt.
Qed.

Lemma disk_request_valid (fl page : Z) :
  0 <= page < 5000 -> @valid_request healthy (disk fl) page.
Proof.
  intros Hp. split; simpl; unfold Word.int_max, Word.modulus; lia.
Defined.

Lemma disk_writable : ~ @read_only healthy (disk 0).
Proof. intros H. apply H. reflexivity. Defined.

Lemma pager_write_page_writable_witness :
  ~ @read_only healthy (disk 0)
  /\ @valid_request healthy (disk 0) 4096
  /\ st_trace (@pager_write_page healthy 4096 8192 (start (disk 0))).2
     = [Ev_device_write 11 0 8 8192 904; Ev_vm_deallocate 8192 4096].
Proof.
  assert (Hv : @valid_request healthy (disk 0) 4096) by (apply disk_request_valid; lia).
  split; [exact disk_writable |]. split; [exact Hv |].
  exact (proj1 (@pager_write_page_writable healthy (start (disk 0)) 4096 8192
                  disk_writable Hv)).
Defined.

Lemma healthy_read_allocated (t : list event) (dport mode recnum want : Z) :
  want <= 4096 ->
  @allocated_in_pages healthy (@device_read_reply healthy t dport mode recnum want).
Proof.
  intros Hw _. split; [exact Hw | reflexivity].
Defined.

(** The partial tail of the 5000-byte disk is read and zero-filled. *)
Example pager_read_page_partial_tail :
  exists (buf : list byte),
    @pager_read_page healthy 4096 (start (disk 2))
    = (Done (0, buf, 2),
       mk_state (disk 2) no_ports [Ev_device_read 11 0 8 904])
    /\ Z.of_nat (length (@page_at healthy buf)) = 4096
    /\ @page_at healthy buf !! 904%nat = Some x00.
Proof.
  assert (Hv : @valid_request healthy (disk 2) 4096) by (apply disk_request_valid; lia).
  assert (Ha : @allocated_in_pages healthy (@device_read_reply healthy [] 11 0 8 904))
    by (apply healthy_read_allocated; lia).
  destruct (@pager_read_page healthy 4096 (start (disk 2))) as [[[[e buf] wl] | |] st']
    eqn:Hrun; try (vm_compute in Hrun; discriminate Hrun).
  assert (He : e = 0) by (vm_compute in Hrun; congruence).
  subst e.
  destruct (@pager_read_page_success healthy (start (disk 2)) 4096 buf wl st'
              Hv Ha Hrun) as (Htr & _ & Hlen & _ & Hzero & Hwl).
  exists buf. split; [| split; [exact Hlen | apply Hzero; simpl; lia]].
  f_equal; [rewrite Hwl; reflexivity |].
  destruct st' as [d' h' t']. simpl in Htr. subst t'.
  vm_compute in Hrun. injection Hrun as _ _ Hd Hh. subst. reflexivity.
Qed.

(** The failing input of C5: two endpoints are live, the first one goes away
    during the grace period and the second one stays. *)
Lemma dev_stop_paging_busy_witness :
  io_state (st_dev shared) = false
  /\ pager (st_dev shared) = Some 2%positive
  /\ live_endpoints shared = [1%positive; 2%positive]
  /\ @remaining_endpoints first_leaves shared = [2%positive]
  /\ (@dev_stop_paging first_leaves 0 shared).1 = Blocked
  /\ pager (st_dev (@dev_stop_paging first_leaves 0 shared).2) = Some 2%positive
  /\ pagers (st_ports (@dev_stop_paging first_leaves 0 shared).2) !! 2%positive
     = Some (mk_pager 1 MEMORY_OBJECT_COPY_DELAY 1 78 true)
  /\ pagers (st_ports (@dev_stop_paging first_leaves 0 shared).2) !! 1%positive
     = Some (mk_pager 0 MEMORY_OBJECT_COPY_DELAY 1 77 true).
Proof.
  assert (Hlive : live_endpoints shared <> []) by (vm_compute; discriminate).
  assert (Hrem : @remaining_endpoints first_leaves shared = [2%positive])
    by (vm_compute; reflexivity).
  assert (Hrem' : @remaining_endpoints first_leaves shared <> [])
    by (rewrite Hrem; discriminate).
  destruct (@dev_stop_paging_busy first_leaves shared 2%positive
              eq_refl eq_refl Hlive Hrem')
    as (Hblocked & _ & _ & Hpg & _ & Hrestored & Hleft & _).
  split; [reflexivity |]. split; [reflexivity |]. split; [reflexivity |].
  split; [exact Hrem |]. split; [exact Hblocked |]. split; [exact Hpg |].
  split.
  - apply (Hrestored 2%positive (mk_pager 0 MEMORY_OBJECT_COPY_DELAY 1 78 true)).
    + rewrite Hrem. apply list_elem_of_singleton. reflexivity.
    + vm_compute. reflexivity.
  - etrans; [apply (Hleft 1%positive) | vm_compute; reflexivity].
    rewrite Hrem. intros Hin. apply list_elem_of_singleton in Hin. discriminate Hin.
Defined.

Lemma dev_stop_paging_no_endpoints_witness :
  io_state (st_dev quiet) = false
  /\ pager (st_dev quiet) = Some 1%positive
  /\ live_endpoints quiet = []
  /\ (@dev_stop_paging healthy 0 quiet).1 = Blocked
  /\ pager (st_dev (@dev_stop_paging healthy 0 quiet).2) = None
  /\ st_trace (@dev_stop_paging healthy 0 quiet).2
     = [Ev_io_state_lock; Ev_pager_shutdown 1%positive; Ev_io_state_lock].
Proof.
  assert (Hlive : live_endpoints quiet = []) by (vm_compute; reflexivity).
  destruct (@dev_stop_paging_no_endpoints healthy quiet 1%positive
              eq_refl eq_refl Hlive)
    as (Hblocked & _ & Hnull & _ & Htrace).
  split; [reflexivity |]. split; [reflexivity |]. split; [exact Hlive |].
  split; [exact Hblocked |]. split; [exact Hnull | exact Htrace].
Defined.

Lemma dev_get_memory_object_serial_witness :
  @dev_is (disk 8) (@DEV_SERIAL healthy) = true
  /\ (@dev_get_memory_object healthy (start (disk 8))).1 = Done (ENODEV, None)
  /\ (@dev_get_memory_object healthy (start (disk 8))).2 = start (disk 8).
Proof.
  destruct (@dev_get_memory_object_serial healthy (start (disk 8)) eq_refl)
    as (Herr & Hst & _).
  split; [reflexivity |]. split; [exact Herr | exact Hst].
Defined.

Lemma dev_get_memory_object_twice_witness :
  @dev_is (disk 0) (@DEV_SERIAL healthy) = false
  /\ (@dev_get_memory_object healthy (start (disk 0))).1 = Done (0, Some 77)
  /\ (@dev_get_memory_object healthy
        (@dev_get_memory_object healthy (start (disk 0))).2).1
     = Done (0, Some 77)
  /\ pager (st_dev (@dev_get_memory_object healthy (start (disk 0))).2)
     = pager (st_dev (@dev_get_memory_object healthy
                        (@dev_get_memory_object healthy (start (disk 0))).2).2).
Proof.
  assert (Hok : (@dev_get_memory_object healthy (start (disk 0))).1
                = Done (0, Some 77))
    by (vm_compute; reflexivity).
  destruct (@dev_get_memory_object_twice healthy (start (disk 0)) (Some 77)
              eq_refl Hok)
    as (p & b & e2 & Hp1 & Hp2 & _ & _ & Hsecond & _).
  split; [reflexivity |]. split; [exact Hok |]. split.
  - rewrite Hsecond. f_equal. f_equal.
    assert (Hcode : (@dev_get_memory_object healthy
                       (@dev_get_memory_object healthy (start (disk 0))).2).1
                    = Done (0, Some 77)) by (vm_compute; reflexivity).
    rewrite Hsecond in Hcode. congruence.
  - rewrite Hp1, Hp2. reflexivity.
Defined.

(** When the one client lets go during the grace period, the shutdown goes
    through, and the call waits on the lock all the same. *)
Example dev_stop_paging_idle_clients :
  (@stop_paging_attempt idle_clients 0 mapped).1 = Done 1
  /\ (@dev_stop_paging idle_clients 0 mapped).1 = Blocked
  /\ pager (st_dev (@dev_stop_paging idle_clients 0 mapped).2) = None
  /\ st_trace (@dev_stop_paging idle_clients 0 mapped).2
     = [Ev_io_state_lock; Ev_pager_change_attributes 1%positive 0 2 1;
        Ev_sleep 1; Ev_pager_shutdown 1%positive; Ev_io_state_lock].
Proof. repeat split; vm_compute; reflexivity. Qed.

(** ** Further properties of the callbacks *)

Section CallbackFacts.

Context `{C : Collaborators}.

Ltac run_callback :=
  unfold pager_read_page, pager_write_page, pager_unlock_page,
    pager_report_extent, device_read, device_write, vm_deallocate,
    eval, bind, ret, trap, get_dev, get_trace, emit; simpl.

Lemma pager_unlock_page_run (st : state) (address : Z) :
  pager_unlock_page address st
  = (Done (if negb (Z.land (flags (st_dev st)) DEV_READONLY =? 0) then EROFS else 0),
     st).
Proof. run_callback. destruct (negb _); reflexivity. Qed.

(** X1: the three callbacks agree on what a read-only device is.
    [pager_read_page] returns unless the block size is zero, where the
    division stops it before [*writelock] is stored; when it returns, the
    value it has stored in [*writelock] is [dev->flags & DEV_READONLY].  That
    value is not zero exactly when [pager_unlock_page] answers EROFS, which is
    exactly when [pager_write_page] answers EROFS; [pager_unlock_page] answers
    0 otherwise, and it changes nothing and makes no call. *)
Theorem callbacks_agree_on_read_only (st : state) (page buf address : Z) :
  let writelock := Z.land (flags (st_dev st)) DEV_READONLY in
  (if Word.to_uint (dev_block_size (st_dev st)) =? 0
   then (pager_read_page page st).1 = Trapped
   else exists (err : error_t) (rbuf : list byte),
          (pager_read_page page st).1 = Done (err, rbuf, writelock))
  /\ (writelock <> 0 <-> (pager_unlock_page address st).1 = Done EROFS)
  /\ ((pager_unlock_page address st).1 = Done EROFS
        <-> (pager_write_page page buf st).1 = Done EROFS)
  /\ (writelock = 0 <-> (pager_unlock_page address st).1 = Done 0)
  /\ (pager_unlock_page address st).2 = st.
Proof.
  intros writelock. split.
  { destruct (Z.eqb_spec (Word.to_uint (dev_block_size (st_dev st))) 0) as [Hz | Hnz].
    - rewrite (pager_read_page_trap st page (block_index_none _ _ Hz)). reflexivity.
    - rewrite (pager_read_page_run st page _ (block_index_some _ _ Hnz)).
      eexists; eexists. reflexivity. }
  rewrite pager_unlock_page_run. cbn [fst snd]. unfold writelock.
  destruct (Z.eqb_spec (Z.land (flags (st_dev st)) DEV_READONLY) 0) as [Hz | Hnz];
    simpl.
  - assert (Hrw : ~ read_only (st_dev st)) by (unfold read_only; intros H; apply H; exact Hz).
    split; [split; [intros H; contradiction | intros H; discriminate H] |].
    split; [| split; [split; [reflexivity | intros _; exact Hz] | reflexivity]].
    split; [intros H; discriminate H |].
    destruct (block_index (st_dev st) page) as [blk |] eqn:Hblk.
    + rewrite (pager_write_page_run st page buf blk Hrw Hblk). cbn [fst].
      intros H. destruct (negb _ || _); discriminate H.
    + rewrite (pager_write_page_trap st page buf Hrw Hblk). intros H. discriminate H.
  - assert (Hro : read_only (st_dev st)) by exact Hnz.
    rewrite (pager_write_page_readonly st page buf Hro). cbn [fst].
    split; [split; [reflexivity | intros _; exact Hnz] |].
    split; [split; reflexivity |].
    split; [split; [intros H; contradiction | intros H; discriminate H] | reflexivity].
Qed.

Lemma transfer_size_top (d : dev) (page : Z) :
  top_request d page -> transfer_size d page = vm_page_size.
Proof.
  intros [Hp Hb Hpg Hs Hw]. unfold transfer_size.
  assert (Hm : Word.modulus = 2 * Word.int_max) by reflexivity.
  rewrite (to_int_small vm_page_size) by lia.
  rewrite (to_uint_small vm_page_size) by lia.
  assert (Hwrap : Word.to_uint (page + vm_page_size)
                  = page + vm_page_size - Word.modulus).
  { unfold Word.to_uint. symmetry. apply (Z.mod_unique _ _ 1); lia. }
  rewrite Hwrap.
  destruct (Z.gtb_spec (page + vm_page_size - Word.modulus) (size d)); [lia | reflexivity].
Qed.

(** X2: for a valid page request the transfer never leaves the extent that
    [pager_report_extent] reports.  [pager_report_extent] returns success
    with offset 0 and the device's size and changes nothing; the page lies
    at or above the reported offset; the byte count handed to the device is
    positive, at most a page, and [page + count] does not exceed the
    reported size; a page that lies wholly inside the device is transferred
    whole. *)
Theorem transfer_within_reported_extent (st : state) (page : Z) :
  valid_request (st_dev st) page ->
  exists (offset extent : Z),
    pager_report_extent st = (Done (0, offset, extent), st)
    /\ offset = 0
    /\ extent = size (st_dev st)
    /\ offset <= page
    /\ 0 < transfer_size (st_dev st) page <= vm_page_size
    /\ page + transfer_size (st_dev st) page <= extent
    /\ (page + vm_page_size <= size (st_dev st) ->
        transfer_size (st_dev st) page = vm_page_size).
Proof.
  intros Hv. rewrite (transfer_size_min _ _ Hv).
  destruct Hv as [Hp Hb Hpg Hs Hw].
  exists 0, (size (st_dev st)). run_callback.
  repeat split; lia.
Qed.

(** X3: at the top of the address space the transfer is not cut down.  When
    the block size is positive and the page starts inside the device but
    [page + vm_page_size] reaches 2^32, the unsigned sum wraps, the test
    [page + want > dev->size] fails, and on a writable device
    [pager_write_page] asks the device to write a whole page although fewer
    than [vm_page_size] bytes remain before the end of the device. *)
Theorem pager_write_page_wraps_at_top (st : state) (page buf : Z) :
  ~ read_only (st_dev st) ->
  top_request (st_dev st) page ->
  size (st_dev st) - page < vm_page_size
  /\ st_trace (pager_write_page page buf st).2
     = st_trace st
       ++ [Ev_device_write (port (st_dev st)) 0
             (page / dev_block_size (st_dev st)) buf vm_page_size;
           Ev_vm_deallocate buf vm_page_size].
Proof.
  intros Hrw Ht.
  rewrite (pager_write_page_run st page buf _ Hrw
             (block_index_positive _ _ (tr_block_size _ _ Ht))).
  simpl. rewrite (transfer_size_top _ _ Ht).
  destruct Ht as [Hp Hb Hpg Hs Hw].
  split; [lia | rewrite <- app_assoc; reflexivity].
Qed.

(** X4: the outcome of [pager_read_page] for a valid request (positive block
    size, page inside the device and not ending at the top of the address
    space).  It returns, having made exactly one call, a [device_read] of
    [min (vm_page_size, size - page)] bytes at block [page / dev_block_size];
    [*writelock] is set from the flags whatever the device answers; the
    value returned is EIO if and only if the device returned an error or
    reported fewer bytes than it was asked for, and 0 otherwise. *)
Theorem pager_read_page_outcome (st : state) (page : Z) :
  let d := st_dev st in
  let n := Z.min vm_page_size (size d - page) in
  let blk := page / dev_block_size d in
  let reply := device_read_reply (st_trace st) (port d) 0 blk n in
  valid_request d page ->
  exists (err : error_t) (rbuf : list byte),
    (pager_read_page page st).1
      = Done (err, rbuf, Z.land (flags d) DEV_READONLY)
    /\ st_trace (pager_read_page page st).2
       = st_trace st ++ [Ev_device_read (port d) 0 blk n]
    /\ (err = EIO <-> rd_err reply <> 0 \/ rd_count reply < n)
    /\ (err = 0 <-> rd_err reply = 0 /\ n <= rd_count reply).
Proof.
  intros d n blk reply Hv.
  rewrite (pager_read_page_run st page _ (block_index_div _ _ Hv)). simpl.
  rewrite (transfer_size_min (st_dev st) page Hv).
  fold d. fold n. fold blk. fold reply.
  eexists; eexists. split; [reflexivity |]. split; [reflexivity |].
  destruct (Z.eqb_spec (rd_err reply) 0) as [He | He];
    destruct (Z.ltb_spec (rd_count reply) n) as [Hl | Hl]; simpl;
    (split; split; intros H; try discriminate H; try reflexivity; try lia).
Qed.

(** X5: when [pager_read_page] touches the buffer, for a valid request
    (positive block size, page inside the device and not ending at the top of
    the address space).  The region the device returned is handed on
    untouched when the device returned an error and when the page lies wholly
    inside the device; when the device returned no error and the page is the
    partial tail, the bytes from [size - page] up to the page size are
    zeroed, also when the count was short and the call returns EIO. *)
Theorem pager_read_page_buffer (st : state) (page : Z) :
  let d := st_dev st in
  let n := Z.min vm_page_size (size d - page) in
  let blk := page / dev_block_size d in
  let reply := device_read_reply (st_trace st) (port d) 0 blk n in
  valid_request d page ->
  exists (err : error_t) (rbuf : list byte) (writelock : Z),
    (pager_read_page page st).1 = Done (err, rbuf, writelock)
    /\ (rd_err reply <> 0 -> rbuf = rd_region reply)
    /\ (page + vm_page_size <= size d -> rbuf = rd_region reply)
    /\ (rd_err reply = 0 -> size d < page + vm_page_size ->
        rbuf = bzero (rd_region reply) (size d - page)
                     (vm_page_size - (size d - page))).
Proof.
  intros d n blk reply Hv.
  rewrite (pager_read_page_run st page _ (block_index_div _ _ Hv)). simpl.
  rewrite (transfer_size_min (st_dev st) page Hv).
  fold d. fold n. fold blk. fold reply.
  pose proof Hv as [Hp Hb Hpg Hs Hw]. fold d in Hb, Hpg, Hs.
  assert (Hm : Word.int_max < Word.modulus) by reflexivity.
  assert (Hn : 0 < n <= vm_page_size) by (unfold n; lia).
  rewrite (to_uint_small n) by lia.
  eexists; eexists; eexists. split; [reflexivity |].
  split; [| split].
  - intros He. destruct (Z.eqb_spec (rd_err reply) 0); [contradiction | reflexivity].
  - intros Hfull. assert (n = vm_page_size) as -> by (unfold n; lia).
    rewrite Z.ltb_irrefl, andb_false_r. reflexivity.
  - intros He Htail. assert (n = size d - page) as Hnv by (unfold n; lia).
    rewrite He. simpl.
    destruct (Z.ltb_spec n vm_page_size); [| lia].
    rewrite to_uint_small by lia. rewrite Hnv. reflexivity.
Qed.

(** X6: [pager_write_page] releases the page buffer exactly when it gets as
    far as the device.  On a writable device whose block size is not zero it
    makes one [device_write] and one [vm_deallocate] of the buffer, whatever
    the page and whatever the device answers (also when it returns EIO); on a
    writable device whose block size is zero the division stops it before
    either call; on a read-only device it makes neither call. *)
Theorem pager_write_page_releases_iff_writable (st : state) (page buf : Z) :
  (~ read_only (st_dev st) ->
   Word.to_uint (dev_block_size (st_dev st)) <> 0 ->
     count_events is_vm_deallocate
       (events_since st (pager_write_page page buf st).2) = 1%nat
     /\ count_events is_device_write
          (events_since st (pager_write_page page buf st).2) = 1%nat
     /\ Ev_vm_deallocate buf vm_page_size
          ∈ events_since st (pager_write_page page buf st).2)
  /\ (~ read_only (st_dev st) ->
      Word.to_uint (dev_block_size (st_dev st)) = 0 ->
      pager_write_page page buf st = (Trapped, st))
  /\ (read_only (st_dev st) ->
      count_events is_vm_deallocate
        (events_since st (pager_write_page page buf st).2) = 0%nat
      /\ count_events is_device_write
           (events_since st (pager_write_page page buf st).2) = 0%nat).
Proof.
  split; [| split].
  - intros Hrw Hb.
    rewrite (pager_write_page_run st page buf _ Hrw (block_index_some _ _ Hb)). simpl.
    erewrite events_since_app; [| simpl; rewrite <- app_assoc; reflexivity].
    repeat split. apply elem_of_cons. right. apply elem_of_cons. left. reflexivity.
  - intros Hrw Hb.
    apply (pager_write_page_trap st page buf Hrw (block_index_none _ _ Hb)).
  - intros Hro. rewrite (pager_write_page_readonly st page buf Hro). simpl.
    rewrite (events_since_app st st []) by (symmetry; apply app_nil_r).
    split; reflexivity.
Qed.

End CallbackFacts.

(** ** Further properties of the paging lifecycle *)

Section LifecycleFacts.

Context `{C : Collaborators}.

Ltac run_lifecycle :=
  unfold dev_stop_paging, stop_paging_attempt, dev_get_memory_object,
    init_dev_paging, when,
    ports_count_bucket, ports_bucket_iterate, sleep, pager_shutdown,
    pager_create, ports_port_ref, ports_port_deref, pager_get_port,
    mach_port_insert_right, ports_create_bucket, cthread_fork_detached,
    io_state_lock, io_state_unlock, set_io_state, set_pager,
    set_pager_port_bucket, block,
    bind, ret, get_dev, get_ports, get_trace, put_ports, emit; simpl.

Lemma filter_change_events (f : event -> bool) cache copy wait l :
  (forall p, f (Ev_pager_change_attributes p cache copy wait) = false) ->
  filter (fun e => f e = true) (change_events cache copy wait l) = [].
Proof.
  intros Hf. unfold change_events.
  induction l as [| p l IH]; [reflexivity |].
  simpl. rewrite filter_cons_False; [exact IH |].
  rewrite Hf. discriminate.
Qed.

Lemma filter_change_events_all cache copy wait l :
  filter (fun e => is_change_attributes e = true) (change_events cache copy wait l)
  = change_events cache copy wait l.
Proof.
  unfold change_events. induction l as [| p l IH]; [reflexivity |].
  simpl. rewrite filter_cons_True by reflexivity. f_equal. exact IH.
Qed.

Ltac filter_events :=
  repeat first [ rewrite filter_app
               | rewrite filter_change_events_all
               | rewrite filter_change_events by reflexivity
               | rewrite filter_cons_False by (cbn; discriminate)
               | rewrite filter_cons_True by reflexivity
               | rewrite filter_nil ];
  rewrite ?app_nil_r; cbn [app].

Lemma events_since_waiting (st st1 : state) (evs : list event) :
  st_trace st1 = st_trace st ++ evs ->
  events_since st (waiting st1) = evs ++ [Ev_io_state_lock].
Proof.
  intros Htr. apply events_since_app. unfold waiting. cbn [st_trace].
  rewrite Htr, <- app_assoc. reflexivity.
Qed.

(** The calls of a run of [dev_stop_paging] up to line 216. *)
Lemma stop_paging_run_trace (st st1 : state) (nosync success : Z) :
  stop_paging_run st nosync (success, st1) ->
  exists evs : list event,
    st_trace st1 = st_trace st ++ Ev_io_state_lock :: evs
    /\ count_events is_io_state_lock evs = 0%nat
    /\ count_events is_io_state_unlock evs = 0%nat.
Proof.
  intros Hrun.
  inversion Hrun as
    [Hn | Hn Hpg | pg Hn Hpg Hlive | pg Hn Hpg Hlive Hrem | pg Hn Hpg Hlive Hrem];
    subst; cbn [st_trace].
  - exists []. repeat split.
  - exists []. repeat split.
  - exists [Ev_pager_shutdown pg]. repeat split.
  - exists (change_events 0 MEMORY_OBJECT_COPY_DELAY 1 (live_endpoints st)
              ++ [Ev_sleep 1; Ev_pager_shutdown pg]).
    split; [reflexivity |].
    rewrite !count_events_app.
    rewrite !count_events_change by reflexivity. split; reflexivity.
  - exists (change_events 0 MEMORY_OBJECT_COPY_DELAY 1 (live_endpoints st)
              ++ [Ev_sleep 1]
              ++ change_events 1 MEMORY_OBJECT_COPY_DELAY 0
                   (remaining_endpoints st)).
    split; [reflexivity |].
    rewrite !count_events_app.
    rewrite !count_events_change by reflexivity. split; reflexivity.
Qed.

(** X7: [dev_stop_paging] does not return.  On every state and for every
    [nosync] the call ends waiting in [io_state_lock]: at line 169 when it is
    entered with the lock held, having changed nothing; at line 218, on the
    lock it took itself at line 169, when it is entered with the lock free.
    In that case [success] is 0 exactly when [nosync] is 0, the device has a
    pager, its bucket has live ports on entry and still has live ports after
    the grace period, and then the pager reference is kept; in every other
    case [success] is 1 and the pager reference has been set to NULL.  The
    bucket reference is never changed. *)
Theorem dev_stop_paging_outcome (st : state) (nosync : Z) :
  (dev_stop_paging nosync st).1 = Blocked
  /\ pager_port_bucket (st_dev (dev_stop_paging nosync st).2)
     = pager_port_bucket (st_dev st)
  /\ (io_state (st_dev st) = true ->
      (dev_stop_paging nosync st).2 = waiting st)
  /\ (io_state (st_dev st) = false ->
      ((stop_paging_attempt nosync st).1 = Done 0
         /\ st_dev (dev_stop_paging nosync st).2 = with_lock true (st_dev st)
       \/ (stop_paging_attempt nosync st).1 = Done 1
         /\ st_dev (dev_stop_paging nosync st).2
            = with_lock true (without_pager (st_dev st)))
      /\ ((stop_paging_attempt nosync st).1 = Done 0
          <-> nosync = 0 /\ pager (st_dev st) <> None
              /\ live_endpoints st <> [] /\ remaining_endpoints st <> [])).
Proof.
  destruct (io_state (st_dev st)) eqn:Hlock.
  - rewrite (dev_stop_paging_held st nosync Hlock).
    split; [reflexivity |]. split; [reflexivity |].
    split; [reflexivity | intros H; discriminate H].
  - destruct (dev_stop_paging_runs st nosync Hlock)
      as (success & st1 & Hrun & Hattempt & Hstop).
    rewrite Hstop, Hattempt. unfold waiting. cbn [fst snd st_dev].
    split; [reflexivity |].
    inversion Hrun as
      [Hn | Hn Hpg | pg Hn Hpg Hlive | pg Hn Hpg Hlive Hrem | pg Hn Hpg Hlive Hrem];
      subst; cbn [st_dev].
    all: split; [reflexivity |]; split; [intros H; discriminate H |]; intros _.
    all: split; [auto |].
    all: split;
      [ intros H; try discriminate H; repeat split; try assumption;
        rewrite Hpg; discriminate
      | intros (H1 & H2 & H3 & H4); try reflexivity; try contradiction;
        try (rewrite Hpg in H2; contradiction) ].
Qed.

(** X8: [dev_stop_paging] never releases the descriptor's lock.  It calls
    [io_state_unlock] on no path.  Entered with the lock free it calls
    [io_state_lock] twice, at line 169 and again at line 218; entered with
    the lock held it calls it once, at line 169. *)
Theorem dev_stop_paging_never_unlocks (st : state) (nosync : Z) :
  count_events is_io_state_lock
    (events_since st (dev_stop_paging nosync st).2)
  = (if io_state (st_dev st) then 1 else 2)%nat
  /\ count_events is_io_state_unlock
       (events_since st (dev_stop_paging nosync st).2) = 0%nat.
Proof.
  destruct (io_state (st_dev st)) eqn:Hlock.
  - rewrite (dev_stop_paging_held st nosync Hlock). cbn [snd].
    rewrite (events_since_waiting st st []) by (symmetry; apply app_nil_r).
    split; reflexivity.
  - destruct (dev_stop_paging_runs st nosync Hlock)
      as (success & st1 & Hrun & _ & Hstop).
    destruct (stop_paging_run_trace st st1 nosync success Hrun)
      as (evs & Htr & Hlocks & Hunlocks).
    rewrite Hstop. cbn [snd].
    rewrite (events_since_waiting st st1 _ Htr).
    change (Ev_io_state_lock :: evs) with ([Ev_io_state_lock] ++ evs).
    rewrite !count_events_app, Hlocks, Hunlocks. split; reflexivity.
Qed.

(** X9: [dev_stop_paging] calls [pager_shutdown] at most once, on the
    descriptor's pager, and exactly when it was entered with the lock free
    and without [nosync] on a device that has a pager and [success] is still
    set at line 207.  Entered with the lock held, with [nosync], without a
    pager, or when [success] has been cleared, it does not call it. *)
Theorem dev_stop_paging_shutdown (st : state) (nosync : Z) :
  (forall pg,
     io_state (st_dev st) = false ->
     nosync = 0 -> pager (st_dev st) = Some pg ->
     (stop_paging_attempt nosync st).1 = Done 1 ->
     filter (fun e => is_pager_shutdown e = true)
            (events_since st (dev_stop_paging nosync st).2)
     = [Ev_pager_shutdown pg])
  /\ (io_state (st_dev st) = true \/ nosync <> 0 \/ pager (st_dev st) = None
      \/ (stop_paging_attempt nosync st).1 = Done 0 ->
      count_events is_pager_shutdown
        (events_since st (dev_stop_paging nosync st).2) = 0%nat).
Proof.
  destruct (io_state (st_dev st)) eqn:Hlock.
  - rewrite (dev_stop_paging_held st nosync Hlock). cbn [snd].
    rewrite (events_since_waiting st st []) by (symmetry; apply app_nil_r).
    split; [intros pg H; discriminate H | intros _; reflexivity].
  - destruct (dev_stop_paging_runs st nosync Hlock)
      as (success & st1 & Hrun & Hattempt & Hstop).
    rewrite Hstop, Hattempt. cbn [fst snd].
    inversion Hrun as
      [Hn | Hn Hpg | pg Hn Hpg Hlive | pg Hn Hpg Hlive Hrem | pg Hn Hpg Hlive Hrem];
      subst.
    all: erewrite events_since_waiting by (cbn [st_trace]; reflexivity).
    all: split;
      [ intros pg' _ Hz Hpg' Hok; try contradiction; try congruence
      | intros [H | [H | [H | H]]]; try contradiction; try congruence;
        try discriminate H ].
    all: try (assert (pg' = pg) as -> by congruence).
    all: unfold count_events; filter_events; try reflexivity.
Qed.

(** X10: when every endpoint has gone by the end of the grace period,
    [dev_stop_paging] goes through with the shutdown and does not turn
    caching back on.  Entered with the lock free, with a pager, live ports on
    entry and none after the grace period, it keeps [success] set, clears
    the pager reference, has called [pager_change_attributes] with may_cache
    0 once for every port live on entry and [pager_shutdown] on the pager,
    makes no call with may_cache 1, and leaves the heap as the grace period
    left it. *)
Theorem dev_stop_paging_idle_shuts_down (st : state) (pg : pager_ptr) :
  io_state (st_dev st) = false ->
  pager (st_dev st) = Some pg ->
  live_endpoints st <> [] ->
  remaining_endpoints st = [] ->
  (stop_paging_attempt 0 st).1 = Done 1
  /\ pager (st_dev (dev_stop_paging 0 st).2) = None
  /\ st_ports (dev_stop_paging 0 st).2 = after_grace st
  /\ filter (fun e => is_change_attributes e = true)
            (events_since st (dev_stop_paging 0 st).2)
     = change_events 0 MEMORY_OBJECT_COPY_DELAY 1 (live_endpoints st)
  /\ filter (fun e => is_pager_shutdown e = true)
            (events_since st (dev_stop_paging 0 st).2)
     = [Ev_pager_shutdown pg].
Proof.
  intros Hfree Hpg Hlive Hrem.
  pose proof (stop_paging_attempt_idle st pg Hpg Hlive Hrem Hfree) as Hattempt.
  rewrite (dev_stop_paging_relock _ _ _ _ Hattempt eq_refl), Hattempt.
  cbn [fst snd].
  erewrite events_since_waiting by (cbn [st_trace]; reflexivity).
  unfold waiting. cbn [st_dev st_ports].
  repeat split; filter_events; reflexivity.
Qed.

(** The state [dev_stop_paging] ends in: the lock is held, and the class of
    the device is what it was. *)
Lemma dev_stop_paging_end (st : state) (nosync : Z) :
  io_state (st_dev (dev_stop_paging nosync st).2) = true
  /\ flags (st_dev (dev_stop_paging nosync st).2) = flags (st_dev st).
Proof.
  destruct (io_state (st_dev st)) eqn:Hlock.
  - rewrite (dev_stop_paging_held st nosync Hlock). cbn [snd waiting st_dev].
    split; [exact Hlock | reflexivity].
  - destruct (dev_stop_paging_runs st nosync Hlock)
      as (success & st1 & Hrun & _ & Hstop).
    rewrite Hstop. unfold waiting. cbn [snd st_dev].
    inversion Hrun; subst; split; reflexivity.
Qed.

(** X11: a second [dev_stop_paging] does not run.  Whatever the state and
    [nosync] of the first call, it ends with the lock held; a later
    [dev_stop_paging] waits at line 169, having made its first
    [io_state_lock] call and nothing else, so it changes no port's
    attributes, does not sleep and calls no [pager_shutdown].  And after a
    first call with [nosync] set the endpoints that were live are still
    live. *)
Theorem dev_stop_paging_twice (st : state) (nosync nosync' : Z) :
  io_state (st_dev (dev_stop_paging nosync st).2) = true
  /\ dev_stop_paging nosync' (dev_stop_paging nosync st).2
     = (Blocked, waiting (dev_stop_paging nosync st).2)
  /\ events_since (dev_stop_paging nosync st).2
       (dev_stop_paging nosync' (dev_stop_paging nosync st).2).2
     = [Ev_io_state_lock]
  /\ (nosync <> 0 ->
      live_endpoints (dev_stop_paging nosync st).2 = live_endpoints st).
Proof.
  destruct (dev_stop_paging_end st nosync) as [Hheld _].
  split; [exact Hheld |].
  rewrite (dev_stop_paging_held _ nosync' Hheld). cbn [snd].
  split; [reflexivity |]. split.
  - apply events_since_app. reflexivity.
  - intros Hn. destruct (io_state (st_dev st)) eqn:Hlock.
    + rewrite (dev_stop_paging_held st nosync Hlock). reflexivity.
    + rewrite (dev_stop_paging_relock _ _ _ _
                 (stop_paging_attempt_nosync st nosync Hn Hlock) eq_refl).
      reflexivity.
Qed.

Ltac get_memory_object_paths st Hserial Hfree :=
  destruct st as [[pt fl pg bk sz bs lk] h t]; simpl in *; subst lk;
  run_lifecycle; rewrite Hserial;
  destruct bk as [b |]; destruct pg as [p |]; simpl;
  try (destruct (pager_create_fails _) eqn:Hcreate; simpl);
  try match goal with
      | |- context [negb (?n =? MACH_PORT_NULL)] =>
          destruct (negb (n =? MACH_PORT_NULL)) eqn:Hname
      end; simpl;
  repeat rewrite <- app_assoc; simpl.

(** The calls of one [dev_get_memory_object] on a pageable device whose lock
    is free, counted by kind. *)
Lemma dev_get_memory_object_calls (st : state) :
  dev_is (st_dev st) DEV_SERIAL = false ->
  io_state (st_dev st) = false ->
  exists evs : list event,
    st_trace (dev_get_memory_object st).2 = st_trace st ++ evs
    /\ count_events is_io_state_lock evs = 1%nat
    /\ count_events is_io_state_unlock evs = 1%nat
    /\ count_events is_create_bucket evs
       = (if pager_port_bucket (st_dev st) is Some _ then 0 else 1)%nat
    /\ count_events is_cthread_fork evs
       = (if pager_port_bucket (st_dev st) is Some _ then 0 else 1)%nat
    /\ count_events is_pager_create evs
       = (if pager (st_dev st) is Some _ then 0 else 1)%nat
    /\ count_events is_port_ref evs
       = (if pager (st_dev st) is Some _ then 1 else 0)%nat
    /\ count_events is_port_deref evs
       = (if pager (st_dev (dev_get_memory_object st).2) is Some _ then 1 else 0)%nat
    /\ count_events is_pager_created evs
       = (if pager (st_dev st) is Some _ then 0
          else if pager (st_dev (dev_get_memory_object st).2) is Some _ then 1 else 0)%nat.
Proof.
  intros Hserial Hfree. get_memory_object_paths st Hserial Hfree.
  all: eexists; split; [reflexivity |].
  all: repeat split; reflexivity.
Qed.

(** What one [dev_get_memory_object] on a pageable device whose lock is free
    does to the descriptor, and that it returns. *)
Lemma dev_get_memory_object_descriptor (st : state) :
  dev_is (st_dev st) DEV_SERIAL = false ->
  io_state (st_dev st) = false ->
  is_Some (pager_port_bucket (st_dev (dev_get_memory_object st).2))
  /\ (forall b, pager_port_bucket (st_dev st) = Some b ->
        pager_port_bucket (st_dev (dev_get_memory_object st).2) = Some b)
  /\ (forall p, pager (st_dev st) = Some p ->
        pager (st_dev (dev_get_memory_object st).2) = Some p)
  /\ flags (st_dev (dev_get_memory_object st).2) = flags (st_dev st)
  /\ port (st_dev (dev_get_memory_object st).2) = port (st_dev st)
  /\ size (st_dev (dev_get_memory_object st).2) = size (st_dev st)
  /\ dev_block_size (st_dev (dev_get_memory_object st).2)
     = dev_block_size (st_dev st)
  /\ io_state (st_dev (dev_get_memory_object st).2) = false
  /\ (exists (e : error_t) (memobj : option Z),
        (dev_get_memory_object st).1 = Done (e, memobj)).
Proof.
  intros Hserial Hfree. get_memory_object_paths st Hserial Hfree.
  all: repeat split; eauto; intros ? H; try discriminate H; exact H.
Qed.

Lemma dev_get_memory_object_serial_run (st : state) :
  dev_is (st_dev st) DEV_SERIAL = true ->
  dev_get_memory_object st = (Done (ENODEV, None), st).
Proof. intros Hserial. run_lifecycle. rewrite Hserial. reflexivity. Qed.

(** X12: [dev_get_memory_object] releases the lock it takes.  On a serial
    device it touches the lock not at all.  On any other device it calls
    [io_state_lock] once.  Entered with the lock free it then calls
    [io_state_unlock] once, on every path, also when it returns ENODEV
    because no pager could be created and when [mach_port_insert_right]
    fails; it returns, and the lock is free again.  Entered with the lock
    held it waits at line 233 and has made no other call. *)
Theorem dev_get_memory_object_lock_balance (st : state) :
  count_events is_io_state_lock
    (events_since st (dev_get_memory_object st).2)
  = (if dev_is (st_dev st) DEV_SERIAL then 0 else 1)%nat
  /\ count_events is_io_state_unlock
       (events_since st (dev_get_memory_object st).2)
     = (if dev_is (st_dev st) DEV_SERIAL then 0
        else if io_state (st_dev st) then 0 else 1)%nat
  /\ (io_state (st_dev st) = false ->
      count_events is_io_state_lock
        (events_since st (dev_get_memory_object st).2)
      = count_events is_io_state_unlock
          (events_since st (dev_get_memory_object st).2)
      /\ io_state (st_dev (dev_get_memory_object st).2) = false
      /\ exists (e : error_t) (memobj : option Z),
           (dev_get_memory_object st).1 = Done (e, memobj))
  /\ (dev_is (st_dev st) DEV_SERIAL = false ->
      io_state (st_dev st) = true ->
      dev_get_memory_object st = (Blocked, waiting st)).
Proof.
  destruct (dev_is (st_dev st) DEV_SERIAL) eqn:Hserial.
  - rewrite (dev_get_memory_object_serial_run st Hserial). cbn [fst snd].
    rewrite (events_since_app st st []) by (symmetry; apply app_nil_r).
    split; [reflexivity |]. split; [reflexivity |]. split.
    + intros Hfree. split; [reflexivity |]. split; [exact Hfree |]. eauto.
    + intros H. discriminate H.
  - destruct (io_state (st_dev st)) eqn:Hlock.
    + rewrite (dev_get_memory_object_held st Hserial Hlock). cbn [snd].
      rewrite (events_since_waiting st st []) by (symmetry; apply app_nil_r).
      split; [reflexivity |]. split; [reflexivity |].
      split; [intros H; discriminate H | reflexivity].
    + destruct (dev_get_memory_object_calls st Hserial Hlock)
        as (evs & Htr & Hlocks & Hunlocks & _).
      destruct (dev_get_memory_object_descriptor st Hserial Hlock)
        as (_ & _ & _ & _ & _ & _ & _ & Hfree & Hdone).
      rewrite (events_since_app _ _ _ Htr). rewrite Hlocks, Hunlocks.
      split; [reflexivity |]. split; [reflexivity |]. split.
      * intros _. split; [reflexivity |]. split; [exact Hfree | exact Hdone].
      * intros _ H. discriminate H.
Qed.

(** X13: [dev_get_memory_object] drops exactly the references it acquires.
    In one call the number of [ports_port_deref] calls equals the number of
    [ports_port_ref] calls plus the number of [pager_create] calls that
    returned a pager, and it is at most one: one where the call reaches a
    pager, none on a serial device, when [pager_create] fails or when the
    call waits for the lock. *)
Theorem dev_get_memory_object_reference_balance (st : state) :
  count_events is_port_deref (events_since st (dev_get_memory_object st).2)
  = (count_events is_port_ref (events_since st (dev_get_memory_object st).2)
     + count_events is_pager_created
         (events_since st (dev_get_memory_object st).2))%nat
  /\ (count_events is_port_deref
        (events_since st (dev_get_memory_object st).2) <= 1)%nat.
Proof.
  destruct (dev_is (st_dev st) DEV_SERIAL) eqn:Hserial.
  - rewrite (dev_get_memory_object_serial_run st Hserial). cbn [snd].
    rewrite (events_since_app st st []) by (symmetry; apply app_nil_r).
    split; [reflexivity | apply Nat.le_0_l].
  - destruct (io_state (st_dev st)) eqn:Hlock.
    + rewrite (dev_get_memory_object_held st Hserial Hlock). cbn [snd].
      rewrite (events_since_waiting st st []) by (symmetry; apply app_nil_r).
      split; [reflexivity | apply Nat.le_0_l].
    + destruct (dev_get_memory_object_calls st Hserial Hlock)
        as (evs & Htr & _ & _ & _ & _ & _ & Href & Hderef & Hcreated).
      destruct (dev_get_memory_object_descriptor st Hserial Hlock)
        as (_ & _ & Hkeep & _).
      rewrite (events_since_app _ _ _ Htr). rewrite Href, Hderef, Hcreated.
      destruct (pager (st_dev st)) as [p |] eqn:Hp.
      * rewrite (Hkeep p eq_refl). split; [reflexivity | apply Nat.le_refl].
      * destruct (pager (st_dev (dev_get_memory_object st).2));
          split; try reflexivity; auto.
Qed.

(** X14: the bucket of a device is created once and kept.  On a pageable
    device whose lock is free [dev_get_memory_object] calls
    [ports_create_bucket] and forks the paging thread exactly once if the
    descriptor has no bucket and not at all if it has one; afterwards the
    descriptor has a bucket, on every path (also when the call fails), and a
    bucket that was there is still the same one.  While the lock is held the
    call waits and creates nothing. *)
Theorem dev_get_memory_object_bucket_once (st : state) :
  dev_is (st_dev st) DEV_SERIAL = false ->
  (io_state (st_dev st) = false ->
   count_events is_create_bucket (events_since st (dev_get_memory_object st).2)
   = (if pager_port_bucket (st_dev st) is Some _ then 0 else 1)%nat
   /\ count_events is_cthread_fork
        (events_since st (dev_get_memory_object st).2)
      = (if pager_port_bucket (st_dev st) is Some _ then 0 else 1)%nat
   /\ is_Some (pager_port_bucket (st_dev (dev_get_memory_object st).2))
   /\ (forall b, pager_port_bucket (st_dev st) = Some b ->
         pager_port_bucket (st_dev (dev_get_memory_object st).2) = Some b))
  /\ (io_state (st_dev st) = true ->
      count_events is_create_bucket
        (events_since st (dev_get_memory_object st).2) = 0%nat
      /\ pager_port_bucket (st_dev (dev_get_memory_object st).2)
         = pager_port_bucket (st_dev st)).
Proof.
  intros Hserial. split.
  - intros Hfree.
    destruct (dev_get_memory_object_calls st Hserial Hfree)
      as (evs & Htr & _ & _ & Hbucket & Hfork & _).
    destruct (dev_get_memory_object_descriptor st Hserial Hfree)
      as (Hsome & Hkeep & _).
    rewrite (events_since_app _ _ _ Htr).
    repeat split; assumption.
  - intros Hheld. rewrite (dev_get_memory_object_held st Hserial Hheld). cbn [snd].
    rewrite (events_since_waiting st st []) by (symmetry; apply app_nil_r).
    split; reflexivity.
Qed.

(** X15: after [dev_stop_paging] no memory object can be had.  Whatever the
    state and [nosync], [dev_stop_paging] leaves the lock held, so the next
    [dev_get_memory_object] on a pageable device waits at line 233: it has
    made its [io_state_lock] call and nothing else; no bucket and no pager is
    created, no reference is taken and no handle is stored. *)
Theorem dev_get_memory_object_after_stop (st : state) (nosync : Z) :
  dev_is (st_dev st) DEV_SERIAL = false ->
  dev_get_memory_object (dev_stop_paging nosync st).2
  = (Blocked, waiting (dev_stop_paging nosync st).2)
  /\ events_since (dev_stop_paging nosync st).2
       (dev_get_memory_object (dev_stop_paging nosync st).2).2
     = [Ev_io_state_lock]
  /\ st_dev (dev_get_memory_object (dev_stop_paging nosync st).2).2
     = st_dev (dev_stop_paging nosync st).2
  /\ st_ports (dev_get_memory_object (dev_stop_paging nosync st).2).2
     = st_ports (dev_stop_paging nosync st).2.
Proof.
  intros Hserial.
  destruct (dev_stop_paging_end st nosync) as [Hheld Hflags].
  assert (Hserial1 : dev_is (st_dev (dev_stop_paging nosync st).2) DEV_SERIAL = false).
  { unfold dev_is in *. rewrite Hflags. exact Hserial. }
  rewrite (dev_get_memory_object_held _ Hserial1 Hheld). cbn [snd].
  split; [reflexivity |]. split; [| split; reflexivity].
  apply events_since_app. reflexivity.
Qed.

(** X16: when [pager_create] fails on a device without a pager.  Entered
    with the lock free, [dev_get_memory_object] returns ENODEV and stores no
    handle; the pager reference stays NULL and no pager is added, there is no
    [pager_get_port], [ports_port_deref] or [mach_port_insert_right] call,
    and the lock has been released; but the bucket created on the way
    stays.  Entered with the lock held, the call waits at line 233. *)
Theorem dev_get_memory_object_create_fails (st : state) :
  dev_is (st_dev st) DEV_SERIAL = false ->
  pager (st_dev st) = None ->
  (forall t, pager_create_fails t = true) ->
  (io_state (st_dev st) = false ->
   (dev_get_memory_object st).1 = Done (ENODEV, None)
   /\ pager (st_dev (dev_get_memory_object st).2) = None
   /\ is_Some (pager_port_bucket (st_dev (dev_get_memory_object st).2))
   /\ pagers (st_ports (dev_get_memory_object st).2) = pagers (st_ports st)
   /\ count_events is_port_deref
        (events_since st (dev_get_memory_object st).2) = 0%nat
   /\ count_events is_insert_right
        (events_since st (dev_get_memory_object st).2) = 0%nat
   /\ count_events is_io_state_unlock
        (events_since st (dev_get_memory_object st).2) = 1%nat
   /\ io_state (st_dev (dev_get_memory_object st).2) = false)
  /\ (io_state (st_dev st) = true ->
      dev_get_memory_object st = (Blocked, waiting st)).
Proof.
  intros Hserial Hpg Hfail. split.
  - intros Hfree.
    destruct st as [[pt fl pg bk sz bs lk] h t]; simpl in *. subst pg lk.
    run_lifecycle. rewrite Hserial.
    destruct bk as [b |]; simpl; rewrite Hfail; simpl.
    all: erewrite events_since_app;
      [| simpl; repeat rewrite <- app_assoc; simpl; reflexivity].
    all: repeat split; eauto.
  - intros Hheld. apply (dev_get_memory_object_held st Hserial Hheld).
Qed.

(** X17: what [dev_get_memory_object] returns for a device that has its
    pager.  Entered with the lock free, it returns, and the handle stored is
    the name of the pager's port, on every path.  If that name is
    MACH_PORT_NULL the call returns 0 and makes no [mach_port_insert_right];
    otherwise it makes exactly one [mach_port_insert_right] of a send right
    on that name and returns its return code unchanged, whatever the code is.
    Entered with the lock held, the call waits at line 233. *)
Theorem dev_get_memory_object_handle (st : state) (p : pager_ptr)
    (b : bucket_ptr) :
  let name := port_of (st_ports st) p in
  let before_insert :=
    st_trace st ++ [Ev_io_state_lock; Ev_ports_port_ref p; Ev_io_state_unlock;
                    Ev_pager_get_port p; Ev_ports_port_deref p] in
  dev_is (st_dev st) DEV_SERIAL = false ->
  pager (st_dev st) = Some p ->
  pager_port_bucket (st_dev st) = Some b ->
  (io_state (st_dev st) = false ->
   (exists e : error_t, (dev_get_memory_object st).1 = Done (e, Some name))
   /\ (name = MACH_PORT_NULL ->
       (dev_get_memory_object st).1 = Done (0, Some name)
       /\ st_trace (dev_get_memory_object st).2 = before_insert)
   /\ (name <> MACH_PORT_NULL ->
       (dev_get_memory_object st).1
       = Done (insert_right_reply before_insert name name
                 MACH_MSG_TYPE_MAKE_SEND,
               Some name)
       /\ st_trace (dev_get_memory_object st).2
          = before_insert
            ++ [Ev_mach_port_insert_right name name MACH_MSG_TYPE_MAKE_SEND]))
  /\ (io_state (st_dev st) = true ->
      dev_get_memory_object st = (Blocked, waiting st)).
Proof.
  intros name before_insert Hserial Hp Hb. split;
    [| intros Hheld; apply (dev_get_memory_object_held st Hserial Hheld)].
  unfold before_insert, name. clear before_insert name.
  destruct st as [[pt fl pg bk sz bs lk] h t]. simpl in *.
  subst pg bk. intros ->.
  run_lifecycle. rewrite Hserial. simpl.
  rewrite (port_of_alter (add_refs 1)) by apply add_refs_port.
  set (name := port_of h p).
  destruct (Z.eqb_spec name MACH_PORT_NULL) as [Hnull | Hnonnull]; simpl.
  - split; [eexists; reflexivity |]. split; [| intros H; contradiction].
    intros _. split; [reflexivity |]. repeat rewrite <- app_assoc. reflexivity.
  - split; [eexists; reflexivity |]. split; [intros H; contradiction |].
    intros _. repeat rewrite <- app_assoc. simpl. split; reflexivity.
Qed.

End LifecycleFacts.

(** ** The further properties on concrete devices *)

Lemma top_disk_request : @top_request healthy top_disk 4294963200.
Proof.
  split; simpl; unfold Word.int_max, Word.modulus; lia.
Defined.

Lemma top_disk_writable : ~ @read_only healthy top_disk.
Proof. intros H. apply H. reflexivity. Defined.

Lemma blockless_disk_writable : ~ @read_only healthy blockless_disk.
Proof. intros H. apply H. reflexivity. Defined.

Lemma callbacks_agree_on_read_only_witness :
  (@pager_read_page healthy 0 (start blockless_disk)).1 = Trapped
  /\ (exists (err : error_t) (rbuf : list byte),
        (@pager_read_page healthy 0 (start (disk 2))).1 = Done (err, rbuf, 2))
  /\ (@pager_unlock_page healthy 0 (start (disk 2))).1 = Done EROFS.
Proof.
  split; [| split].
  - exact (proj1 (@callbacks_agree_on_read_only healthy (start blockless_disk)
                    0 8192 0)).
  - exact (proj1 (@callbacks_agree_on_read_only healthy (start (disk 2))
                    0 8192 0)).
  - apply (proj1 (proj2 (@callbacks_agree_on_read_only healthy (start (disk 2))
                           0 8192 0))).
    vm_compute. discriminate.
Defined.

Lemma transfer_within_reported_extent_witness :
  @valid_request healthy (disk 0) 4096
  /\ @transfer_size healthy (disk 0) 4096 = 904
  /\ exists (offset extent : Z),
       pager_report_extent (start (disk 0))
       = (Done (0, offset, extent), start (disk 0))
       /\ 4096 + @transfer_size healthy (disk 0) 4096 <= extent.
Proof.
  assert (Hv : @valid_request healthy (st_dev (start (disk 0))) 4096)
    by (apply disk_request_valid; lia).
  destruct (@transfer_within_reported_extent healthy (start (disk 0)) 4096 Hv)
    as (offset & extent & Hrun & _ & _ & _ & _ & Hend & _).
  split; [exact Hv |]. split; [reflexivity |].
  exists offset, extent. split; [exact Hrun | exact Hend].
Defined.

Lemma pager_write_page_wraps_at_top_witness :
  ~ @read_only healthy top_disk
  /\ @top_request healthy top_disk 4294963200
  /\ size top_disk - 4294963200 < 4096
  /\ st_trace (@pager_write_page healthy 4294963200 8192 (start top_disk)).2
     = [Ev_device_write 11 0 8388600 8192 4096; Ev_vm_deallocate 8192 4096].
Proof.
  destruct (@pager_write_page_wraps_at_top healthy (start top_disk) 4294963200
              8192 top_disk_writable top_disk_request) as (Hshort & Htrace).
  split; [exact top_disk_writable |]. split; [exact top_disk_request |].
  split; [exact Hshort | exact Htrace].
Defined.

Lemma pager_read_page_outcome_witness :
  @valid_request rejecting (disk 0) 4096
  /\ exists (err : error_t) (rbuf : list byte),
       (@pager_read_page rejecting 4096 (start (disk 0))).1
       = Done (err, rbuf, 0)
       /\ st_trace (@pager_read_page rejecting 4096 (start (disk 0))).2
          = [Ev_device_read 11 0 8 904]
       /\ err = EIO.
Proof.
  assert (Hv : @valid_request rejecting (st_dev (start (disk 0))) 4096)
    by (split; simpl; unfold Word.int_max, Word.modulus; lia).
  destruct (@pager_read_page_outcome rejecting (start (disk 0)) 4096 Hv)
    as (err & rbuf & Hrun & Htrace & Heio & _).
  split; [exact Hv |].
  exists err, rbuf. split; [exact Hrun |]. split; [exact Htrace |].
  apply Heio. left. vm_compute. discriminate.
Defined.

Lemma pager_read_page_buffer_witness :
  @valid_request healthy (disk 0) 0
  /\ 0 + 4096 <= size (disk 0)
  /\ exists (err : error_t) (writelock : Z),
       (@pager_read_page healthy 0 (start (disk 0))).1
       = Done (err, rd_region (@device_read_reply healthy [] 11 0 0 4096),
               writelock).
Proof.
  assert (Hv : @valid_request healthy (st_dev (start (disk 0))) 0)
    by (apply disk_request_valid; lia).
  assert (Hfull : 0 + 4096 <= size (disk 0)) by (simpl; lia).
  destruct (@pager_read_page_buffer healthy (start (disk 0)) 0 Hv)
    as (err & rbuf & writelock & Hrun & _ & Hwhole & _).
  split; [exact Hv |]. split; [exact Hfull |].
  exists err, writelock. rewrite Hrun, (Hwhole Hfull). reflexivity.
Defined.

Lemma pager_write_page_releases_iff_writable_witness :
  ~ @read_only healthy blockless_disk
  /\ Word.to_uint (dev_block_size blockless_disk) = 0
  /\ @pager_write_page healthy 0 8192 (start blockless_disk)
     = (Trapped, start blockless_disk)
  /\ count_events is_vm_deallocate
       (events_since (start (disk 0))
          (@pager_write_page healthy 0 8192 (start (disk 0))).2) = 1%nat.
Proof.
  destruct (@pager_write_page_releases_iff_writable healthy
              (start blockless_disk) 0 8192) as (_ & Htrap & _).
  destruct (@pager_write_page_releases_iff_writable healthy
              (start (disk 0)) 0 8192) as (Hrelease & _ & _).
  split; [exact blockless_disk_writable |]. split; [reflexivity |].
  split; [exact (Htrap blockless_disk_writable eq_refl) |].
  apply Hrelease; [exact disk_writable | vm_compute; discriminate].
Defined.

Lemma dev_stop_paging_idle_shuts_down_witness :
  io_state (st_dev mapped) = false
  /\ pager (st_dev mapped) = Some 1%positive
  /\ live_endpoints mapped <> []
  /\ @remaining_endpoints idle_clients mapped = []
  /\ (@stop_paging_attempt idle_clients 0 mapped).1 = Done 1
  /\ pager (st_dev (@dev_stop_paging idle_clients 0 mapped).2) = None.
Proof.
  assert (Hlive : live_endpoints mapped <> []) by (vm_compute; discriminate).
  assert (Hrem : @remaining_endpoints idle_clients mapped = [])
    by (vm_compute; reflexivity).
  destruct (@dev_stop_paging_idle_shuts_down idle_clients mapped 1%positive
              eq_refl eq_refl Hlive Hrem) as (Hok & Hnull & _).
  split; [reflexivity |]. split; [reflexivity |]. split; [exact Hlive |].
  split; [exact Hrem |]. split; [exact Hok | exact Hnull].
Defined.

Lemma dev_get_memory_object_bucket_once_witness :
  @dev_is (disk 0) (@DEV_SERIAL healthy) = false
  /\ count_events is_create_bucket
       (events_since (start (disk 0))
          (@dev_get_memory_object healthy (start (disk 0))).2) = 1%nat
  /\ count_events is_create_bucket
       (events_since mapped (@dev_get_memory_object healthy mapped).2) = 0%nat
  /\ count_events is_create_bucket
       (events_since mapped_locked
          (@dev_get_memory_object healthy mapped_locked).2) = 0%nat.
Proof.
  destruct (@dev_get_memory_object_bucket_once healthy (start (disk 0)) eq_refl)
    as (Hnew & _).
  destruct (@dev_get_memory_object_bucket_once healthy mapped eq_refl)
    as (Hold & _).
  destruct (@dev_get_memory_object_bucket_once healthy mapped_locked eq_refl)
    as (_ & Hheld).
  split; [reflexivity |]. split; [exact (proj1 (Hnew eq_refl)) |].
  split; [exact (proj1 (Hold eq_refl)) | exact (proj1 (Hheld eq_refl))].
Defined.

Lemma dev_get_memory_object_after_stop_witness :
  @dev_is (st_dev quiet) (@DEV_SERIAL healthy) = false
  /\ (@dev_get_memory_object healthy (@dev_stop_paging healthy 0 quiet).2).1
     = Blocked
  /\ events_since (@dev_stop_paging healthy 0 quiet).2
       (@dev_get_memory_object healthy (@dev_stop_paging healthy 0 quiet).2).2
     = [Ev_io_state_lock].
Proof.
  destruct (@dev_get_memory_object_after_stop healthy quiet 0 eq_refl)
    as (Hrun & Hevents & _).
  split; [reflexivity |]. split; [rewrite Hrun; reflexivity | exact Hevents].
Defined.

Lemma dev_get_memory_object_create_fails_witness :
  @dev_is (disk 0) (@DEV_SERIAL out_of_pagers) = false
  /\ io_state (disk 0) = false
  /\ pager (disk 0) = None
  /\ (forall t, @pager_create_fails out_of_pagers t = true)
  /\ (@dev_get_memory_object out_of_pagers (start (disk 0))).1
     = Done (ENODEV, None)
  /\ is_Some (pager_port_bucket
                (st_dev (@dev_get_memory_object out_of_pagers (start (disk 0))).2)).
Proof.
  assert (Hfail : forall t, @pager_create_fails out_of_pagers t = true)
    by (intros t; reflexivity).
  destruct (@dev_get_memory_object_create_fails out_of_pagers (start (disk 0))
              eq_refl eq_refl Hfail) as (Hfree & _).
  destruct (Hfree eq_refl) as (Herr & _ & Hbucket & _).
  split; [reflexivity |]. split; [reflexivity |]. split; [reflexivity |].
  split; [exact Hfail |]. split; [exact Herr | exact Hbucket].
Defined.

Lemma dev_get_memory_object_handle_witness :
  @dev_is (st_dev mapped) (@DEV_SERIAL healthy) = false
  /\ io_state (st_dev mapped) = false
  /\ pager (st_dev mapped) = Some 1%positive
  /\ pager_port_bucket (st_dev mapped) = Some 1%positive
  /\ exists e : error_t,
       (@dev_get_memory_object healthy mapped).1 = Done (e, Some 77).
Proof.
  destruct (@dev_get_memory_object_handle healthy mapped 1%positive 1%positive
              eq_refl eq_refl eq_refl) as (Hfree & _).
  destruct (Hfree eq_refl) as (Hname & _).
  split; [reflexivity |]. split; [reflexivity |]. split; [reflexivity |].
  split; [reflexivity |]. exact Hname.
Defined.
(** ** Properties of [diskfs_S_io_write] *)

Module IoWriteFacts.

Import IoWrite.

Section Facts.

Context `{F : Filesystem}.

Lemma to_int_minus_one : Word.to_int (-1) = -1.
Proof. reflexivity. Qed.

Lemma int_small z : 0 <= z < Word.int_max -> Word.to_int z = z.
Proof.
  intros. unfold Word.to_int.
  rewrite Z.mod_small; unfold Word.int_max, Word.modulus in *; lia.
Qed.

Lemma uint_small z : 0 <= z < Word.int_max -> Word.to_uint z = z.
Proof.
  intros. unfold Word.to_uint.
  rewrite Z.mod_small; unfold Word.int_max, Word.modulus in *; lia.
Qed.

Lemma beyond_in_range off datalen bound :
  0 <= off + datalen < Word.int_max ->
  0 <= bound < Word.int_max ->
  beyond off datalen bound = (off + datalen >? bound).
Proof. intros H1 H2. unfold beyond. rewrite !uint_small by lia. reflexivity. Qed.

Lemma update_if_synchronous_np s : np (update_if_synchronous s) = np s.
Proof. unfold update_if_synchronous. destruct (negb _); reflexivity. Qed.

Lemma update_if_synchronous_po s : po (update_if_synchronous s) = po s.
Proof. unfold update_if_synchronous. destruct (negb _); reflexivity. Qed.

(** With an honest [diskfs_grow] the loop runs at most once. *)
Lemma grow_loop_once (fuel : nat) (off datalen : Z) (s : fs) :
  grows ->
  0 <= off + datalen < Word.int_max ->
  0 <= allocsize (np s) < Word.int_max ->
  grow_loop (S fuel) off datalen s
  = Some (if off + datalen >? allocsize (np s)
          then
            let r := grow_reply (calls s) (np s) (off + datalen) in
            (r.1, update_if_synchronous
                    (set_allocsize r.2 (record (diskfs_grow (off + datalen)) s)))
          else (0, s)).
Proof.
  intros Hgrows Hend Halloc. cbn [grow_loop].
  rewrite beyond_in_range by assumption.
  destruct (off + datalen >? allocsize (np s)); [| reflexivity].
  rewrite uint_small, int_small by lia.
  change (np (record (diskfs_grow (off + datalen)) s)) with (np s).
  destruct (grow_reply (calls s) (np s) (off + datalen)) as [err alloc] eqn:Hreply.
  cbn [fst snd].
  destruct (Z.eqb_spec err 0) as [He | He]; [| reflexivity].
  cbn [negb]. subst err.
  pose proof (Hgrows (calls s) (np s) (off + datalen)) as Hg.
  rewrite Hreply in Hg. cbn [fst snd] in Hg. specialize (Hg eq_refl).
  destruct fuel as [| fuel]; cbn [grow_loop];
    rewrite update_if_synchronous_np; cbn [np set_allocsize allocsize];
    rewrite beyond_in_range by lia;
    (destruct (Z.gtb_spec (off + datalen) alloc); [lia | reflexivity]).
Qed.

Lemma start_offset_plain offset s :
  0 <= offset -> start_offset offset s = offset.
Proof.
  intros H. unfold start_offset.
  destruct (Z.eqb_spec offset (-1)); [lia | reflexivity].
Qed.

(** In range, on a filesystem that grows, [diskfs_S_io_write] returns with
    any positive fuel and does what [ideal_write] does. *)
Ltac norm_fs :=
  repeat (progress cbn [np po calls record set_filepointer set_allocsize
                        extend_size st_size allocsize filepointer openstat
                        st_mode dn_set_ctime fst snd]
          || rewrite update_if_synchronous_np
          || rewrite update_if_synchronous_po).

Ltac finish_write :=
  rewrite grow_loop_once by (assumption || (norm_fs; lia));
  norm_fs;
  match goal with
  | |- context [?e >? allocsize ?n] => destruct (e >? allocsize n)
  end;
  cbn [fst snd];
  [ match goal with
    | |- context [negb (?e =? 0)] => destruct (negb (e =? 0))
    end; [reflexivity |]
  | cbn [negb Z.eqb] ];
  norm_fs;
  rewrite ?beyond_in_range by (norm_fs; lia);
  rewrite ?uint_small by lia; rewrite ?int_small by lia;
  repeat match goal with
         | |- context [if ?a >? ?b then _ else _] => destruct (a >? b)
         end;
  norm_fs; rewrite ?int_small by lia; rewrite ?andb_false_r;
  reflexivity.

Lemma io_write_in_range (fuel : nat) (c : Z) (data : list byte)
    (datalen offset : Z) (s : fs) :
  grows ->
  writable_file s ->
  in_range offset datalen s ->
  diskfs_S_io_write (S fuel) (Some c) data datalen offset s
  = Some (ideal_write data datalen offset s).
Proof.
  intros Hgrows [Hw Hdir] [Hoff Hlen Hstart Hend Hsize Halloc].
  unfold diskfs_S_io_write, ideal_write.
  destruct (Z.eqb_spec (Z.land (openstat (po s)) O_WRITE) 0) as [? | _];
    [contradiction |].
  norm_fs. rewrite Hdir.
  destruct Hoff as [-> | Hoff].
  - rewrite to_int_minus_one.
    unfold start_offset in *. rewrite !Z.eqb_refl in *. cbn [andb].
    destruct (negb (Z.land (openstat (po s)) O_APPEND =? 0)).
    + norm_fs. rewrite int_small by lia. finish_write.
    + norm_fs. rewrite int_small by lia. finish_write.
  - rewrite (start_offset_plain offset s Hoff) in *.
    rewrite int_small by lia.
    destruct (Z.eqb_spec offset (-1)); [lia |]. cbn [andb].
    finish_write.
Qed.

Lemma update_if_synchronous_calls s :
  update_if_synchronous s = mk_fs (po s) (np s) (calls s ++ sync_calls).
Proof.
  unfold update_if_synchronous, sync_calls.
  destruct (negb _); [reflexivity |].
  rewrite app_nil_r. destruct s; reflexivity.
Qed.

(** The state once the lock is taken and the write is positioned. *)
Lemma positioned_state (offset : Z) (s : fs) :
  (if (offset =? -1) && negb (Z.land (openstat (po s)) O_APPEND =? 0)
   then set_filepointer (st_size (np s))
          (record ioserver_get_conch (record mutex_lock s))
   else record ioserver_get_conch (record mutex_lock s))
  = mk_fs (mk_peropen (positioned_pointer offset s) (openstat (po s))) (np s)
          (calls s ++ [mutex_lock; ioserver_get_conch]).
Proof.
  unfold positioned_pointer, start_offset, set_filepointer, record.
  cbn [po np calls]. rewrite <- app_assoc. cbn [app].
  destruct (offset =? -1); cbn [andb];
    [destruct (negb _) |]; destruct s as [[fp os] n t]; reflexivity.
Qed.

Ltac unfold_fs :=
  repeat rewrite update_if_synchronous_calls;
  unfold record, set_allocsize, extend_size, set_filepointer;
  cbn [np po calls st_mode st_size dn_set_ctime allocsize filepointer openstat].

Ltac norm_list :=
  repeat first [rewrite <- app_assoc | progress cbn [app] | rewrite app_nil_r].

Ltac finish_closed :=
  repeat unfold_fs; norm_list;
  try match goal with
      | |- context [?x =? -1] => destruct (x =? -1)
      end;
  try match goal with
      | |- context [rdwr_reply ?a ?b ?c ?d ?f =? 0] =>
          destruct (rdwr_reply a b c d f =? 0)
      end;
  cbn [andb]; repeat unfold_fs;
  repeat match goal with
         | |- context [if ?b then _ else _] => destruct b
         end;
  repeat unfold_fs; norm_list; rewrite ?Z.add_0_r;
  reflexivity.

Lemma ideal_write_closed (data : list byte) (datalen offset : Z) (s : fs) :
  ideal_write data datalen offset s
  = if negb (grow_error offset datalen s =? 0)
    then (Returns (grow_error offset datalen s) None,
          mk_fs (mk_peropen (positioned_pointer offset s) (openstat (po s)))
                (mk_node (st_mode (np s)) (st_size (np s)) (dn_set_ctime (np s))
                         (allocsize_after_grow offset datalen s))
                (calls s ++ [mutex_lock; ioserver_get_conch]
                   ++ grow_calls offset datalen s ++ [mutex_unlock]))
    else (Returns (write_error data offset datalen s) (Some datalen),
          mk_fs (mk_peropen
                   (positioned_pointer offset s
                    + (if (write_error data offset datalen s =? 0)
                          && (offset =? -1)
                       then datalen else 0))
                   (openstat (po s)))
                (node_at_write offset datalen s)
                (calls_at_write offset datalen s
                   ++ [rdwr_internal data (start_offset offset s) datalen 1 0]
                   ++ (if (write_error data offset datalen s =? 0)
                          && wants_sync s
                       then [diskfs_file_update 1] else [])
                   ++ [mutex_unlock])).
Proof.
  unfold ideal_write.
  change (po (record ioserver_get_conch (record mutex_lock s))) with (po s).
  change (np (record ioserver_get_conch (record mutex_lock s))) with (np s).
  rewrite positioned_state.
  unfold write_error, calls_at_write, node_at_write, grow_error, grow_calls,
    allocsize_after_grow, grow_answer, needs_grow, extends, end_offset, wants_sync.
  set (e := start_offset offset s + datalen).
  set (start := start_offset offset s).
  set (ptr := positioned_pointer offset s).
  destruct s as [[fp os] [m sz ct al] t].
  cbn [np po calls st_mode st_size dn_set_ctime allocsize filepointer openstat].
  destruct (e >? al); cbn [fst snd].
  - destruct (grow_reply _ _ e) as [gerr alloc]. cbn [fst snd].
    destruct (negb (gerr =? 0)); repeat unfold_fs;
      destruct (e >? sz); finish_closed.
  - cbn [negb Z.eqb]. repeat unfold_fs. destruct (e >? sz); finish_closed.
Qed.

(** The run of a good write, in closed form. *)
Lemma io_write_closed (fuel : nat) (c : Z) (data : list byte)
    (datalen offset : Z) (s : fs) :
  good_write offset datalen s ->
  diskfs_S_io_write (S fuel) (Some c) data datalen offset s
  = Some
      (if negb (grow_error offset datalen s =? 0)
       then (Returns (grow_error offset datalen s) None,
             mk_fs (mk_peropen (positioned_pointer offset s) (openstat (po s)))
                   (mk_node (st_mode (np s)) (st_size (np s))
                            (dn_set_ctime (np s))
                            (allocsize_after_grow offset datalen s))
                   (calls s ++ [mutex_lock; ioserver_get_conch]
                      ++ grow_calls offset datalen s ++ [mutex_unlock]))
       else (Returns (write_error data offset datalen s) (Some datalen),
             mk_fs (mk_peropen
                      (positioned_pointer offset s
                       + (if (write_error data offset datalen s =? 0)
                             && (offset =? -1)
                          then datalen else 0))
                      (openstat (po s)))
                   (node_at_write offset datalen s)
                   (calls_at_write offset datalen s
                      ++ [rdwr_internal data (start_offset offset s) datalen 1 0]
                      ++ (if (write_error data offset datalen s =? 0)
                             && wants_sync s
                          then [diskfs_file_update 1] else [])
                      ++ [mutex_unlock]))).
Proof.
  intros [Hg Hf Hr].
  rewrite (io_write_in_range fuel c data datalen offset s Hg Hf Hr).
  rewrite ideal_write_closed. reflexivity.
Qed.

Lemma filter_sync_calls (f : call -> bool) :
  f (diskfs_node_update 1) = false ->
  filter (fun k => f k = true) sync_calls = [].
Proof.
  intros Hf. unfold sync_calls. destruct (negb _); [| reflexivity].
  rewrite filter_cons_False; [reflexivity |]. rewrite Hf. discriminate.
Qed.

Lemma filter_grow_calls (f : call -> bool) offset datalen s :
  f (diskfs_node_update 1) = false ->
  filter (fun k => f k = true) (grow_calls offset datalen s)
  = if needs_grow offset datalen s
    then filter (fun k => f k = true) [diskfs_grow (end_offset offset datalen s)]
    else [].
Proof.
  intros Hf. unfold grow_calls. destruct (needs_grow offset datalen s); [| reflexivity].
  change (diskfs_grow (end_offset offset datalen s) :: sync_calls)
    with ([diskfs_grow (end_offset offset datalen s)] ++ sync_calls).
  rewrite filter_app, (filter_sync_calls f Hf), app_nil_r. reflexivity.
Qed.

(** X18: the guards of [diskfs_S_io_write], in order.  Without credentials
    it returns EOPNOTSUPP; with credentials on a file not open for writing it
    returns EBADF; in both cases nothing is changed, no lock is taken and
    [*amt] is not stored.  On a directory open for writing the assertion
    fails after the node's lock has been taken, and nothing else has been
    called. *)
Theorem io_write_guards (fuel : nat) (c : Z) (data : list byte)
    (datalen offset : Z) (s : fs) :
  diskfs_S_io_write fuel None data datalen offset s
    = Some (Returns EOPNOTSUPP None, s)
  /\ (Z.land (openstat (po s)) O_WRITE = 0 ->
      diskfs_S_io_write fuel (Some c) data datalen offset s
      = Some (Returns EBADF None, s))
  /\ (Z.land (openstat (po s)) O_WRITE <> 0 ->
      S_ISDIR (st_mode (np s)) = true ->
      diskfs_S_io_write fuel (Some c) data datalen offset s
      = Some (Assertion_failed, mk_fs (po s) (np s) (calls s ++ [mutex_lock]))).
Proof.
  split; [reflexivity |]. split.
  - intros Hw. unfold diskfs_S_io_write. rewrite Hw. reflexivity.
  - intros Hw Hdir. unfold diskfs_S_io_write.
    destruct (Z.eqb_spec (Z.land (openstat (po s)) O_WRITE) 0); [contradiction |].
    norm_fs. rewrite Hdir. reflexivity.
Qed.

(** X19: a good write returns, with any positive fuel.  It takes the node's
    lock first and releases it last and touches the lock nowhere in between,
    on the error paths too; and it calls [diskfs_grow] at most once, exactly
    when the write ends beyond the allocated size. *)
Theorem io_write_returns (fuel : nat) (c : Z) (data : list byte)
    (datalen offset : Z) (s : fs) :
  good_write offset datalen s ->
  exists (err : error_t) (amt : option Z) (s' : fs) (mid : list call),
    diskfs_S_io_write (S fuel) (Some c) data datalen offset s
      = Some (Returns err amt, s')
    /\ calls s'
       = calls s ++ [mutex_lock; ioserver_get_conch] ++ mid ++ [mutex_unlock]
    /\ filter (fun k => is_lock_call k = true) mid = []
    /\ filter (fun k => is_grow k = true) mid
       = if end_offset offset datalen s >? allocsize (np s)
         then [diskfs_grow (end_offset offset datalen s)]
         else [].
Proof.
  intros Hgood. rewrite (io_write_closed fuel c data datalen offset s Hgood).
  destruct (negb (grow_error offset datalen s =? 0)).
  - exists (grow_error offset datalen s), None. eexists.
    exists (grow_calls offset datalen s).
    split; [reflexivity |]. split; [reflexivity |].
    rewrite !filter_grow_calls by reflexivity. unfold needs_grow.
    split; destruct (_ >? _); reflexivity.
  - exists (write_error data offset datalen s), (Some datalen). eexists.
    exists (grow_calls offset datalen s
              ++ (if extends offset datalen s then sync_calls else [])
              ++ [rdwr_internal data (start_offset offset s) datalen 1 0]
              ++ (if (write_error data offset datalen s =? 0) && wants_sync s
                  then [diskfs_file_update 1] else [])).
    split; [reflexivity |]. split.
    { cbn [calls]. unfold calls_at_write. repeat rewrite <- app_assoc. reflexivity. }
    repeat rewrite filter_app.
    rewrite !filter_grow_calls by reflexivity. unfold needs_grow.
    split.
    + destruct (_ >? _); destruct (extends offset datalen s);
        rewrite ?filter_sync_calls by reflexivity;
        destruct (_ && _); reflexivity.
    + destruct (_ >? _); destruct (extends offset datalen s);
        rewrite ?filter_sync_calls by reflexivity;
        destruct (_ && _); reflexivity.
Qed.

Lemma calls_since_app s s' l :
  calls s' = calls s ++ l -> calls_since s s' = l.
Proof. unfold calls_since. intros ->. apply drop_app_length. Qed.

Ltac closed_cases Hgood Hrun :=
  rewrite (io_write_closed _ _ _ _ _ _ Hgood) in Hrun;
  injection Hrun as Hrun;
  let Hg := fresh "Hgrow" in
  destruct (Z.eqb_spec (grow_error _ _ _) 0) as [Hg | Hg];
  cbn [negb] in Hrun;
  injection Hrun as ? ? ?; subst.

(** X20: when [diskfs_grow] fails, a good write returns its error code and
    writes nothing: [*amt] is not stored, [_diskfs_rdwr_internal] and
    [diskfs_file_update] are not called, the size and the ctime flag of the
    node are unchanged, and the lock is released.  The file pointer is left
    where the write was positioned: with [offset] -1 and O_APPEND it has
    been moved to the end of the file. *)
Theorem io_write_grow_failure (fuel : nat) (c : Z) (data : list byte)
    (datalen offset : Z) (s : fs) :
  good_write offset datalen s ->
  grow_error offset datalen s <> 0 ->
  exists s' : fs,
    diskfs_S_io_write (S fuel) (Some c) data datalen offset s
      = Some (Returns (grow_error offset datalen s) None, s')
    /\ filter (fun k => is_rdwr k = true) (calls_since s s') = []
    /\ filter (fun k => is_file_update k = true) (calls_since s s') = []
    /\ st_size (np s') = st_size (np s)
    /\ dn_set_ctime (np s') = dn_set_ctime (np s)
    /\ filepointer (po s') = positioned_pointer offset s
    /\ last (calls s') = Some mutex_unlock.
Proof.
  intros Hgood Hfail.
  rewrite (io_write_closed fuel c data datalen offset s Hgood).
  destruct (Z.eqb_spec (grow_error offset datalen s) 0); [contradiction |].
  cbn [negb]. eexists. split; [reflexivity |].
  erewrite calls_since_app; [| cbn [calls]; reflexivity].
  cbn [np po st_size dn_set_ctime filepointer calls].
  repeat rewrite filter_app. rewrite !filter_grow_calls by reflexivity.
  repeat split; try (destruct (needs_grow offset datalen s); reflexivity).
  repeat rewrite app_assoc. apply last_snoc.
Qed.

(** X21: appending.  When a good write with [offset] -1 on a file opened
    with O_APPEND returns 0, the data were written at the old end of the
    file, whatever the file pointer was, and both the file pointer and the
    size of the file are the old size plus [datalen]. *)
Theorem io_write_append (fuel : nat) (c : Z) (data : list byte)
    (datalen : Z) (s : fs) (amt : option Z) (s' : fs) :
  good_write (-1) datalen s ->
  Z.land (openstat (po s)) O_APPEND <> 0 ->
  diskfs_S_io_write (S fuel) (Some c) data datalen (-1) s
    = Some (Returns 0 amt, s') ->
  amt = Some datalen
  /\ rdwr_internal data (st_size (np s)) datalen 1 0 ∈ calls_since s s'
  /\ filepointer (po s') = st_size (np s) + datalen
  /\ st_size (np s') = st_size (np s) + datalen.
Proof.
  intros Hgood Happend Hrun.
  assert (Hstart : start_offset (-1) s = st_size (np s)).
  { unfold start_offset. cbn [Z.eqb].
    destruct (Z.eqb_spec (Z.land (openstat (po s)) O_APPEND) 0);
      [contradiction | reflexivity]. }
  pose proof (ir_datalen _ _ _ (gw_range _ _ _ Hgood)) as Hlen.
  rewrite (io_write_closed fuel c data datalen (-1) s Hgood) in Hrun.
  injection Hrun as Hrun.
  destruct (Z.eqb_spec (grow_error (-1) datalen s) 0) as [Hg | Hg];
    cbn [negb] in Hrun; injection Hrun as Herr Hamt Hs'; [| congruence].
  subst amt s'. rewrite Herr. cbn [Z.eqb andb po np filepointer st_size].
  split; [reflexivity |]. split; [| split].
  - erewrite calls_since_app;
      [| cbn [calls]; unfold calls_at_write; repeat rewrite <- app_assoc; reflexivity].
    rewrite Hstart. cbn [app].
    do 2 (apply elem_of_cons; right).
    apply elem_of_app; right. apply elem_of_app; right.
    apply elem_of_cons; left. reflexivity.
  - unfold positioned_pointer. cbn [Z.eqb]. rewrite Hstart. reflexivity.
  - unfold node_at_write, extends, end_offset. cbn [st_size]. rewrite Hstart.
    destruct (Z.gtb_spec (st_size (np s) + datalen) (st_size (np s))); lia.
Qed.

(** X22: the file pointer.  After a good write the file pointer is where
    the write was positioned, plus [datalen] if the write had [offset] -1 and
    returned 0, and plus nothing otherwise; so a write at an explicit offset
    never moves the file pointer, and a failed write does not advance it.
    The open flags are unchanged. *)
Theorem io_write_filepointer (fuel : nat) (c : Z) (data : list byte)
    (datalen offset : Z) (s : fs) (err : error_t) (amt : option Z) (s' : fs) :
  good_write offset datalen s ->
  diskfs_S_io_write (S fuel) (Some c) data datalen offset s
    = Some (Returns err amt, s') ->
  filepointer (po s')
    = positioned_pointer offset s
      + (if (err =? 0) && (offset =? -1) then datalen else 0)
  /\ (0 <= offset -> filepointer (po s') = filepointer (po s))
  /\ (err <> 0 -> filepointer (po s') = positioned_pointer offset s)
  /\ openstat (po s') = openstat (po s).
Proof.
  intros Hgood Hrun.
  rewrite (io_write_closed fuel c data datalen offset s Hgood) in Hrun.
  injection Hrun as Hrun.
  destruct (Z.eqb_spec (grow_error offset datalen s) 0) as [Hg | Hg];
    cbn [negb] in Hrun; injection Hrun as Herr Hamt Hs'; subst err amt s';
    cbn [po filepointer openstat]; unfold positioned_pointer.
  - repeat split.
    + intros Hoff. destruct (Z.eqb_spec offset (-1)); [lia |].
      rewrite andb_false_r. lia.
    + intros Hne. destruct (Z.eqb_spec (write_error data offset datalen s) 0);
        [contradiction |]. cbn [andb]. lia.
  - destruct (Z.eqb_spec (grow_error offset datalen s) 0); [contradiction |].
    cbn [andb]. repeat split; try lia.
    intros Hoff. destruct (Z.eqb_spec offset (-1)); lia.
Qed.

(** X23: the size of the file.  A good write never shrinks the file.  When
    [diskfs_grow] failed the size is unchanged; otherwise it is the larger
    of the old size and the end of the write, and this also when the write
    itself then fails: the size is extended before the data are written and
    is not taken back.  The ctime flag is set exactly when the size was
    extended. *)
Theorem io_write_size (fuel : nat) (c : Z) (data : list byte)
    (datalen offset : Z) (s : fs) (err : error_t) (amt : option Z) (s' : fs) :
  good_write offset datalen s ->
  diskfs_S_io_write (S fuel) (Some c) data datalen offset s
    = Some (Returns err amt, s') ->
  st_size (np s) <= st_size (np s')
  /\ st_size (np s')
     = (if amt is Some _
        then Z.max (st_size (np s)) (end_offset offset datalen s)
        else st_size (np s))
  /\ dn_set_ctime (np s')
     = (if st_size (np s) <? st_size (np s') then 1 else dn_set_ctime (np s))
  /\ st_mode (np s') = st_mode (np s).
Proof.
  intros Hgood Hrun.
  rewrite (io_write_closed fuel c data datalen offset s Hgood) in Hrun.
  injection Hrun as Hrun.
  destruct (Z.eqb_spec (grow_error offset datalen s) 0) as [Hg | Hg];
    cbn [negb] in Hrun; injection Hrun as Herr Hamt Hs'; subst err amt s';
    cbn [np st_size st_mode dn_set_ctime].
  - unfold node_at_write, extends. cbn [st_size dn_set_ctime st_mode].
    destruct (Z.gtb_spec (end_offset offset datalen s) (st_size (np s))).
    + destruct (Z.ltb_spec (st_size (np s)) (end_offset offset datalen s));
        repeat split; lia.
    + destruct (Z.ltb_spec (st_size (np s)) (st_size (np s)));
        repeat split; lia.
  - rewrite Z.ltb_irrefl. repeat split; lia.
Qed.

(** X24: what a good write calls.  [_diskfs_rdwr_internal] is called once,
    with the data, the start offset and [datalen], exactly when [*amt] is
    stored, and then [*amt] is [datalen] whether or not the write succeeded;
    [diskfs_file_update] is called once exactly when the write returns 0 and
    the file was opened with O_FSYNC or the filesystem is synchronous. *)
Theorem io_write_calls (fuel : nat) (c : Z) (data : list byte)
    (datalen offset : Z) (s : fs) (err : error_t) (amt : option Z) (s' : fs) :
  good_write offset datalen s ->
  diskfs_S_io_write (S fuel) (Some c) data datalen offset s
    = Some (Returns err amt, s') ->
  (amt = None /\ err <> 0 \/ amt = Some datalen)
  /\ filter (fun k => is_rdwr k = true) (calls_since s s')
     = (if amt is Some _
        then [rdwr_internal data (start_offset offset s) datalen 1 0]
        else [])
  /\ filter (fun k => is_file_update k = true) (calls_since s s')
     = (if (err =? 0) && wants_sync s then [diskfs_file_update 1] else []).
Proof.
  intros Hgood Hrun.
  rewrite (io_write_closed fuel c data datalen offset s Hgood) in Hrun.
  injection Hrun as Hrun.
  destruct (Z.eqb_spec (grow_error offset datalen s) 0) as [Hg | Hg];
    cbn [negb] in Hrun; injection Hrun as Herr Hamt Hs'; subst err amt s'.
  - erewrite calls_since_app;
      [| cbn [calls]; unfold calls_at_write; repeat rewrite <- app_assoc; reflexivity].
    split; [right; reflexivity |].
    change [mutex_lock; ioserver_get_conch]
      with ([mutex_lock] ++ [ioserver_get_conch]).
    repeat rewrite filter_app. rewrite !filter_grow_calls by reflexivity.
    split.
    + destruct (needs_grow offset datalen s); destruct (extends offset datalen s);
        rewrite ?filter_sync_calls by reflexivity;
        destruct (_ && _); reflexivity.
    + destruct (needs_grow offset datalen s); destruct (extends offset datalen s);
        rewrite ?filter_sync_calls by reflexivity;
        destruct (_ && _); reflexivity.
  - erewrite calls_since_app; [| cbn [calls]; reflexivity].
    split; [left; split; [reflexivity | exact Hg] |].
    destruct (Z.eqb_spec (grow_error offset datalen s) 0); [contradiction |].
    cbn [andb].
    repeat rewrite filter_cons_False by (cbn; discriminate).
    repeat rewrite filter_app. rewrite !filter_grow_calls by reflexivity.
    split; destruct (needs_grow offset datalen s); reflexivity.
Qed.

End Facts.

(** *** On a concrete file *)

Lemma sample_grows (sync grow_code rdwr_code : Z) :
  @grows (sample_filesystem sync grow_code rdwr_code).
Proof.
  intros t n new_end. simpl.
  destruct (Z.eqb_spec grow_code 0) as [-> | Hne]; simpl.
  - destruct (Z.ltb_spec new_end Word.int_max); simpl; [lia | discriminate].
  - intros H. contradiction.
Defined.

Lemma sample_append_good (sync grow_code rdwr_code : Z) :
  @good_write (sample_filesystem sync grow_code rdwr_code) (-1) 1000
              (sample_file 256).
Proof.
  split.
  - apply sample_grows.
  - split; [discriminate | reflexivity].
  - split; vm_compute; repeat split; try reflexivity;
      try (intros H; discriminate H); try (left; reflexivity);
      try (right; intros H; discriminate H).
Defined.

Lemma sample_seek_good (sync grow_code rdwr_code : Z) :
  @good_write (sample_filesystem sync grow_code rdwr_code) 40 20 (sample_file 0).
Proof.
  split.
  - apply sample_grows.
  - split; [discriminate | reflexivity].
  - split; vm_compute; repeat split; try reflexivity;
      try (intros H; discriminate H); try (left; reflexivity);
      try (right; intros H; discriminate H).
Defined.

Lemma io_write_returns_witness :
  @good_write (sample_filesystem 0 0 0) (-1) 1000 (sample_file 256)
  /\ exists (err : error_t) (amt : option Z) (s' : fs) (mid : list call),
       @diskfs_S_io_write (sample_filesystem 0 0 0) 1 (Some 5) [] 1000 (-1)
         (sample_file 256) = Some (Returns err amt, s')
       /\ calls s'
          = calls (sample_file 256) ++ [mutex_lock; ioserver_get_conch]
              ++ mid ++ [mutex_unlock].
Proof.
  split; [apply sample_append_good |].
  destruct (@io_write_returns (sample_filesystem 0 0 0) 0 5 [] 1000 (-1)
              (sample_file 256) (sample_append_good 0 0 0))
    as (err & amt & s' & mid & Hrun & Hcalls & _).
  exists err, amt, s', mid. split; [exact Hrun | exact Hcalls].
Defined.

Lemma sample_grow_fails :
  @grow_error (sample_filesystem 0 28 0) (-1) 1000 (sample_file 256) <> 0.
Proof. vm_compute. discriminate. Defined.

Lemma io_write_grow_failure_witness :
  @good_write (sample_filesystem 0 28 0) (-1) 1000 (sample_file 256)
  /\ @grow_error (sample_filesystem 0 28 0) (-1) 1000 (sample_file 256) <> 0
  /\ exists s' : fs,
       @diskfs_S_io_write (sample_filesystem 0 28 0) 1 (Some 5) [] 1000 (-1)
         (sample_file 256) = Some (Returns 28 None, s')
       /\ st_size (np s') = 100
       /\ filepointer (po s') = 100.
Proof.
  split; [apply sample_append_good |]. split; [exact sample_grow_fails |].
  destruct (@io_write_grow_failure (sample_filesystem 0 28 0) 0 5 [] 1000 (-1)
              (sample_file 256) (sample_append_good 0 28 0) sample_grow_fails)
    as (s' & Hrun & _ & _ & Hsize & _ & Hptr & _).
  exists s'. split; [exact Hrun |]. split; [exact Hsize | exact Hptr].
Defined.

Lemma sample_append_run :
  @diskfs_S_io_write (sample_filesystem 0 0 0) 1 (Some 5) [] 1000 (-1)
    (sample_file 256)
  = Some (Returns 0 (Some 1000),
          mk_fs (mk_peropen 1100 259) (mk_node 33188 1100 1 1100)
                [mutex_lock; ioserver_get_conch; diskfs_grow 1100;
                 rdwr_internal [] 100 1000 1 0; mutex_unlock]).
Proof. vm_compute. reflexivity. Defined.

Lemma io_write_append_witness :
  @good_write (sample_filesystem 0 0 0) (-1) 1000 (sample_file 256)
  /\ Z.land (openstat (po (sample_file 256)))
            (@O_APPEND (sample_filesystem 0 0 0)) <> 0
  /\ filepointer (po (mk_fs (mk_peropen 1100 259) (mk_node 33188 1100 1 1100)
                        [mutex_lock; ioserver_get_conch; diskfs_grow 1100;
                         rdwr_internal [] 100 1000 1 0; mutex_unlock]))
     = st_size (np (sample_file 256)) + 1000.
Proof.
  assert (Happend : Z.land (openstat (po (sample_file 256)))
                      (@O_APPEND (sample_filesystem 0 0 0)) <> 0)
    by (vm_compute; discriminate).
  destruct (@io_write_append (sample_filesystem 0 0 0) 0 5 [] 1000
              (sample_file 256) _ _ (sample_append_good 0 0 0) Happend
              sample_append_run) as (_ & _ & Hptr & _).
  split; [apply sample_append_good |]. split; [exact Happend | exact Hptr].
Defined.

Lemma sample_seek_run :
  @diskfs_S_io_write (sample_filesystem 1 0 5) 1 (Some 5) [] 20 40
    (sample_file 0)
  = Some (Returns 5 (Some 20),
          mk_fs (mk_peropen 10 3) (mk_node 33188 100 0 512)
                [mutex_lock; ioserver_get_conch;
                 rdwr_internal [] 40 20 1 0; mutex_unlock]).
Proof. vm_compute. reflexivity. Defined.

Lemma io_write_filepointer_witness :
  @good_write (sample_filesystem 1 0 5) 40 20 (sample_file 0)
  /\ filepointer (po (mk_fs (mk_peropen 10 3) (mk_node 33188 100 0 512)
                        [mutex_lock; ioserver_get_conch;
                         rdwr_internal [] 40 20 1 0; mutex_unlock]))
     = filepointer (po (sample_file 0)).
Proof.
  destruct (@io_write_filepointer (sample_filesystem 1 0 5) 0 5 [] 20 40
              (sample_file 0) _ _ _ (sample_seek_good 1 0 5) sample_seek_run)
    as (_ & Hkeep & _).
  split; [apply sample_seek_good |]. apply Hkeep. lia.
Defined.

Lemma sample_failed_append_run :
  @diskfs_S_io_write (sample_filesystem 1 0 5) 1 (Some 5) [] 1000 (-1)
    (sample_file 256)
  = Some (Returns 5 (Some 1000),
          mk_fs (mk_peropen 100 259) (mk_node 33188 1100 1 1100)
                [mutex_lock; ioserver_get_conch; diskfs_grow 1100;
                 diskfs_node_update 1; diskfs_node_update 1;
                 rdwr_internal [] 100 1000 1 0; mutex_unlock]).
Proof. vm_compute. reflexivity. Defined.

Lemma io_write_size_witness :
  @good_write (sample_filesystem 1 0 5) (-1) 1000 (sample_file 256)
  /\ st_size (np (sample_file 256))
     <= st_size (np (mk_fs (mk_peropen 100 259) (mk_node 33188 1100 1 1100)
                       [mutex_lock; ioserver_get_conch; diskfs_grow 1100;
                        diskfs_node_update 1; diskfs_node_update 1;
                        rdwr_internal [] 100 1000 1 0; mutex_unlock])).
Proof.
  destruct (@io_write_size (sample_filesystem 1 0 5) 0 5 [] 1000 (-1)
              (sample_file 256) _ _ _ (sample_append_good 1 0 5)
              sample_failed_append_run) as (Hmono & _).
  split; [apply sample_append_good | exact Hmono].
Defined.

Lemma io_write_calls_witness :
  @good_write (sample_filesystem 1 0 5) (-1) 1000 (sample_file 256)
  /\ filter (fun k => is_file_update k = true)
       (calls_since (sample_file 256)
          (mk_fs (mk_peropen 100 259) (mk_node 33188 1100 1 1100)
                 [mutex_lock; ioserver_get_conch; diskfs_grow 1100;
                  diskfs_node_update 1; diskfs_node_update 1;
                  rdwr_internal [] 100 1000 1 0; mutex_unlock]))
     = [].
Proof.
  destruct (@io_write_calls (sample_filesystem 1 0 5) 0 5 [] 1000 (-1)
              (sample_file 256) _ _ _ (sample_append_good 1 0 5)
              sample_failed_append_run) as (_ & _ & Hsync).
  split; [apply sample_append_good | exact Hsync].
Defined.

End IoWriteFacts.

(** ** Properties of [netfs_S_file_set_translator] *)

Module SetTranslatorFacts.

Import SetTranslator.

Section Facts.

Context `{N : Netfs}.

Lemma held_app l1 l2 : held (l1 ++ l2) = held l1 + held l2.
Proof.
  unfold held. induction l1 as [| c l1 IH]; simpl; [reflexivity |].
  rewrite IH. lia.
Qed.

Lemma held_snoc l c : held (l ++ [c]) = held l + lock_delta c.
Proof. rewrite held_app. unfold held. simpl. lia. Qed.

Lemma moves_next_any {A} (a : A) (dg dr : Z) : moves 0 dg dr (next a).
Proof. intros s. simpl. lia. Qed.

Lemma moves_then {A B} (d1 dn dg dr : Z) (c : T A) (k : A -> T B) :
  moves d1 dg dr c ->
  (forall a, moves (dn - d1) (dg - d1) (dr - d1) (k a)) ->
  moves dn dg dr (then_ c k).
Proof.
  intros Hc Hk s. unfold then_. specialize (Hc s).
  destruct (c s) as [[a | e | e | |] s1]; try exact Hc.
  specialize (Hk a s1). destruct (k a s1) as [[b | e | e | |] s2]; lia.
Qed.

Lemma moves_perform (c : call) (dg dr : Z) :
  moves (lock_delta c) dg dr (perform c).
Proof. intros s. simpl. apply held_snoc. Qed.

Lemma moves_goto_out {A} (e : error_t) (dn dr : Z) :
  moves dn 0 dr (@goto_out A e).
Proof. intros s. simpl. lia. Qed.

Lemma moves_return {A} (e : error_t) (dn dg : Z) :
  moves dn dg 0 (@return_ A e).
Proof. intros s. simpl. lia. Qed.

Lemma moves_assert_fails {A} (dn dr : Z) : moves dn 0 dr (@assert_fails A).
Proof. intros s. simpl. lia. Qed.

Lemma moves_get_node (dg dr : Z) : moves 0 dg dr get_node.
Proof. intros s. simpl. lia. Qed.

Lemma moves_get_calls (dg dr : Z) : moves 0 dg dr get_calls.
Proof. intros s. simpl. lia. Qed.

Lemma moves_validate_stat (cred dg dr : Z) : moves 0 dg dr (validate_stat cred).
Proof. intros s. simpl. rewrite held_snoc. simpl. lia. Qed.

Lemma moves_undefined {A} (dn dr : Z) :
  moves dn 0 dr (fun s : fs => (@Undefined A, s)).
Proof. intros s. simpl. lia. Qed.

Ltac step_moves :=
  lazymatch goal with
  | |- moves _ _ _ (then_ (perform ?c) _) =>
      apply (moves_then (lock_delta c)); [apply moves_perform | intros]
  | |- moves _ _ _ (then_ _ _) =>
      apply (moves_then 0); [| intros]
  | |- moves _ _ _ (if ?b then _ else _) => destruct b
  | |- moves _ _ _ (match ?x with _ => _ end) => destruct x
  | |- moves ?dn _ _ (next _) =>
      replace dn with 0 by (cbn; lia); apply moves_next_any
  | |- moves _ ?dg _ (goto_out _) =>
      replace dg with 0 by (cbn; lia); apply moves_goto_out
  | |- moves _ _ ?dr (return_ _) =>
      replace dr with 0 by (cbn; lia); apply moves_return
  | |- moves _ ?dg _ assert_fails =>
      replace dg with 0 by (cbn; lia); apply moves_assert_fails
  | |- moves _ ?dg _ (fun s => (Undefined, s)) =>
      replace dg with 0 by (cbn; lia); apply moves_undefined
  | |- moves ?dn _ _ (perform ?c) =>
      replace dn with (lock_delta c) by (cbn; lia); apply moves_perform
  | |- moves ?dn _ _ get_node =>
      replace dn with 0 by (cbn; lia); apply moves_get_node
  | |- moves ?dn _ _ get_calls =>
      replace dn with 0 by (cbn; lia); apply moves_get_calls
  | |- moves ?dn _ _ (validate_stat _) =>
      replace dn with 0 by (cbn; lia); apply moves_validate_stat
  end.

Ltac solve_moves :=
  unfold active_block, exclusive_block, install_active_block, passive_block,
    short_circuit, or_fallback, fallback, fetch_control, goaway, set_active,
    attempt_mkdev, attempt_mksymlink, attempt_chmod, set_translator;
  repeat step_moves.

(** The body of the function, from the [mutex_lock] to the label [out]. *)
Lemma body_moves (cred passive_flags active_flags killtrans_flags active : Z)
    (passive : option (list byte)) (passivelen : Z) :
  moves 1 1 0
    (then_ (perform mutex_lock) (fun _ =>
     then_ (active_block cred active_flags killtrans_flags) (fun _ =>
     then_ (exclusive_block cred passive_flags) (fun _ =>
     then_ (install_active_block active_flags active) (fun _ =>
     passive_block cred passive_flags passive passivelen))))).
Proof. solve_moves. Qed.

(** X25: the request is validated before the lock is taken.  Without a
    user the function returns EOPNOTSUPP; with a user and FS_TRANS_SET in
    neither flag word it returns 0, whatever the passive buffer holds; when a
    translator is to be set and the passive buffer does not end in a NUL it
    returns EINVAL.  In all three cases the node is untouched and no call has
    been made. *)
Theorem set_translator_guards (cred passive_flags active_flags killtrans_flags
    active : Z) (passive : option (list byte)) (buf : list byte) (s : fs) :
  netfs_S_file_set_translator None passive_flags active_flags killtrans_flags
    passive active s = (Returns EOPNOTSUPP, s)
  /\ (Z.land passive_flags FS_TRANS_SET = 0 ->
      Z.land active_flags FS_TRANS_SET = 0 ->
      netfs_S_file_set_translator (Some cred) passive_flags active_flags
        killtrans_flags passive active s = (Returns 0, s))
  /\ (requested passive_flags active_flags ->
      buf <> [] -> List.last buf x00 <> x00 ->
      netfs_S_file_set_translator (Some cred) passive_flags active_flags
        killtrans_flags (Some buf) active s = (Returns EINVAL, s)).
Proof.
  split; [reflexivity |]. split.
  - intros Hp Ha. unfold netfs_S_file_set_translator. rewrite Hp, Ha. reflexivity.
  - intros Hreq Hne Hlast. unfold netfs_S_file_set_translator.
    assert (Htest : (Z.land passive_flags FS_TRANS_SET =? 0)
                    && (Z.land active_flags FS_TRANS_SET =? 0) = false).
    { destruct Hreq as [H | H];
        destruct (Z.eqb_spec (Z.land passive_flags FS_TRANS_SET) 0);
        destruct (Z.eqb_spec (Z.land active_flags FS_TRANS_SET) 0);
        try contradiction; reflexivity. }
    rewrite Htest. destruct buf as [| b buf]; [contradiction |].
    destruct (Byte.eqb (List.last (b :: buf) x00) x00) eqn:Heq;
      [apply Byte.byte_dec_bl in Heq; contradiction | reflexivity].
Qed.

(** X26: the node's lock is released on every return.  Whatever the
    arguments and whatever the filesystem answers, when the function returns
    the history holds as many [mutex_unlock] as [mutex_lock] calls more than
    before: this covers [goto out], the EBUSY and EINVAL returns and the
    return after [fsys_goaway], where the lock was dropped for the call.  When
    an assertion fails the lock is still held. *)
Theorem set_translator_lock_balance (user : option Z)
    (passive_flags active_flags killtrans_flags active : Z)
    (passive : option (list byte)) (s : fs) :
  match netfs_S_file_set_translator user passive_flags active_flags
          killtrans_flags passive active s with
  | (Returns _, s') => held (calls s') = held (calls s)
  | (Assertion_failed, s') => held (calls s') = held (calls s) + 1
  | (Invalid_read, s') =>
      held (calls s') = held (calls s) \/ held (calls s') = held (calls s) + 1
  end.
Proof.
  unfold netfs_S_file_set_translator.
  destruct user as [cred |]; [| reflexivity].
  destruct (_ && _); [reflexivity |].
  destruct passive as [[| b buf] |]; [left; reflexivity | |].
  - destruct (negb _); [reflexivity |].
    pose proof (body_moves cred passive_flags active_flags killtrans_flags
                  active (Some (b :: buf))
                  (from_option (fun l : list byte => Z.of_nat (length l)) 0
                               (Some (b :: buf))) s) as Hbody.
    match goal with
    | |- context [finish ?r] => destruct r as [[e | e | e | |] s1]
    end; cbn [finish calls]; rewrite ?held_snoc; cbn [lock_delta]; lia.
  - pose proof (body_moves cred passive_flags active_flags killtrans_flags
                  active None
                  (from_option (fun l : list byte => Z.of_nat (length l)) 0
                               None) s)
      as Hbody.
    match goal with
    | |- context [finish ?r] => destruct r as [[e | e | e | |] s1]
    end; cbn [finish calls]; rewrite ?held_snoc; cbn [lock_delta]; lia.
Qed.

Lemma owner_index_none (uids : list Z) (owner i : Z) :
  Forall (fun u => u <> 0 /\ u <> owner) uids ->
  owner_index uids owner i = i + Z.of_nat (length uids).
Proof.
  intros H. revert i. induction H as [| u uids [H0 Ho] _ IH]; intros i.
  - simpl. lia.
  - cbn [owner_index length].
    destruct (Z.eqb_spec u 0); [contradiction |].
    destruct (Z.eqb_spec u owner); [contradiction |].
    cbn [orb]. rewrite IH. lia.
Qed.

(** The head of the function for a request that passes the guards. *)
Lemma set_translator_body (cred passive_flags active_flags killtrans_flags
    active : Z) (passive : option (list byte)) (s : fs) :
  terminated passive ->
  requested passive_flags active_flags ->
  netfs_S_file_set_translator (Some cred) passive_flags active_flags
    killtrans_flags passive active s
  = finish
      (then_ (active_block cred active_flags killtrans_flags) (fun _ =>
       then_ (exclusive_block cred passive_flags) (fun _ =>
       then_ (install_active_block active_flags active) (fun _ =>
       passive_block cred passive_flags passive
         (from_option (fun l : list byte => Z.of_nat (length l)) 0 passive))))
         (mk_fs (np s) (calls s ++ [mutex_lock]))).
Proof.
  intros Hterm Hreq. unfold netfs_S_file_set_translator.
  assert (Htest : (Z.land passive_flags FS_TRANS_SET =? 0)
                  && (Z.land active_flags FS_TRANS_SET =? 0) = false).
  { destruct Hreq as [H | H];
      destruct (Z.eqb_spec (Z.land passive_flags FS_TRANS_SET) 0);
      destruct (Z.eqb_spec (Z.land active_flags FS_TRANS_SET) 0);
      try contradiction; reflexivity. }
  rewrite Htest.
  destruct passive as [[| b buf] |].
  - destruct Hterm as [Hne _]. contradiction.
  - destruct Hterm as [_ Hlast]. rewrite Hlast. reflexivity.
  - reflexivity.
Qed.

(** X27: only root or the owner may set an active translator.  When
    FS_TRANS_SET is in the active flags, [netfs_validate_stat] succeeds and
    none of the user's uids is 0 or the owner of the node, the function
    returns EBUSY; it has taken and released the lock and made no call besides
    [netfs_interpret_credential] and [netfs_validate_stat]: no translator is
    fetched, told to go away or installed. *)
Theorem set_translator_owner_only (cred passive_flags active_flags
    killtrans_flags active : Z) (passive : option (list byte)) (s : fs) :
  let checked :=
    validate_stat_reply
      (calls s ++ [mutex_lock; netfs_interpret_credential cred]) (np s) in
  terminated passive ->
  Z.land active_flags FS_TRANS_SET <> 0 ->
  checked.1 = 0 ->
  Forall (fun u => u <> 0 /\ u <> st_uid checked.2) (uids_of cred) ->
  netfs_S_file_set_translator (Some cred) passive_flags active_flags
    killtrans_flags passive active s
  = (Returns EBUSY,
     mk_fs checked.2
           (calls s ++ [mutex_lock; netfs_interpret_credential cred;
                        netfs_validate_stat cred; mutex_unlock])).
Proof.
  intros checked Hterm Hset Hok Huids.
  rewrite set_translator_body by (try assumption; right; assumption).
  unfold active_block.
  destruct (Z.eqb_spec (Z.land active_flags FS_TRANS_SET) 0); [contradiction |].
  unfold then_ at 1. unfold then_ at 1.
  cbn [perform np calls].
  unfold then_ at 1. unfold validate_stat at 1. cbn [np calls].
  rewrite <- app_assoc. cbn [app]. fold checked. rewrite Hok.
  cbn [Z.eqb negb].
  unfold then_ at 1. cbn [get_node np].
  rewrite (owner_index_none _ _ 0 Huids). cbn [Z.add].
  rewrite Z.eqb_refl.
  unfold then_ at 1. cbn [perform return_ np calls finish].
  repeat rewrite <- app_assoc. reflexivity.
Qed.

(** A request that only sets a passive translator, without
    FS_TRANS_EXCL. *)
Record passive_only (passive_flags active_flags : Z) : Prop := {
  po_set : Z.land passive_flags FS_TRANS_SET <> 0;
  po_excl : Z.land passive_flags FS_TRANS_EXCL = 0;
  po_active : Z.land active_flags FS_TRANS_SET = 0
}.

Lemma passive_only_body (cred passive_flags active_flags killtrans_flags
    active : Z) (passive : option (list byte)) (s : fs) :
  terminated passive ->
  passive_only passive_flags active_flags ->
  netfs_S_file_set_translator (Some cred) passive_flags active_flags
    killtrans_flags passive active s
  = finish
      (passive_block cred passive_flags passive
         (from_option (fun l : list byte => Z.of_nat (length l)) 0 passive)
         (mk_fs (np s) (calls s ++ [mutex_lock]))).
Proof.
  intros Hterm [Hset Hexcl Hact].
  rewrite set_translator_body by (try assumption; left; assumption).
  unfold active_block, exclusive_block, install_active_block.
  rewrite Hact, Hexcl. cbn [Z.eqb negb andb].
  rewrite andb_false_r. reflexivity.
Qed.

(** X28: FS_TRANS_FORCE switches the short circuits off.  A request that
    only sets a passive translator with FS_TRANS_FORCE hands the passive
    buffer, whatever it names (a symlink or device translator too, or none
    at all), to [netfs_set_translator], makes no other filesystem call, and
    returns what that call returns. *)
Theorem set_translator_force (cred passive_flags active_flags killtrans_flags
    active : Z) (passive : option (list byte)) (s : fs) :
  let passivelen :=
    from_option (fun l : list byte => Z.of_nat (length l)) 0 passive in
  terminated passive ->
  passive_only passive_flags active_flags ->
  Z.land passive_flags FS_TRANS_FORCE <> 0 ->
  netfs_S_file_set_translator (Some cred) passive_flags active_flags
    killtrans_flags passive active s
  = (Returns (set_translator_reply (calls s ++ [mutex_lock]) passive),
     mk_fs (np s)
           (calls s ++ [mutex_lock;
                        netfs_set_translator cred passive passivelen;
                        mutex_unlock])).
Proof.
  intros passivelen Hterm Honly Hforce.
  rewrite passive_only_body by assumption.
  unfold passive_block.
  destruct (Z.eqb_spec (Z.land passive_flags FS_TRANS_SET) 0);
    [destruct Honly; contradiction |].
  destruct (Z.eqb_spec (Z.land passive_flags FS_TRANS_FORCE) 0);
    [contradiction |].
  cbn [negb]. unfold fallback, set_translator, then_, get_calls, perform, next.
  cbn [finish np calls]. repeat rewrite <- app_assoc. reflexivity.
Qed.

(** A buffer that names a translator is not empty. *)
Lemma short_circuit_nonempty (buf : list byte) :
  short_circuit_mode buf <> 0 -> buf <> [].
Proof. intros H ->. apply H. reflexivity. Qed.

Lemma passive_block_short_circuit (cred passive_flags : Z) (buf : list byte)
    (passivelen : Z) (s : fs) :
  Z.land passive_flags FS_TRANS_SET <> 0 ->
  Z.land passive_flags FS_TRANS_FORCE = 0 ->
  passive_block cred passive_flags (Some buf) passivelen s
  = short_circuit cred buf (short_circuit_mode buf) s.
Proof.
  intros Hset Hforce. unfold passive_block.
  destruct (Z.eqb_spec (Z.land passive_flags FS_TRANS_SET) 0); [contradiction |].
  rewrite Hforce. reflexivity.
Qed.

(** X29: the symlink short circuit and its fallback.  For a passive buffer
    that names /hurd/symlink and carries a target, a request that only sets
    the passive translator (without FS_TRANS_FORCE) calls
    [netfs_attempt_mksymlink] with the target, the string after the first
    NUL.  If the filesystem answers EOPNOTSUPP the whole buffer is handed to
    [netfs_set_translator] and its answer is returned; any other answer is
    returned as it is and [netfs_set_translator] is not called. *)
Theorem set_translator_symlink (cred passive_flags active_flags
    killtrans_flags active : Z) (buf : list byte) (s : fs) :
  let target := string_at buf (strlen buf + 1) in
  let answer := mksymlink_reply (calls s ++ [mutex_lock]) target in
  List.last buf x00 = x00 ->
  short_circuit_mode buf = S_IFLNK ->
  (strlen buf + 1 < length buf)%nat ->
  passive_only passive_flags active_flags ->
  Z.land passive_flags FS_TRANS_FORCE = 0 ->
  netfs_S_file_set_translator (Some cred) passive_flags active_flags
    killtrans_flags (Some buf) active s
  = if answer =? EOPNOTSUPP
    then (Returns (set_translator_reply
                     (calls s ++ [mutex_lock;
                                  netfs_attempt_mksymlink cred target])
                     (Some buf)),
          mk_fs (np s)
                (calls s ++ [mutex_lock; netfs_attempt_mksymlink cred target;
                             netfs_set_translator cred (Some buf)
                               (Z.of_nat (length buf));
                             mutex_unlock]))
    else (Returns answer,
          mk_fs (np s)
                (calls s ++ [mutex_lock; netfs_attempt_mksymlink cred target;
                             mutex_unlock])).
Proof.
  intros target answer Hlast Hmode Hargs Honly Hforce.
  assert (Hne : buf <> []) by (apply short_circuit_nonempty; rewrite Hmode; discriminate).
  rewrite passive_only_body by (try assumption; split; assumption).
  rewrite passive_block_short_circuit by (try assumption; apply Honly).
  rewrite Hmode. unfold short_circuit.
  change ((S_IFLNK =? S_IFBLK) || (S_IFLNK =? S_IFCHR)) with false.
  change (S_IFLNK =? S_IFLNK) with true. cbv iota.
  destruct (Nat.leb_spec (strlen buf + 1) (length buf)) as [_ | Hbad]; [| lia].
  destruct (Nat.eqb_spec (strlen buf + 1) (length buf)) as [Heq | _]; [lia |].
  cbn [negb].
  unfold attempt_mksymlink, or_fallback, fallback, set_translator, then_,
    get_calls, perform, next.
  cbn [np calls]. fold target. fold answer.
  destruct (answer =? EOPNOTSUPP); cbn [finish np calls];
    repeat rewrite <- app_assoc; reflexivity.
Qed.

(** X30: device translators need both numbers.  For a passive buffer that
    names /hurd/chrdev or /hurd/blkdev, a request that only sets the passive
    translator (without FS_TRANS_FORCE) returns EINVAL, with the lock
    released and nothing called, when the buffer ends after the name; when
    the buffer carries the major number only, the second assertion
    ([arg < passive + passivelen]) fails with the lock held, so the EINVAL
    return written after it is never taken; with both numbers
    [netfs_attempt_mkdev] is called with the mode and the two numbers
    [strtol] reads. *)
Theorem set_translator_device_arguments (cred passive_flags active_flags
    killtrans_flags active : Z) (buf : list byte) (s : fs) :
  let first := (strlen buf + 1)%nat in
  let second := (first + strlen (drop first buf) + 1)%nat in
  List.last buf x00 = x00 ->
  short_circuit_mode buf = S_IFCHR \/ short_circuit_mode buf = S_IFBLK ->
  passive_only passive_flags active_flags ->
  Z.land passive_flags FS_TRANS_FORCE = 0 ->
  (first = length buf ->
   netfs_S_file_set_translator (Some cred) passive_flags active_flags
     killtrans_flags (Some buf) active s
   = (Returns EINVAL, mk_fs (np s) (calls s ++ [mutex_lock; mutex_unlock])))
  /\ ((first < length buf)%nat -> second = length buf ->
      netfs_S_file_set_translator (Some cred) passive_flags active_flags
        killtrans_flags (Some buf) active s
      = (Assertion_failed, mk_fs (np s) (calls s ++ [mutex_lock])))
  /\ ((second < length buf)%nat ->
      exists (o : outcome) (rest : list call),
        netfs_S_file_set_translator (Some cred) passive_flags active_flags
          killtrans_flags (Some buf) active s
        = (o, mk_fs (np s)
                (calls s
                   ++ [mutex_lock;
                       netfs_attempt_mkdev cred (short_circuit_mode buf)
                         (Word.to_int (strtol (string_at buf first)))
                         (Word.to_int (strtol (string_at buf second)))]
                   ++ rest))).
Proof.
  intros first second Hlast Hmode Honly Hforce.
  assert (Hne : buf <> []).
  { apply short_circuit_nonempty. destruct Hmode as [-> | ->]; discriminate. }
  rewrite passive_only_body by (try assumption; split; assumption).
  rewrite passive_block_short_circuit by (try assumption; apply Honly).
  assert (Htest : (short_circuit_mode buf =? S_IFBLK)
                  || (short_circuit_mode buf =? S_IFCHR) = true)
    by (destruct Hmode as [-> | ->]; reflexivity).
  unfold short_circuit. rewrite Htest. fold first. fold second.
  split; [| split].
  - intros Hbare.
    destruct (Nat.leb_spec first (length buf)) as [_ | Hbad]; [| lia].
    destruct (Nat.eqb_spec first (length buf)) as [_ | Hbad]; [| contradiction].
    cbn [negb]. unfold then_, perform, return_. cbn [finish np calls].
    rewrite <- app_assoc. reflexivity.
  - intros Hmajor Hminor.
    destruct (Nat.leb_spec first (length buf)) as [_ | Hbad]; [| lia].
    destruct (Nat.eqb_spec first (length buf)) as [Hbad | _]; [lia |].
    destruct (Nat.ltb_spec second (length buf)) as [Hbad | _]; [lia |].
    cbn [negb]. reflexivity.
  - intros Hboth.
    assert (Hfirst : (first < length buf)%nat) by (unfold second in Hboth; lia).
    destruct (Nat.leb_spec first (length buf)) as [_ | Hbad]; [| lia].
    destruct (Nat.eqb_spec first (length buf)) as [Hbad | _]; [lia |].
    destruct (Nat.ltb_spec second (length buf)) as [_ | Hbad]; [| lia].
    destruct (Nat.eqb_spec second (length buf)) as [Hbad | _]; [lia |].
    cbn [negb].
    unfold attempt_mkdev, or_fallback, fallback, set_translator, then_,
      get_calls, perform, next.
    cbn [np calls].
    destruct (_ =? EOPNOTSUPP); cbn [finish np calls]; eexists; eexists;
      repeat rewrite <- app_assoc; cbn [app]; reflexivity.
Qed.

End Facts.

Lemma sample_passive_only : @passive_only (sample_netfs true 0 0) 4 0.
Proof. split; vm_compute; congruence. Defined.

Lemma linking_passive_only (link_code set_code : Z) :
  @passive_only (linking_netfs link_code set_code) 4 0.
Proof. split; vm_compute; congruence. Defined.

Lemma set_translator_owner_only_witness :
  @netfs_S_file_set_translator (sample_netfs false 0 0) (Some 1) 0 4 0 None 9
    sample_node
  = (Returns EBUSY,
     mk_fs (mk_node 200 33188 0)
           [mutex_lock; netfs_interpret_credential 1; netfs_validate_stat 1;
            mutex_unlock]).
Proof.
  apply (@set_translator_owner_only (sample_netfs false 0 0) 1 0 4 0 9 None
           sample_node).
  - exact I.
  - vm_compute. discriminate.
  - reflexivity.
  - repeat constructor; vm_compute; discriminate.
Defined.

Lemma set_translator_force_witness :
  @netfs_S_file_set_translator (sample_netfs true 0 0) (Some 1) 5 0 0
    (Some symlink_request) 9 sample_node
  = (Returns 0,
     mk_fs (mk_node 200 33188 0)
           [mutex_lock;
            netfs_set_translator 1 (Some symlink_request) 21;
            mutex_unlock]).
Proof.
  apply (@set_translator_force (sample_netfs true 0 0) 1 5 0 0 9
           (Some symlink_request) sample_node).
  - split; [vm_compute; discriminate | reflexivity].
  - split; vm_compute; congruence.
  - vm_compute. discriminate.
Defined.

Lemma set_translator_symlink_witness :
  @netfs_S_file_set_translator (linking_netfs EOPNOTSUPP 0) (Some 1) 4 0 0
    (Some symlink_request) 9 sample_node
  = (Returns 0,
     mk_fs (mk_node 200 33188 0)
           [mutex_lock;
            netfs_attempt_mksymlink 1 ["t"; "a"; "r"; "g"; "e"; "t"]%byte;
            netfs_set_translator 1 (Some symlink_request) 21;
            mutex_unlock])
  /\ @netfs_S_file_set_translator (linking_netfs EROFS 0) (Some 1) 4 0 0
       (Some symlink_request) 9 sample_node
     = (Returns EROFS,
        mk_fs (mk_node 200 33188 0)
              [mutex_lock;
               netfs_attempt_mksymlink 1 ["t"; "a"; "r"; "g"; "e"; "t"]%byte;
               mutex_unlock]).
Proof.
  split.
  - apply (@set_translator_symlink (linking_netfs EOPNOTSUPP 0) 1 4 0 0 9
             symlink_request sample_node).
    + reflexivity.
    + reflexivity.
    + vm_compute. lia.
    + apply linking_passive_only.
    + reflexivity.
  - apply (@set_translator_symlink (linking_netfs EROFS 0) 1 4 0 0 9
             symlink_request sample_node).
    + reflexivity.
    + reflexivity.
    + vm_compute. lia.
    + apply linking_passive_only.
    + reflexivity.
Defined.

Lemma set_translator_device_arguments_witness :
  @netfs_S_file_set_translator (sample_netfs true 0 0) (Some 1) 4 0 0
    (Some chrdev_bare) 9 sample_node
  = (Returns EINVAL, mk_fs (mk_node 200 33188 0) [mutex_lock; mutex_unlock])
  /\ @netfs_S_file_set_translator (sample_netfs true 0 0) (Some 1) 4 0 0
       (Some chrdev_major_only) 9 sample_node
     = (Assertion_failed, mk_fs (mk_node 200 33188 0) [mutex_lock])
  /\ exists (o : outcome) (rest : list call),
       @netfs_S_file_set_translator (sample_netfs true 0 0) (Some 1) 4 0 0
         (Some chrdev_full) 9 sample_node
       = (o, mk_fs (mk_node 200 33188 0)
               ([mutex_lock; netfs_attempt_mkdev 1 S_IFCHR 7 7] ++ rest)).
Proof.
  split; [| split].
  - apply (@set_translator_device_arguments (sample_netfs true 0 0) 1 4 0 0 9
             chrdev_bare sample_node);
      [reflexivity | left; reflexivity | apply sample_passive_only
      | reflexivity | reflexivity].
  - apply (@set_translator_device_arguments (sample_netfs true 0 0) 1 4 0 0 9
             chrdev_major_only sample_node);
      [reflexivity | left; reflexivity | apply sample_passive_only
      | reflexivity | vm_compute; lia | reflexivity].
  - apply (@set_translator_device_arguments (sample_netfs true 0 0) 1 4 0 0 9
             chrdev_full sample_node);
      [reflexivity | left; reflexivity | apply sample_passive_only
      | reflexivity | vm_compute; lia].
Defined.

Lemma set_translator_guards_witness :
  @netfs_S_file_set_translator (sample_netfs true 0 0) (Some 1) 1 2 0
    (Some ["x"]%byte) 9 sample_node
  = (Returns 0, sample_node)
  /\ @netfs_S_file_set_translator (sample_netfs true 0 0) (Some 1) 4 0 0
       (Some ["x"]%byte) 9 sample_node
     = (Returns EINVAL, sample_node).
Proof.
  split.
  - apply (@set_translator_guards (sample_netfs true 0 0) 1 1 2 0 9
             (Some ["x"]%byte) [] sample_node); reflexivity.
  - apply (@set_translator_guards (sample_netfs true 0 0) 1 4 0 0 9
             None ["x"]%byte sample_node);
      [left; vm_compute; discriminate | discriminate
      | vm_compute; discriminate].
Defined.

End SetTranslatorFacts.
